(** * NFC Master firmware (v5.0): a shallow embedding and its properties

    The development follows [firmware.ino], revision 5.0 ("Physical Back
    Button").  The firmware's globals become one [Device] record, the
    collaborators it talks to (PN532 radio, SD storage, buttons and clock)
    become interfaces, and every function of the sketch becomes a
    computation in a small monad that threads the world, may wait for
    input, and records what it asked of the collaborators. *)

From Stdlib Require Import ZArith List Bool Lia Ascii String DecimalString.
Import ListNotations.
Local Open Scope Z_scope.

(* ===================================================================== *)
(** * Low-level button handling                                           *)
(* ===================================================================== *)

(** Arduino pin levels; the buttons are wired active-low with pull-ups. *)
Definition HIGH : bool := true.
Definition LOW : bool := false.

(** [struct Button]. *)
Record Button : Type := mkButton {
  PIN : Z;
  lastDebounceTime : Z;      (* uint32_t *)
  lastButtonState : bool;
  currentState : bool;
  pressed : bool
}.

(** Arithmetic on [uint32_t] / [unsigned long] wraps modulo 2^32. *)
Definition uint32 (x : Z) : Z := x mod 2 ^ 32.

(** [millis() - b.lastDebounceTime], an unsigned 32-bit difference. *)
Definition elapsed (since now : Z) : Z := uint32 (now - since).

(** [const unsigned long debounceDelay = 50;] *)
Definition debounceDelay : Z := 50.

(** The [debounce] lambda of [updateButtons], for a window [W]
    (the firmware uses [debounceDelay]).  [reading] is the value of
    [digitalRead(b.PIN)] and [now] the value of [millis()] at this poll. *)
Definition debounce (W : Z) (reading : bool) (now : Z) (b : Button) : Button :=
  (* if (reading != b.lastButtonState) b.lastDebounceTime = millis(); *)
  let since :=
    if negb (Bool.eqb reading (lastButtonState b))
    then uint32 now else lastDebounceTime b in
  (* if ((millis() - b.lastDebounceTime) > debounceDelay)
       if (reading != b.currentState) ... *)
  let accepted :=
    (W <? elapsed since now) && negb (Bool.eqb reading (currentState b)) in
  {| PIN := PIN b;
     lastDebounceTime := since;
     (* b.lastButtonState = reading; *)
     lastButtonState := reading;
     (* b.currentState = reading; *)
     currentState := if accepted then reading else currentState b;
     (* b.pressed = false; ... if (b.currentState == LOW) b.pressed = true; *)
     pressed := accepted && Bool.eqb reading LOW |}.

Arguments debounce : simpl never.

(** Polling one button over a list of (raw level, clock) samples; the
    result lists the [pressed] flag seen after each poll. *)
Fixpoint poll_run (W : Z) (b : Button) (samples : list (bool * Z))
  : list bool * Button :=
  match samples with
  | [] => ([], b)
  | (reading, now) :: rest =>
      let b' := debounce W reading now b in
      let (flags, bend) := poll_run W b' rest in
      (pressed b' :: flags, bend)
  end.

(** Number of flags set in a list. *)
Definition count_true (l : list bool) : nat :=
  List.length (List.filter (fun f => f) l).

(** Number of press edges emitted during a run. *)
Definition edges (W : Z) (b : Button) (samples : list (bool * Z)) : nat :=
  count_true (fst (poll_run W b samples)).

(** A pin that moves to [lvl] at the poll at time [t0] and is then read at
    that same level at the times [ts]. *)
Definition held (lvl : bool) (t0 : Z) (ts : list Z) : list (bool * Z) :=
  (lvl, t0) :: List.map (fun t => (lvl, t)) ts.

(** The button is at rest at the level opposite to [lvl]. *)
Definition at_rest (lvl : bool) (b : Button) : Prop :=
  lastButtonState b = negb lvl /\ currentState b = negb lvl.

(** The stable period, as the polls see it: the longest time since the
    transition at which the pin was read. *)
Definition stable_for (t0 : Z) (ts : list Z) : Z :=
  List.fold_right Z.max 0 (List.map (elapsed t0) ts).

(** The initial [btnSelect] of the sketch. *)
Definition btnSelect0 : Button := mkButton 13 0 HIGH HIGH false.

(** C8 as the specification words it: shorter than [W], no edge; at least
    [W], exactly one edge. *)
Definition debounce_as_specified (W : Z) : Prop :=
  forall b t0 ts, at_rest LOW b ->
    (stable_for t0 ts < W -> edges W b (held LOW t0 ts) = 0%nat) /\
    (W <= stable_for t0 ts -> edges W b (held LOW t0 ts) = 1%nat).

(* ===================================================================== *)
(** * Dynamic key management: the text of [keys.txt]                      *)
(* ===================================================================== *)

(** Text is a list of characters, as the [String] and [char] buffers of
    the sketch hold it. *)
Definition text : Type := list ascii.

(** An authentication key: six bytes. *)
Definition Key : Type := list Z.

(** [uint8_t keys[50][6]]: fifty rows of six bytes. *)
Definition KeyTable : Type := list Key.

Definition MAX_KEYS : nat := 50.

(** Globals of a sketch start zeroed. *)
Definition keys0 : KeyTable := List.repeat (List.repeat 0 6) MAX_KEYS.

(** [uint8_t defaultKeys[3][6]]. *)
Definition defaultKeys : KeyTable :=
  [ [255; 255; 255; 255; 255; 255];
    [160; 161; 162; 163; 164; 165];
    [176; 177; 178; 179; 180; 181] ].

(** Assignment to one slot of an array; an index past the end writes
    nothing (the loops below never produce one). *)
Fixpoint upd {A : Type} (l : list A) (i : nat) (v : A) : list A :=
  match l, i with
  | [], _ => []
  | _ :: r, O => v :: r
  | x :: r, S j => x :: upd r j v
  end.

(** [keys[i][j] = v]. *)
Definition set_key_byte (keys : KeyTable) (i j : nat) (v : Z) : KeyTable :=
  upd keys i (upd (List.nth i keys []) j v).

(** [memcpy(keys, defaultKeys, sizeof(defaultKeys))]: the first three rows
    are overwritten. *)
Definition memcpy_defaults (keys : KeyTable) : KeyTable :=
  defaultKeys ++ List.skipn (List.length defaultKeys) keys.

(** The dictionary the authenticator sees: rows [0 .. numKeys-1]. *)
Definition dictionary (keys : KeyTable) (numKeys : nat) : list Key :=
  List.firstn numKeys keys.

(** ** The C library and [String] helpers the parser uses *)

(** [isspace] in the C locale: space and the controls 9 to 13. *)
Definition isspace (c : ascii) : bool :=
  let n := nat_of_ascii c in
  Nat.eqb n 32 || (Nat.leb 9 n && Nat.leb n 13).

Fixpoint skip_while (p : ascii -> bool) (s : text) : text :=
  match s with
  | [] => []
  | c :: r => if p c then skip_while p r else s
  end.

(** [String::trim]: white space removed at both ends. *)
Definition trim (s : text) : text :=
  List.rev (skip_while isspace (List.rev (skip_while isspace s))).

(** [Stream::readStringUntil(terminator)]: the characters up to the
    terminator, which is consumed, or up to the end of the file. *)
Fixpoint readStringUntil (terminator : ascii) (stream : text) : text * text :=
  match stream with
  | [] => ([], [])
  | c :: rest =>
      if Ascii.eqb c terminator then ([], rest)
      else let (line, rest') := readStringUntil terminator rest in
           (c :: line, rest')
  end.

(** A C string ends at its first NUL. *)
Fixpoint c_str (s : text) : text :=
  match s with
  | [] => []
  | c :: r => if Ascii.eqb c zero then [] else c :: c_str r
  end.

(** [line.toCharArray(buf, bufsize)]: at most [bufsize - 1] characters are
    copied (by [strncpy]) and a NUL is put after them. *)
Definition toCharArray (line : text) (bufsize : nat) : text :=
  c_str (List.firstn (bufsize - 1) line).

(** The characters of a token: up to the next delimiter. *)
Fixpoint span_token (delim : ascii) (s : text) : text * text :=
  match s with
  | [] => ([], [])
  | c :: r =>
      if Ascii.eqb c delim then ([], r)
      else let (tok, r') := span_token delim r in (c :: tok, r')
  end.

(** [strtok] with a one-character delimiter set.  Its argument is the text
    still to be scanned (the buffer on the first call, the position the
    previous call saved on the next ones); the result is the token, [None]
    for a NULL pointer, and the position saved for the next call. *)
Definition strtok (delim : ascii) (s : text) : option text * text :=
  match skip_while (Ascii.eqb delim) s with
  | [] => (None, [])
  | c :: r => let (tok, rest) := span_token delim (c :: r) in (Some tok, rest)
  end.

(** Value of a digit in base 16, as [strtol] reads it. *)
Definition hex_digit (c : ascii) : option Z :=
  let n := Z.of_nat (nat_of_ascii c) in
  if (48 <=? n) && (n <=? 57) then Some (n - 48)
  else if (65 <=? n) && (n <=? 70) then Some (n - 55)
  else if (97 <=? n) && (n <=? 102) then Some (n - 87)
  else None.

(** The digits [strtol] consumes: accumulated value, whether any digit was
    read, and what follows them. *)
Fixpoint hex_digits (s : text) (acc : Z) (any : bool) : Z * bool * text :=
  match s with
  | [] => (acc, any, [])
  | c :: r =>
      match hex_digit c with
      | Some d => hex_digits r (acc * 16 + d) true
      | None => (acc, any, s)
      end
  end.

(** [long] has 32 bits on the ESP32. *)
Definition LONG_MAX : Z := 2 ^ 31 - 1.
Definition LONG_MIN : Z := - 2 ^ 31.

(** [strtol(nptr, &endPtr, 16)]: white space, an optional sign, an optional
    [0x], then digits.  The result is the value, clamped to [long], and the
    text [endPtr] points at; without any digit the value is 0 and [endPtr]
    is [nptr]. *)
Definition strtol16 (nptr : text) : Z * text :=
  let s1 := skip_while isspace nptr in
  let '(neg, s2) :=
    match s1 with
    | c :: r => if Ascii.eqb c "-" then (true, r)
                else if Ascii.eqb c "+" then (false, r)
                else (false, s1)
    | [] => (false, s1)
    end in
  let s3 :=
    match s2 with
    | c :: x :: r =>
        if Ascii.eqb c "0" && (Ascii.eqb x "x" || Ascii.eqb x "X")
        then r else s2
    | _ => s2
    end in
  let '(acc, any, rest) := hex_digits s3 0 false in
  if any
  then (if neg then Z.max LONG_MIN (- acc) else Z.min LONG_MAX acc, rest)
  else (0, nptr).

(** ** The parsing loops of [loadKeysFromSD] *)

(** The inner [while (ptr != NULL && byteIndex < 6)].  [room] is
    [6 - byteIndex]; the result is the table, [byteIndex] and [lineOk]. *)
Fixpoint parseTokens (room : nat) (ptr : option text) (saved : text)
    (keyIndex : nat) (keys : KeyTable) : KeyTable * nat * bool :=
  let byteIndex := (6 - room)%nat in
  match room, ptr with
  | S room', Some tok =>
      let (val, endPtr) := strtol16 tok in
      (* endPtr not at the terminating NUL, or val < 0, or val > 255:
         lineOk = false; break; *)
      if negb (Nat.eqb (List.length endPtr) 0) || (val <? 0) || (255 <? val)
      then (keys, byteIndex, false)
      else
        (* keys[keyIndex][byteIndex] = (uint8_t)val; ptr = strtok(NULL, delim); *)
        let keys' := set_key_byte keys keyIndex byteIndex (val mod 256) in
        let (ptr', saved') := strtok " " saved in
        parseTokens room' ptr' saved' keyIndex keys'
  | _, _ => (keys, byteIndex, true)
  end.

(** The outer [while (keyFile.available() && keyIndex < 50)].  Every turn
    reads at least one character, so [fuel] = number of characters left is
    enough.  The result is the table, [keyIndex] and the lines reported on
    the serial port as malformed, oldest first. *)
Fixpoint loadLoop (fuel : nat) (stream : text) (keys : KeyTable)
    (keyIndex : nat) (malformed : list text) : KeyTable * nat * list text :=
  match fuel with
  | O => (keys, keyIndex, malformed)
  | S fuel' =>
      if negb (Nat.eqb (List.length stream) 0) && Nat.ltb keyIndex 50 then
        let (raw, rest) := readStringUntil "010" stream in
        let line := trim raw in
        if Nat.eqb (List.length line) 0
        then loadLoop fuel' rest keys keyIndex malformed   (* continue *)
        else
          let lineBuffer := toCharArray line 40 in
          let (ptr, saved) := strtok " " lineBuffer in
          let '(keys', byteIndex, lineOk) :=
            parseTokens 6 ptr saved keyIndex keys in
          if Nat.eqb byteIndex 6 && lineOk
          then loadLoop fuel' rest keys' (S keyIndex) malformed
          else loadLoop fuel' rest keys' keyIndex (malformed ++ [line])
      else (keys, keyIndex, malformed)
  end.

(** The file-reading part of [loadKeysFromSD], on the contents of an opened
    [/keys.txt]. *)
Definition parseKeyFile (content : text) (keys : KeyTable)
  : KeyTable * nat * list text :=
  loadLoop (List.length content) content keys 0 [].

(** Keys the file put in the dictionary. *)
Definition file_keys (content : text) : list Key :=
  let '(keys, n, _) := parseKeyFile content keys0 in dictionary keys n.

(** Lines the file had reported as malformed. *)
Definition file_malformed (content : text) : list text :=
  let '(_, _, log) := parseKeyFile content keys0 in log.

Definition txt (s : string) : text := list_ascii_of_string s.

(** ** What the parser is meant to compute, on lists *)

(** The lines of a file, in the order [readStringUntil] delivers them: the
    text between line feeds; a final line feed opens no further line. *)
Fixpoint file_lines (s : text) : list text :=
  match s with
  | [] => []
  | c :: r =>
      if Ascii.eqb c "010" then [] :: file_lines r
      else match file_lines r with
           | [] => [[c]]
           | l :: ls => (c :: l) :: ls
           end
  end.

(** The tokens of a buffer: its maximal runs of characters other than the
    delimiter. *)
Fixpoint tokens (delim : ascii) (s : text) : list text :=
  match s with
  | [] => []
  | c :: r =>
      if Ascii.eqb c delim then tokens delim r
      else match r with
           | [] => [[c]]
           | c' :: _ =>
               if Ascii.eqb c' delim then [c] :: tokens delim r
               else match tokens delim r with
                    | t :: ts => (c :: t) :: ts
                    | [] => [[c]]
                    end
           end
  end.

(** A token is a byte when [strtol] reads all of it, in base 16, as a value
    from 0 to 255. *)
Definition byte_token (tok : text) : option Z :=
  let (val, endPtr) := strtol16 tok in
  match endPtr with
  | [] => if (0 <=? val) && (val <=? 255) then Some val else None
  | _ :: _ => None
  end.

(** The first [room] tokens as bytes, when there are that many and each is
    a byte. *)
Fixpoint first_bytes (room : nat) (toks : list text) : option (list Z) :=
  match room, toks with
  | O, _ => Some []
  | S _, [] => None
  | S room', t :: ts =>
      match byte_token t, first_bytes room' ts with
      | Some v, Some vs => Some (v :: vs)
      | _, _ => None
      end
  end.

(** The key a trimmed line stands for: the first six tokens of its first
    39 characters, each a byte. *)
Definition line_key (line : text) : option Key :=
  first_bytes 6 (tokens " " (toCharArray line 40)).

(** The keys and the malformed lines of a list of raw lines, when [n] keys
    are already loaded: blank lines are passed over, and nothing is read
    once fifty keys are loaded. *)
Fixpoint classify (lines : list text) (n : nat) : list Key * list text :=
  match lines with
  | [] => ([], [])
  | raw :: rest =>
      if Nat.ltb n 50 then
        match trim raw with
        | [] => classify rest n
        | line =>
            match line_key line with
            | Some k => let (ks, bad) := classify rest (S n) in (k :: ks, bad)
            | None => let (ks, bad) := classify rest n in (ks, line :: bad)
            end
        end
      else ([], [])
  end.


(** The tokens still to come when [strtok] has returned [ptr] and saved
    the position [saved]. *)
Definition toks_of (delim : ascii) (ptr : option text) (saved : text) : list text :=
  match ptr with
  | None => []
  | Some tok => tok :: tokens delim saved
  end.

(** Every row of the table has six bytes. *)
Definition rows_ok (keys : KeyTable) : Prop :=
  List.Forall (fun row => List.length row = 6%nat) keys.

(* ===================================================================== *)
(** * The device and its collaborators                                    *)
(* ===================================================================== *)

(** [enum ViewState]. *)
Inductive ViewState : Type :=
| VIEW_MAIN_MENU | VIEW_SD_MENU | VIEW_FILE_LIST | VIEW_ACTION | VIEW_CONFIRM.

(** The globals of the sketch. *)
Record Device : Type := mkDevice {
  currentView : ViewState;
  needsRedraw : bool;
  currentMenuItem : Z;
  currentSDMenuItem : Z;
  keys : KeyTable;
  numKeys : nat;
  btnUp : Button;
  btnDown : Button;
  btnSelect : Button;
  btnBack : Button
}.

Definition totalMenuItems : Z := 6.
Definition totalSDMenuItems : Z := 3.

(** The globals as the sketch initialises them. *)
Definition device0 : Device :=
  mkDevice VIEW_MAIN_MENU true 0 0 keys0 0
           (mkButton 1 0 HIGH HIGH false) (mkButton 14 0 HIGH HIGH false)
           (mkButton 13 0 HIGH HIGH false) (mkButton 7 0 HIGH HIGH false).

(** What one call of [updateButtons] reads: the four pins and the clock. *)
Record Sample : Type := mkSample {
  pinUp : bool;
  pinDown : bool;
  pinSelect : bool;
  pinBack : bool;
  millis : Z
}.

(** An entry of the storage root, as [openNextFile] yields it. *)
Record DirEntry : Type := mkDirEntry {
  entry_name : string;
  isDirectory : bool
}.

(** The radio layer (PN532 driver).  Every call may change the state of the
    reader and of the card in its field. *)
Class RadioLayer (R : Type) : Type := {
  getFirmwareVersion : R -> Z * R;
  (** the identifier of the card found within the timeout, if any *)
  readPassiveTargetID : R -> Z -> option (list Z) * R;
  (** uid, uidLen, block, key slot (0 = A, 1 = B), key *)
  mifareclassic_AuthenticateBlock : R -> list Z -> Z -> Z -> Z -> Key -> bool * R;
  mifareclassic_ReadDataBlock : R -> Z -> option (list Z) * R;
  mifareclassic_WriteDataBlock : R -> Z -> list Z -> bool * R
}.

(** The storage layer (SD library). *)
Class StorageLayer (S : Type) : Type := {
  SD_begin : S -> bool * S;
  SD_exists : S -> string -> bool;
  SD_remove : S -> string -> bool * S;
  (** [SD.open(path)] for reading: the contents, or nothing *)
  SD_open_read : S -> string -> option text;
  (** [SD.open(path, FILE_WRITE)] *)
  SD_open_write : S -> string -> bool * S;
  (** [file.write(buf, n)] on a file opened for writing *)
  File_write : S -> string -> list Z -> S;
  File_close : S -> string -> S;
  (** the entries of the root directory, or nothing when it cannot be opened *)
  SD_root : S -> option (list DirEntry)
}.

(** What the firmware asks of its collaborators, in the order it asks. *)
Inductive Event : Type :=
| EvDisplayInfo (line1 line2 line3 : string)
| EvConfirmPrompt (prompt : string)
| EvConfirmed (prompt : string) (accepted : bool)
| EvProgressBar (block : Z)
| EvDrawMenu (view : ViewState) (selected : Z)
| EvDrawFileList (title : string) (shown : list string) (selected : Z)
| EvSerial (message : text)
| EvDetect (timeout : Z) (uid : option (list Z))
| EvAuth (block slot : Z) (key : Key) (ok : bool)
| EvReadBlock (block : Z) (data : option (list Z))
| EvWriteBlock (block : Z) (data : list Z) (ok : bool)
| EvSdRemove (path : string) (ok : bool)
| EvSdOpenWrite (path : string) (ok : bool)
| EvFileWrite (path : string) (data : list Z)
| EvFileClose (path : string).

(** The device in its environment; [input] is what the pins and the clock
    will show at the coming polls. *)
Record World (R S : Type) : Type := mkWorld {
  dev : Device;
  radio : R;
  sd : S;
  input : list Sample;
  display_ok : bool          (* does the SSD1306 answer [display.begin]? *)
}.

Arguments mkWorld {R S}.
Arguments dev {R S}.
Arguments radio {R S}.
Arguments sd {R S}.
Arguments input {R S}.
Arguments display_ok {R S}.

Definition with_dev {R S : Type} (w : World R S) (d : Device) : World R S :=
  mkWorld d (radio w) (sd w) (input w) (display_ok w).
Definition with_radio {R S : Type} (w : World R S) (r : R) : World R S :=
  mkWorld (dev w) r (sd w) (input w) (display_ok w).
Definition with_sd {R S : Type} (w : World R S) (s : S) : World R S :=
  mkWorld (dev w) (radio w) s (input w) (display_ok w).
Definition with_input {R S : Type} (w : World R S) (i : list Sample) : World R S :=
  mkWorld (dev w) (radio w) (sd w) i (display_ok w).

(** The outcome of running a piece of the firmware: its result, or nothing
    when it is still waiting for the buttons at the end of [input]; the
    world it left; and what it did. *)
Record Res (R S A : Type) : Type := mkRes {
  value : option A;
  world : World R S;
  events : list Event
}.

Arguments mkRes {R S A}.
Arguments value {R S A}.
Arguments world {R S A}.
Arguments events {R S A}.

(** Computations of the firmware. *)
Definition M (R S A : Type) : Type := World R S -> Res R S A.

Definition ret {R S A : Type} (a : A) : M R S A :=
  fun w => mkRes (Some a) w [].

(** An outcome reached after the events [e]. *)
Definition after {R S A : Type} (e : list Event) (r : Res R S A) : Res R S A :=
  mkRes (value r) (world r) (e ++ events r).

Definition bind {R S A B : Type} (m : M R S A) (f : A -> M R S B) : M R S B :=
  fun w =>
    let r := m w in
    match value r with
    | Some a => after (events r) (f a (world r))
    | None => mkRes None (world r) (events r)
    end.

Notation "x <- m ;; k" := (bind m (fun x => k))
  (at level 61, m at next level, right associativity).
Notation "m ;;; k" := (bind m (fun _ => k))
  (at level 61, right associativity).

(** Still waiting: the input has run out. *)
Definition waiting {R S A : Type} : M R S A :=
  fun w => mkRes None w [].

Definition emit {R S : Type} (e : Event) : M R S unit :=
  fun w => mkRes (Some tt) w [e].

Definition getDev {R S : Type} : M R S Device :=
  fun w => mkRes (Some (dev w)) w [].

Definition setDev {R S : Type} (f : Device -> Device) : M R S unit :=
  fun w => mkRes (Some tt) (with_dev w (f (dev w))) [].

(** Sequencing a conditional step. *)
Definition when {R S : Type} (c : bool) (m : M R S unit) : M R S unit :=
  if c then m else ret tt.


(* ===================================================================== *)
(** * The sketch, function by function                                    *)
(* ===================================================================== *)

(** ** Assignments to the globals *)

Definition set_view (v : ViewState) (d : Device) : Device :=
  mkDevice v (needsRedraw d) (currentMenuItem d) (currentSDMenuItem d)
           (keys d) (numKeys d) (btnUp d) (btnDown d) (btnSelect d) (btnBack d).

Definition set_needsRedraw (b : bool) (d : Device) : Device :=
  mkDevice (currentView d) b (currentMenuItem d) (currentSDMenuItem d)
           (keys d) (numKeys d) (btnUp d) (btnDown d) (btnSelect d) (btnBack d).

Definition set_currentMenuItem (i : Z) (d : Device) : Device :=
  mkDevice (currentView d) (needsRedraw d) i (currentSDMenuItem d)
           (keys d) (numKeys d) (btnUp d) (btnDown d) (btnSelect d) (btnBack d).

Definition set_currentSDMenuItem (i : Z) (d : Device) : Device :=
  mkDevice (currentView d) (needsRedraw d) (currentMenuItem d) i
           (keys d) (numKeys d) (btnUp d) (btnDown d) (btnSelect d) (btnBack d).

Definition set_keys (k : KeyTable) (n : nat) (d : Device) : Device :=
  mkDevice (currentView d) (needsRedraw d) (currentMenuItem d)
           (currentSDMenuItem d) k n
           (btnUp d) (btnDown d) (btnSelect d) (btnBack d).

Definition set_buttons (u dn s b : Button) (d : Device) : Device :=
  mkDevice (currentView d) (needsRedraw d) (currentMenuItem d)
           (currentSDMenuItem d) (keys d) (numKeys d) u dn s b.

(** ** [String] helpers *)

Definition hex_char (d : Z) : ascii :=
  ascii_of_nat (Z.to_nat (if d <? 10 then 48 + d else 87 + d)).

(** [String(b, HEX)] for a [uint8_t]: lower case, no leading zero. *)
Definition String_HEX (b : Z) : string :=
  if b <? 16 then String (hex_char b) EmptyString
  else String (hex_char (b / 16)) (String (hex_char (b mod 16)) EmptyString).

(** [String(n)] for an integer: decimal. *)
Definition String_DEC (n : Z) : string := NilZero.string_of_int (Z.to_int n).

Definition upper_char (c : ascii) : ascii :=
  let n := nat_of_ascii c in
  if Nat.leb 97 n && Nat.leb n 122 then ascii_of_nat (n - 32) else c.

Fixpoint toUpperCase (s : string) : string :=
  match s with
  | EmptyString => EmptyString
  | String c r => String (upper_char c) (toUpperCase r)
  end.

(** [s.startsWith("/")]. *)
Definition startsWithSlash (s : string) : bool :=
  match s with
  | String c _ => Ascii.eqb c "/"
  | EmptyString => false
  end.

(** Sixteen zero bytes: [uint8_t emptyData[16] = {0}]. *)
Definition zeros16 : list Z := List.repeat 0 16.

(** A 16-byte buffer ([uint8_t data[16]]) holding what the driver copied
    into it: sixteen bytes, whatever the driver had. *)
Definition block16 (data : list Z) : list Z := List.firstn 16 (data ++ zeros16).

(** The bytes of a text. *)
Definition bytes_of_text (t : text) : list Z :=
  List.map (fun c => Z.of_nat (nat_of_ascii c)) t.

(** [(i - 1 + n) % n] and [(i + 1) % n]; the C remainder. *)
Definition menu_up (i n : Z) : Z := Z.rem (i - 1 + n) n.
Definition menu_down (i n : Z) : Z := Z.rem (i + 1) n.

Definition anyPressed (d : Device) : bool :=
  pressed (btnUp d) || pressed (btnDown d) || pressed (btnSelect d)
  || pressed (btnBack d).

(** The counted [for] loops run over the values of their index. *)
Definition range (n : nat) : list Z := List.map Z.of_nat (List.seq 0 n).

(** ** The menus as drawn

    What [EvDrawMenu] stands for: the lines [drawCurrentView] has
    [displayMenu] or [displaySDMenuOptions] print for a selection. *)

(** [const char* menuItems[]] and [sdMenuItems[]]. *)
Definition menuItems : list string :=
  ["Read Card"; "Dump Card"; "Read NDEF"; "Read/Write Block"; "Erase Block";
   "SD Card Menu"]%string.

Definition sdMenuItems : list string :=
  ["View Files"; "Write File to Card"; "Delete File"]%string.

(** The lines [displayMenu] prints under the title: up to four items from
    [startItem] on, the selected one marked. *)
Definition displayMenu (currentMenuItem : Z) : list string :=
  let startItem := if 4 <=? currentMenuItem then currentMenuItem - 3 else 0 in
  List.flat_map
    (fun i => let itemIndex := startItem + i in
              if itemIndex <? totalMenuItems
              then [((if (itemIndex =? currentMenuItem)%Z then "> " else "  ")
                     ++ List.nth (Z.to_nat itemIndex) menuItems "")%string]
              else [])
    (range 4).

(** The lines [displaySDMenuOptions] prints under the title. *)
Definition displaySDMenuOptions (currentSDMenuItem : Z) : list string :=
  List.map
    (fun i => ((if (i =? currentSDMenuItem)%Z then "> " else "  ")
               ++ List.nth (Z.to_nat i) sdMenuItems "")%string)
    (range (Z.to_nat totalSDMenuItems)).

(** Is the line marked as the selection? *)
Definition marked (line : string) : bool := String.prefix "> " line.

Section Firmware.

Context {R Sd : Type} {radio_layer : RadioLayer R} {storage_layer : StorageLayer Sd}.

(** ** Calls to the collaborators *)

Definition nfc_getFirmwareVersion : M R Sd Z :=
  fun w => let (v, r) := getFirmwareVersion (radio w) in
           mkRes (Some v) (with_radio w r) [].

Definition nfc_readPassiveTargetID (timeout : Z) : M R Sd (option (list Z)) :=
  fun w => let (uid, r) := readPassiveTargetID (radio w) timeout in
           mkRes (Some uid) (with_radio w r) [EvDetect timeout uid].

Definition nfc_AuthenticateBlock (uid : list Z) (uidLen block slot : Z) (key : Key)
  : M R Sd bool :=
  fun w => let (ok, r) :=
             mifareclassic_AuthenticateBlock (radio w) uid uidLen block slot key in
           mkRes (Some ok) (with_radio w r) [EvAuth block slot key ok].

(** [uint8_t data[16]; nfc.mifareclassic_ReadDataBlock(block, data)]: on
    success the buffer holds the block. *)
Definition nfc_ReadDataBlock (block : Z) : M R Sd (option (list Z)) :=
  fun w => let (data, r) := mifareclassic_ReadDataBlock (radio w) block in
           let buffer := option_map block16 data in
           mkRes (Some buffer) (with_radio w r) [EvReadBlock block buffer].

Definition nfc_WriteDataBlock (block : Z) (data : list Z) : M R Sd bool :=
  fun w => let (ok, r) := mifareclassic_WriteDataBlock (radio w) block data in
           mkRes (Some ok) (with_radio w r) [EvWriteBlock block data ok].

Definition sd_begin : M R Sd bool :=
  fun w => let (ok, s) := SD_begin (sd w) in mkRes (Some ok) (with_sd w s) [].

Definition sd_exists (path : string) : M R Sd bool :=
  fun w => mkRes (Some (SD_exists (sd w) path)) w [].

Definition sd_remove (path : string) : M R Sd bool :=
  fun w => let (ok, s) := SD_remove (sd w) path in
           mkRes (Some ok) (with_sd w s) [EvSdRemove path ok].

Definition sd_open_read (path : string) : M R Sd (option text) :=
  fun w => mkRes (Some (SD_open_read (sd w) path)) w [].

Definition sd_open_write (path : string) : M R Sd bool :=
  fun w => let (ok, s) := SD_open_write (sd w) path in
           mkRes (Some ok) (with_sd w s) [EvSdOpenWrite path ok].

Definition file_write (path : string) (data : list Z) : M R Sd unit :=
  fun w => mkRes (Some tt) (with_sd w (File_write (sd w) path data))
                 [EvFileWrite path data].

Definition file_close (path : string) : M R Sd unit :=
  fun w => mkRes (Some tt) (with_sd w (File_close (sd w) path))
                 [EvFileClose path].

Definition sd_root : M R Sd (option (list DirEntry)) :=
  fun w => mkRes (Some (SD_root (sd w))) w [].

(** ** Low-level button handling *)

(** [updateButtons]: one poll of the four buttons.  It takes the next
    sample of the pins and the clock; none left means the run ends here,
    with the firmware still polling. *)
Definition updateButtons : M R Sd unit :=
  fun w =>
    match input w with
    | [] => mkRes None w []
    | s :: rest =>
        let d := dev w in
        let d' :=
          set_buttons (debounce debounceDelay (pinUp s) (millis s) (btnUp d))
                      (debounce debounceDelay (pinDown s) (millis s) (btnDown d))
                      (debounce debounceDelay (pinSelect s) (millis s) (btnSelect d))
                      (debounce debounceDelay (pinBack s) (millis s) (btnBack d))
                      d in
        mkRes (Some tt) (with_input (with_dev w d') rest) []
    end.

(** [while (cond) updateButtons();] -- each turn takes a sample, so [fuel]
    larger than the number of samples left is never used up. *)
Fixpoint pollWhile (fuel : nat) (cond : Device -> bool) : M R Sd unit :=
  match fuel with
  | O => waiting
  | S fuel' =>
      d <- getDev ;;
      if cond d then updateButtons ;;; pollWhile fuel' cond else ret tt
  end.

Definition whilePolling (cond : Device -> bool) : M R Sd unit :=
  fun w => pollWhile (S (List.length (input w))) cond w.

(** ** UI helpers *)

Definition displayInfo (line1 line2 line3 : string) : M R Sd unit :=
  setDev (set_view VIEW_ACTION) ;;;
  emit (EvDisplayInfo line1 line2 line3).

Definition waitForButtonPress : M R Sd unit :=
  updateButtons ;;;
  whilePolling anyPressed ;;;
  whilePolling (fun d => negb (anyPressed d)).

(** The [while (true)] of [confirmAction]. *)
Fixpoint confirmLoop (fuel : nat) : M R Sd bool :=
  match fuel with
  | O => waiting
  | S fuel' =>
      updateButtons ;;;
      d <- getDev ;;
      if pressed (btnSelect d) then ret true
      else if pressed (btnUp d) || pressed (btnDown d) || pressed (btnBack d)
           then ret false
           else confirmLoop fuel'
  end.

Definition confirmAction (prompt : string) : M R Sd bool :=
  setDev (set_view VIEW_CONFIRM) ;;;
  emit (EvConfirmPrompt prompt) ;;;
  updateButtons ;;;
  whilePolling anyPressed ;;;
  accepted <- (fun w => confirmLoop (List.length (input w)) w) ;;
  emit (EvConfirmed prompt accepted) ;;;
  ret accepted.

(** ** The block authenticator *)

(** The [for (int i = 0; i < numKeys; i++)] of [authenticateBlock], with
    [n] turns still to go from index [i]. *)
Fixpoint authLoop (n i : nat) (uid : list Z) (uidLen block : Z) : M R Sd bool :=
  match n with
  | O => ret false
  | S n' =>
      d <- getDev ;;
      let key := List.nth i (keys d) [] in
      okA <- nfc_AuthenticateBlock uid uidLen block 0 key ;;
      if okA then ret true
      else
        okB <- nfc_AuthenticateBlock uid uidLen block 1 key ;;
        if okB then ret true
        else authLoop n' (S i) uid uidLen block
  end.

Definition authenticateBlock (uid : list Z) (uidLen block : Z) : M R Sd bool :=
  d <- getDev ;;
  authLoop (numKeys d) 0 uid uidLen block.

(** ** NFC functions *)

(** The text [readCard] builds from the identifier. *)
Definition uidString (uid : list Z) : string :=
  List.fold_left
    (fun (acc : string) (b : Z) => (toUpperCase (acc ++ String_HEX b) ++ " ")%string)
    uid "UID: "%string.

Definition readCard : M R Sd unit :=
  displayInfo "Reading Card..." "Place card on reader" "" ;;;
  found <- nfc_readPassiveTargetID 2000 ;;
  match found with
  | Some uid => displayInfo "Card Found!" (uidString uid) "Press any key..."
  | None => displayInfo "Read Failed" "No card found." "Press any key..."
  end ;;;
  waitForButtonPress.

(** The name of the dump file of a card. *)
Definition dumpFilename (uid : list Z) : string :=
  toUpperCase
    (List.fold_left (fun (acc : string) (b : Z) => (acc ++ String_HEX b)%string) uid "/dump-"%string
     ++ ".bin")%string.

(** The [for (int block = 0; block < 64; block++)] of [dumpCard]; the
    result is [anyBlockAuthenticated]. *)
Fixpoint dumpLoop (blocks : list Z) (uid : list Z) (uidLen : Z)
    (filename : string) (anyBlockAuthenticated : bool) : M R Sd bool :=
  match blocks with
  | [] => ret anyBlockAuthenticated
  | block :: rest =>
      emit (EvProgressBar block) ;;;
      authenticated <- authenticateBlock uid uidLen block ;;
      let any' := if authenticated then true else anyBlockAuthenticated in
      success <- nfc_ReadDataBlock block ;;
      match success with
      | Some data => file_write filename data
      | None => file_write filename zeros16
      end ;;;
      dumpLoop rest uid uidLen filename any'
  end.

(** [dumpCard] from [SD.open(filename, FILE_WRITE)] on. *)
Definition dumpToFile (uid : list Z) (filename : string) : M R Sd unit :=
  opened <- sd_open_write filename ;;
  if negb opened then
    displayInfo "SD Error" "Cannot create file." "" ;;;
    waitForButtonPress
  else
    displayInfo "Dumping Card..." filename "" ;;;
    anyBlockAuthenticated <-
      dumpLoop (range 64) uid (Z.of_nat (List.length uid)) filename false ;;
    file_close filename ;;;
    (if anyBlockAuthenticated
     then displayInfo "Dump Complete!" filename "Press any key..."
     else displayInfo "Auth Failed!" "Could not read card."
                      "Dump may be empty.") ;;;
    waitForButtonPress.

Definition dumpCard : M R Sd unit :=
  displayInfo "Dump Card" "Place card on reader" "" ;;;
  found <- nfc_readPassiveTargetID 2000 ;;
  match found with
  | None =>
      displayInfo "Dump Failed" "No card found." "" ;;;
      waitForButtonPress
  | Some uid =>
      let filename := dumpFilename uid in
      present <- sd_exists filename ;;
      if present then
        accepted <- confirmAction "Overwrite file?" ;;
        if negb accepted then
          displayInfo "Cancelled" "Dump cancelled." "" ;;;
          waitForButtonPress
        else
          sd_remove filename ;;;
          dumpToFile uid filename
      else dumpToFile uid filename
  end.

Definition readNDEF : M R Sd unit :=
  displayInfo "Read NDEF" "Place card on reader" "" ;;;
  found <- nfc_readPassiveTargetID 2000 ;;
  match found with
  | Some uid =>
      let uidLength := Z.of_nat (List.length uid) in
      if uidLength =? 4 then displayInfo "NDEF Tag Found" "Type: NTAG" ""
      else if uidLength =? 7
           then displayInfo "NDEF Tag Found" "Type: MIFARE Classic" ""
           else displayInfo "NDEF Tag Found" "Type: Unknown" ""
  | None => displayInfo "Read Failed" "No NDEF tag found." ""
  end ;;;
  waitForButtonPress.

(** [dataHex] of [readWriteCard]: two digits per byte. *)
Definition dataHex (data : list Z) : string :=
  List.fold_left
    (fun (acc : string) (b : Z) =>
       ((if (b <? 16)%Z then acc ++ "0" else acc) ++ String_HEX b)%string)
    data "Data: "%string.

Definition readWriteCard (isWrite : bool) : M R Sd unit :=
  displayInfo "Read/Write Block" "Place card..." "" ;;;
  let blockNumber := 4 in
  found <- nfc_readPassiveTargetID 5000 ;;
  match found with
  | Some uid =>
      ok <- authenticateBlock uid (Z.of_nat (List.length uid)) blockNumber ;;
      if ok then
        if isWrite then ret tt   (* Future write logic here *)
        else
          data <- nfc_ReadDataBlock blockNumber ;;
          match data with
          | Some bytes =>
              displayInfo "Read Success!" ("Block " ++ String_DEC blockNumber)
                          (dataHex bytes)
          | None => displayInfo "Read Failed!" "" ""
          end
      else displayInfo "Auth Failed!" "Cannot access block." ""
  | None => displayInfo "Operation Failed" "No card found." ""
  end ;;;
  waitForButtonPress.

Definition eraseCard : M R Sd unit :=
  displayInfo "Erase Block" "Place card..." "" ;;;
  accepted <- confirmAction "Erase Block 4?" ;;
  if negb accepted then
    displayInfo "Cancelled" "" "" ;;;
    waitForButtonPress
  else
    let blockNumber := 4 in
    let dataToErase := zeros16 in
    found <- nfc_readPassiveTargetID 5000 ;;
    match found with
    | Some uid =>
        ok <- authenticateBlock uid (Z.of_nat (List.length uid)) blockNumber ;;
        if ok then
          written <- nfc_WriteDataBlock blockNumber dataToErase ;;
          if written
          then displayInfo "Erase Success!"
                 ("Block " ++ String_DEC blockNumber ++ " zeroed.") ""
          else displayInfo "Erase Failed!" "" ""
        else displayInfo "Auth Failed!" "Cannot access block." ""
    | None => displayInfo "Erase Failed" "No card found." ""
    end ;;;
    waitForButtonPress.

(** ** SD card and file functions *)

(** [Serial.println] of each malformed line, oldest first. *)
Fixpoint reportMalformed (lines : list text) : M R Sd unit :=
  match lines with
  | [] => ret tt
  | line :: rest =>
      emit (EvSerial (txt "Malformed line in keys.txt: " ++ line)) ;;;
      reportMalformed rest
  end.

Definition loadKeysFromSD : M R Sd unit :=
  keyFile <- sd_open_read "/keys.txt" ;;
  match keyFile with
  | Some content =>
      d <- getDev ;;
      let '(keys', keyIndex, malformed) := parseKeyFile content (keys d) in
      reportMalformed malformed ;;;
      (* numKeys = keyIndex; *)
      setDev (set_keys keys' keyIndex) ;;;
      if Nat.eqb keyIndex 0 then
        displayInfo "Keyfile Error" "No valid keys found." "Using defaults." ;;;
        waitForButtonPress ;;;
        setDev (fun d => set_keys (memcpy_defaults (keys d)) 3 d)
      else ret tt
  | None =>
      setDev (fun d => set_keys (memcpy_defaults (keys d)) 3 d)
  end.

Definition deleteFile (filename : string) : M R Sd unit :=
  accepted <- confirmAction ("Delete " ++ String.substring 0 10 filename ++ "?") ;;
  (if accepted then
     removed <- sd_remove filename ;;
     if removed then displayInfo "Success" "File deleted." ""
     else displayInfo "Error" "Could not delete." ""
   else displayInfo "Cancelled" "Delete cancelled." "") ;;;
  waitForButtonPress.

Definition writeFileToCard (filename : string) : M R Sd unit :=
  displayInfo "Write to Card" "Place card..." "" ;;;
  dataFile <- sd_open_read filename ;;
  match dataFile with
  | None =>
      displayInfo "SD Error" "Cannot open file." "" ;;;
      waitForButtonPress
  | Some content =>
      if Nat.ltb (List.length content) 16 then
        displayInfo "File Error" "File is < 16 bytes." "" ;;;
        waitForButtonPress
      else
        let dataToWrite := bytes_of_text (List.firstn 16 content) in
        let blockNumber := 4 in
        found <- nfc_readPassiveTargetID 5000 ;;
        match found with
        | Some uid =>
            ok <- authenticateBlock uid (Z.of_nat (List.length uid)) blockNumber ;;
            if ok then
              displayInfo "Writing Data..." ("To block " ++ String_DEC blockNumber) "" ;;;
              written <- nfc_WriteDataBlock blockNumber dataToWrite ;;
              if written then displayInfo "Write Success!" "Data written." ""
              else displayInfo "Write Failed!" "" ""
            else displayInfo "Auth Failed!" "Cannot access block." ""
        | None => displayInfo "Write Failed" "No card found." ""
        end ;;;
        waitForButtonPress
  end.

(** The name of an entry as the list shows it. *)
Definition shownName (name : string) : string :=
  let name1 := if startsWithSlash name
               then String.substring 1 (String.length name - 1) name else name in
  if Nat.ltb 18 (String.length name1)
  then (String.substring 0 15 name1 ++ "...")%string else name1.

(** The four lines of the file list around the selection. *)
Definition shownWindow (fileList : list string) (currentFileIndex : Z) : list string :=
  let totalFiles := Z.of_nat (List.length fileList) in
  let startItem := if 4 <=? currentFileIndex then currentFileIndex - 3 else 0 in
  List.flat_map
    (fun j => let itemIndex := startItem + j in
              if itemIndex <? totalFiles
              then [shownName (List.nth (Z.to_nat itemIndex) fileList ""%string)]
              else [])
    (range 4).

Definition fileListTitle (operation : string) : string :=
  if String.eqb operation "delete" then "--- DELETE FILE ---"
  else if String.eqb operation "write" then "-- WRITE FROM FILE --"
  else "--- VIEW FILES ---".

(** The [while (in_file_view)] of [viewFiles]. *)
Fixpoint fileViewLoop (fuel : nat) (operation : string)
    (fileList : list string) (currentFileIndex : Z) : M R Sd unit :=
  let totalFiles := Z.of_nat (List.length fileList) in
  match fuel with
  | O => waiting
  | S fuel' =>
      updateButtons ;;;
      d <- getDev ;;
      if pressed (btnBack d) then ret tt   (* in_file_view = false; continue; *)
      else
        let draw (i : Z) : M R Sd unit :=
          emit (EvDrawFileList (fileListTitle operation)
                               (shownWindow fileList i) i) in
        if pressed (btnUp d) then
          let i := menu_up currentFileIndex totalFiles in
          draw i ;;; fileViewLoop fuel' operation fileList i
        else if pressed (btnDown d) then
          let i := menu_down currentFileIndex totalFiles in
          draw i ;;; fileViewLoop fuel' operation fileList i
        else if pressed (btnSelect d) then
          let selectedFile :=
            ("/" ++ List.nth (Z.to_nat currentFileIndex) fileList "")%string in
          (if String.eqb operation "delete" then deleteFile selectedFile
           else if String.eqb operation "write" then writeFileToCard selectedFile
           else ret tt) ;;;
          draw currentFileIndex      (* in_file_view = false: the loop ends *)
        else
          draw currentFileIndex ;;; fileViewLoop fuel' operation fileList currentFileIndex
  end.

Definition viewFiles (operation : string) : M R Sd unit :=
  root <- sd_root ;;
  match root with
  | None =>
      displayInfo "SD Error" "Cannot open root dir." "" ;;;
      waitForButtonPress
  | Some entries =>
      (* while (root.openNextFile()) totalFiles++; *)
      let totalFiles := List.length entries in
      if Nat.eqb totalFiles 0 then
        displayInfo "SD Card" "No files found." "" ;;;
        waitForButtonPress
      else
        (* fileList[i] = entry.name(); *)
        let fileList := List.map entry_name entries in
        setDev (set_view VIEW_FILE_LIST) ;;;
        (fun w => fileViewLoop (List.length (input w)) operation fileList 0 w)
  end.

(** ** UI and state management *)

Definition executeSDMenuAction (item : Z) : M R Sd unit :=
  (if item =? 0 then viewFiles "view"
   else if item =? 1 then viewFiles "write"
   else if item =? 2 then viewFiles "delete"
   else ret tt) ;;;
  setDev (set_view VIEW_SD_MENU) ;;;
  setDev (set_needsRedraw true).

Definition handleSDMenuInput : M R Sd unit :=
  d <- getDev ;;
  if pressed (btnBack d) then
    setDev (set_view VIEW_MAIN_MENU) ;;;
    setDev (set_needsRedraw true)
  else if pressed (btnUp d) then
    setDev (set_currentSDMenuItem (menu_up (currentSDMenuItem d) totalSDMenuItems)) ;;;
    setDev (set_needsRedraw true)
  else if pressed (btnDown d) then
    setDev (set_currentSDMenuItem (menu_down (currentSDMenuItem d) totalSDMenuItems)) ;;;
    setDev (set_needsRedraw true)
  else if pressed (btnSelect d) then
    executeSDMenuAction (currentSDMenuItem d)
  else ret tt.

Definition executeMenuItem (item : Z) : M R Sd unit :=
  (if item =? 0 then readCard
   else if item =? 1 then dumpCard
   else if item =? 2 then readNDEF
   else if item =? 3 then readWriteCard false
   else if item =? 4 then eraseCard
   else if item =? 5 then
     setDev (set_view VIEW_SD_MENU) ;;;
     setDev (set_currentSDMenuItem 0) ;;;
     setDev (set_needsRedraw true)
   else ret tt) ;;;
  when (item <? 5) (setDev (set_view VIEW_MAIN_MENU)).

Definition handleMenuInput : M R Sd unit :=
  d <- getDev ;;
  if pressed (btnUp d) then
    setDev (set_currentMenuItem (menu_up (currentMenuItem d) totalMenuItems)) ;;;
    setDev (set_needsRedraw true)
  else if pressed (btnDown d) then
    setDev (set_currentMenuItem (menu_down (currentMenuItem d) totalMenuItems)) ;;;
    setDev (set_needsRedraw true)
  else if pressed (btnSelect d) then
    executeMenuItem (currentMenuItem d) ;;;
    d' <- getDev ;;
    match currentView d' with
    | VIEW_MAIN_MENU => setDev (set_needsRedraw true)
    | _ => ret tt
    end
  else ret tt.

Definition handleInput : M R Sd unit :=
  d <- getDev ;;
  match currentView d with
  | VIEW_MAIN_MENU => handleMenuInput
  | VIEW_SD_MENU => handleSDMenuInput
  | _ => ret tt
  end.

Definition drawCurrentView : M R Sd unit :=
  d <- getDev ;;
  match currentView d with
  | VIEW_MAIN_MENU => emit (EvDrawMenu VIEW_MAIN_MENU (currentMenuItem d))
  | VIEW_SD_MENU => emit (EvDrawMenu VIEW_SD_MENU (currentSDMenuItem d))
  | _ => ret tt
  end.

(** ** Initialisation, [setup] and [loop] *)

Definition initDisplay : M R Sd unit :=
  fun w => if display_ok w then ret tt w
           else (* for (;;); *) mkRes None w [EvSerial (txt "SSD1306 allocation failed")].

Definition initNFC : M R Sd unit :=
  versiondata <- nfc_getFirmwareVersion ;;
  if versiondata =? 0 then
    displayInfo "Error" "PN532 not found!" "Check wiring." ;;;
    waitForButtonPress
  else displayInfo "NFC Ready" "PN532 Found" "".

Definition initSDCard : M R Sd unit :=
  ok <- sd_begin ;;
  if negb ok then
    displayInfo "SD Card Error" "Initialization failed!" "" ;;;
    waitForButtonPress
  else displayInfo "SD Card Ready" "Initialized OK" "".

Definition setup : M R Sd unit :=
  initDisplay ;;;
  initNFC ;;;
  initSDCard ;;;
  loadKeysFromSD.

(** One turn of [loop]. *)
Definition loop : M R Sd unit :=
  updateButtons ;;;
  handleInput ;;;
  d <- getDev ;;
  when (needsRedraw d) (drawCurrentView ;;; setDev (set_needsRedraw false)).

(** [n] turns of [loop]. *)
Fixpoint loops (n : nat) : M R Sd unit :=
  match n with
  | O => ret tt
  | S n' => loop ;;; loops n'
  end.

(** ** The authenticator as the specification words it *)

(** Try the attempts in order against the radio; stop at the first one that
    succeeds.  The result is the answer, the radio afterwards and the
    attempts made. *)
Fixpoint first_success (rd : R) (uid : list Z) (uidLen block : Z)
    (attempts : list (Z * Key)) : bool * R * list Event :=
  match attempts with
  | [] => (false, rd, [])
  | (slot, key) :: rest =>
      let (ok, rd') := mifareclassic_AuthenticateBlock rd uid uidLen block slot key in
      if ok then (true, rd', [EvAuth block slot key true])
      else
        let '(res, rd'', evs) := first_success rd' uid uidLen block rest in
        (res, rd'', EvAuth block slot key false :: evs)
  end.

(** [setup] up to the call of [loadKeysFromSD]. *)
Definition setup_until_load : M R Sd unit :=
  initDisplay ;;; initNFC ;;; initSDCard.

(** ** The file list, seen from outside *)

(** What [viewFiles] does with the selected file. *)
Definition file_action (operation selectedFile : string) : M R Sd unit :=
  if String.eqb operation "delete" then deleteFile selectedFile
  else if String.eqb operation "write" then writeFileToCard selectedFile
  else ret tt.

End Firmware.

(** ** Reading a trace *)

(** The order in which the dictionary is tried: per key, slot A (0) then
    slot B (1). *)
Definition trial_order (dict : list Key) : list (Z * Key) :=
  List.flat_map (fun key => [(0, key); (1, key)]) dict.

(** The event of an authentication attempt on [block] with a given answer. *)
Definition auth_event (block : Z) (ok : bool) (attempt : Z * Key) : Event :=
  EvAuth block (fst attempt) (snd attempt) ok.

(* ===================================================================== *)
(** * A bench: simulated collaborators for concrete runs                  *)
(* ===================================================================== *)

Fixpoint key_eqb (a b : Key) : bool :=
  match a, b with
  | [], [] => true
  | x :: a', y :: b' => (x =? y) && key_eqb a' b'
  | _, _ => false
  end.

(** A card in the field of a reader that never changes state. *)
Record SimRadio : Type := mkSimRadio {
  sim_version : Z;
  sim_uid : option (list Z);
  sim_auth : Z -> Z -> Key -> bool;        (* block, slot, key *)
  sim_read : Z -> option (list Z);
  sim_write_ok : bool
}.

#[export] Instance SimRadio_layer : RadioLayer SimRadio := {|
  getFirmwareVersion r := (sim_version r, r);
  readPassiveTargetID r _ := (sim_uid r, r);
  mifareclassic_AuthenticateBlock r _ _ block slot key := (sim_auth r block slot key, r);
  mifareclassic_ReadDataBlock r block := (sim_read r block, r);
  mifareclassic_WriteDataBlock r _ _ := (sim_write_ok r, r)
|}.

(** A simulated SD card: the entries of its root, in directory order, as
    name, directory flag and contents. *)
Definition SimSD : Type := list (string * bool * text).

Definition sim_path (e : string * bool * text) : string :=
  ("/" ++ fst (fst e))%string.

Definition sim_is (path : string) (e : string * bool * text) : bool :=
  String.eqb (sim_path e) path.

Definition text_of_bytes (data : list Z) : text :=
  List.map (fun b => ascii_of_nat (Z.to_nat b)) data.

Definition sim_name_of (path : string) : string :=
  if startsWithSlash path
  then String.substring 1 (String.length path - 1) path else path.

#[export] Instance SimSD_layer : StorageLayer SimSD := {|
  SD_begin s := (true, s);
  SD_exists s path := List.existsb (sim_is path) s;
  (* [SD.remove] deletes files; it refuses directories *)
  SD_remove s path :=
    (List.existsb (fun e => sim_is path e && negb (snd (fst e))) s,
     List.filter (fun e => negb (sim_is path e && negb (snd (fst e)))) s);
  SD_open_read s path :=
    match List.find (sim_is path) s with
    | Some (_, false, content) => Some content
    | _ => None
    end;
  SD_open_write s path :=
    (true, List.filter (fun e => negb (sim_is path e)) s
           ++ [(sim_name_of path, false, [])]);
  File_write s path data :=
    List.map (fun e => if sim_is path e
                       then (fst e, snd e ++ text_of_bytes data) else e) s;
  File_close s _ := s;
  SD_root s := Some (List.map (fun e => mkDirEntry (fst (fst e)) (snd (fst e))) s)
|}.

(** A sample with the given buttons held down (pins LOW) at a given time. *)
Definition sample (up down select back : bool) (t : Z) : Sample :=
  mkSample (negb up) (negb down) (negb select) (negb back) t.

(** Nothing touched at time [t]. *)
Definition idle (t : Z) : Sample := sample false false false false t.

(** A world of the bench. *)
Definition bench (d : Device) (r : SimRadio) (s : SimSD) (i : list Sample)
  : World SimRadio SimSD :=
  mkWorld d r s i true.

Definition KEY_FF : Key := [255; 255; 255; 255; 255; 255].
Definition KEY_A0 : Key := [160; 161; 162; 163; 164; 165].

(** The device once the default keys are loaded. *)
Definition device_defaults : Device := set_keys (memcpy_defaults keys0) 3 device0.


(** A card block 4 of which opens only with [KEY_A0] in slot B. *)
Definition radio_only_A0_slotB : SimRadio :=
  mkSimRadio 1 (Some [222; 173; 190; 239])
             (fun _ slot key => (slot =? 1) && key_eqb key KEY_A0)
             (fun _ => Some zeros16) true.

(** A device whose dictionary is [KEY_FF; KEY_A0]. *)
Definition device_two_keys : Device := set_keys (memcpy_defaults keys0) 2 device0.

(** The file writes of a trace, in order: the file and the bytes. *)
Definition file_writes (evs : list Event) : list (string * list Z) :=
  List.flat_map (fun e => match e with EvFileWrite p d => [(p, d)] | _ => [] end) evs.

(** An authentication attempt. *)
Definition is_auth (e : Event) : bool :=
  match e with EvAuth _ _ _ _ => true | _ => false end.

(** The two reports that end a dump. *)
Definition dump_report (filename : string) (anyBlockAuthenticated : bool) : Event :=
  if anyBlockAuthenticated
  then EvDisplayInfo "Dump Complete!" filename "Press any key..."
  else EvDisplayInfo "Auth Failed!" "Could not read card." "Dump may be empty.".

(** Something shown by [displayInfo]. *)
Definition is_shown (e : Event) : bool :=
  match e with EvDisplayInfo _ _ _ => true | _ => false end.

(** Block reads of a trace, in order, with what each returned. *)
Definition block_reads (evs : list Event) : list (Z * option (list Z)) :=
  List.flat_map (fun e => match e with EvReadBlock b d => [(b, d)] | _ => [] end) evs.

(** An authentication attempt that succeeded. *)
Definition auth_ok (e : Event) : bool :=
  match e with EvAuth _ _ _ ok => ok | _ => false end.

(** Did some attempt on [block] succeed in this trace? *)
Definition authenticated (evs : list Event) (block : Z) : bool :=
  List.existsb (fun e => match e with
                         | EvAuth b _ _ ok => (b =? block) && ok
                         | _ => false
                         end) evs.

(** What [dumpCard] appends for a block, given what the read returned. *)
Definition record_of (read : option (list Z)) : list Z :=
  match read with Some data => data | None => zeros16 end.

(** The dictionary of a device. *)
Definition dict_of (d : Device) : KeyTable * nat := (keys d, numKeys d).

(** Events that show something or report on the serial port: no card, file
    or gate is touched. *)
Definition ui_event (e : Event) : bool :=
  match e with
  | EvDisplayInfo _ _ _ | EvProgressBar _ | EvDrawMenu _ _
  | EvDrawFileList _ _ _ | EvSerial _ => true
  | _ => false
  end.


(** A card that opens with the all-0xFF key in slot A and can be read. *)
Definition radio_plain : SimRadio :=
  mkSimRadio 1 (Some [222; 173; 190; 239])
             (fun _ slot key => (slot =? 0) && key_eqb key KEY_FF)
             (fun _ => Some (List.repeat 171 16)) true.

(** One physical press of Select: seen going down at 10 ms, accepted at
    70 ms, released afterwards. *)
Definition press_select : list Sample :=
  [sample false false true false 10; sample false false true false 70;
   idle 80; idle 140].

Definition press_back : list Sample :=
  [sample false false false true 10; sample false false false true 70;
   idle 80; idle 140].

Definition press_up : list Sample :=
  [sample true false false false 10; sample true false false false 70;
   idle 80; idle 140].

Definition press_down : list Sample :=
  [sample false true false false 10; sample false true false false 70;
   idle 80; idle 140].

(** The same presses, [dt] milliseconds later. *)
Definition later (dt : Z) (samples : list Sample) : list Sample :=
  List.map (fun s => mkSample (pinUp s) (pinDown s) (pinSelect s) (pinBack s)
                              (millis s + dt)) samples.

(** ** Polls, seen from outside *)

(** The device after one poll that read the sample [s]. *)
Definition poll_device (s : Sample) (d : Device) : Device :=
  set_buttons (debounce debounceDelay (pinUp s) (millis s) (btnUp d))
              (debounce debounceDelay (pinDown s) (millis s) (btnDown d))
              (debounce debounceDelay (pinSelect s) (millis s) (btnSelect d))
              (debounce debounceDelay (pinBack s) (millis s) (btnBack d))
              d.

(** The world after the next poll (unchanged when no sample is left). *)
Definition polled {R S : Type} (w : World R S) : World R S :=
  match input w with
  | [] => w
  | s :: rest => with_input (with_dev w (poll_device s (dev w))) rest
  end.

(** The world after [k] polls. *)
Fixpoint polls {R S : Type} (k : nat) (w : World R S) : World R S :=
  match k with
  | O => w
  | S k' => polls k' (polled w)
  end.

(** The device with its four [pressed] flags overwritten. *)
Definition set_pressed (u dn s b : bool) (d : Device) : Device :=
  let flag (f : bool) (x : Button) :=
    mkButton (PIN x) (lastDebounceTime x) (lastButtonState x) (currentState x) f in
  set_buttons (flag u (btnUp d)) (flag dn (btnDown d))
              (flag s (btnSelect d)) (flag b (btnBack d)) d.

(** Events that touch the card or the files. *)
Definition touches_card_or_files (e : Event) : bool :=
  match e with
  | EvWriteBlock _ _ _ | EvSdRemove _ _ | EvSdOpenWrite _ _
  | EvFileWrite _ _ | EvFileClose _ => true
  | _ => false
  end.


(** The device while Select, just pressed to choose an action, is still
    down: its raw level has been seen LOW and its press flag is set. *)
Definition device_select_down : Device :=
  set_buttons (btnUp device_defaults) (btnDown device_defaults)
              (mkButton 13 0 LOW HIGH true) (btnBack device_defaults)
              device_defaults.

(** Select still down at 60 and 65 ms, released, then Back pressed at 200 ms
    and accepted at 260 ms; later, a press of Select. *)
Definition input_select_held_then_back : list Sample :=
  [sample false false true false 60; sample false false true false 65;
   idle 80; sample false false false true 200; sample false false false true 260;
   idle 300] ++ later 400 press_select.

(** Nothing, then Up pressed; later, a press of Select. *)
Definition input_up : list Sample :=
  idle 0 :: press_up ++ later 400 press_select.

(** What the block loop of a dump to [filename] leaves in the trace: the 64
    blocks are read in ascending order, each read is followed by one write
    of sixteen bytes to the file -- what the read returned, or the zero
    placeholder when it failed -- and nothing is shown meanwhile. *)
Definition dump_body (filename : string) (body : list Event) : Prop :=
  List.map fst (block_reads body) = range 64 /\
  file_writes body =
    List.map (fun br => (filename, record_of (snd br))) (block_reads body) /\
  List.Forall (fun fw => List.length (snd fw) = 16%nat) (file_writes body) /\
  List.forallb (fun e => negb (is_shown e)) body = true.

(** All the bytes written to files in a trace. *)
Definition bytes_written (evs : list Event) : list Z :=
  List.concat (List.map snd (file_writes evs)).




(** A card that refuses every key and every read. *)
Definition radio_locked : SimRadio :=
  mkSimRadio 1 (Some [4; 10; 255; 1]) (fun _ _ _ => false) (fun _ => None) true.

(** An SD card with a 20-byte file, a directory and a dump. *)
Definition sd_three : SimSD :=
  [("data.bin"%string, false, txt "0123456789ABCDEFGHIJ");
   ("DCIM"%string, true, []);
   ("DUMP-4AFF1.BIN"%string, false, txt "old")].

(** Is the confirmation gate at work in this event? *)
Definition is_gate (e : Event) : bool :=
  match e with
  | EvConfirmPrompt _ | EvConfirmed _ _ => true
  | _ => false
  end.

(** Is a block of the card written in this event? *)
Definition is_block_write (e : Event) : bool :=
  match e with EvWriteBlock _ _ _ => true | _ => false end.

(** The presses, 200 ms apart. *)
Fixpoint press_sequence (t : Z) (presses : list (list Sample)) : list Sample :=
  match presses with
  | [] => []
  | p :: rest => later t p ++ press_sequence (t + 200) rest
  end.

(** The selection after a poll that left the device in state [d]. *)
Definition nav_step (total : Z) (d : Device) (idx : Z) : Z :=
  if pressed (btnUp d) then menu_up idx total
  else if pressed (btnDown d) then menu_down idx total
  else idx.

(** A poll after which the list stays open and nothing is selected: Back is
    not pressed, and Select is not acted upon. *)
Definition nav_stays (d : Device) : bool :=
  negb (pressed (btnBack d))
  && (pressed (btnUp d) || pressed (btnDown d) || negb (pressed (btnSelect d))).

(** A poll that selects: Select alone. *)
Definition nav_selects (d : Device) : bool :=
  negb (pressed (btnBack d)) && negb (pressed (btnUp d))
  && negb (pressed (btnDown d)) && pressed (btnSelect d).

(** The selection after [m] polls. *)
Fixpoint nav_index {R S : Type} (m : nat) (total : Z) (w : World R S) (idx : Z) : Z :=
  match m with
  | O => idx
  | S m' => nav_index m' total (polled w) (nav_step total (dev (polled w)) idx)
  end.

(** The list as drawn after each of [m] polls. *)
Fixpoint nav_draws {R S : Type} (m : nat) (title : string) (names : list string)
    (w : World R S) (idx : Z) : list Event :=
  match m with
  | O => []
  | S m' =>
      let i := nav_step (Z.of_nat (List.length names)) (dev (polled w)) idx in
      EvDrawFileList title (shownWindow names i) i
      :: nav_draws m' title names (polled w) i
  end.

(** No entry: what indexing past the list yields. *)
Definition no_entry : DirEntry := mkDirEntry "" false.


(** Down, Select to choose the second entry; then, at the prompt, Select
    again to accept; then a last press. *)
Definition input_choose_second : list Sample :=
  press_sequence 0 [press_down; press_select; press_select; press_select].

(** ** What a step leaves alone *)

(** [keeps P m]: whatever [m] does, and whether it returns or not, the
    world it leaves is related by [P] to the one it found. *)
Definition keeps {R S A : Type} (P : World R S -> World R S -> Prop)
    (m : M R S A) : Prop :=
  forall w, P w (world (m w)).

(** The dictionary is untouched. *)
Definition same_dict {R S : Type} (w w' : World R S) : Prop :=
  dict_of (dev w') = dict_of (dev w).

(** Only the UI state of the device and the input moved. *)
Definition ui_only {R S : Type} (w w' : World R S) : Prop :=
  radio w' = radio w /\ sd w' = sd w /\ display_ok w' = display_ok w /\
  dict_of (dev w') = dict_of (dev w).

(** ** Inputs and states the further properties speak of *)

(** A pin that bounces: read at [lvl] at the first poll and at the other
    level at every next one. *)
Fixpoint chatter (lvl : bool) (ts : list Z) : list (bool * Z) :=
  match ts with
  | [] => []
  | t :: rest => (lvl, t) :: chatter (negb lvl) rest
  end.

(** The number a run of base-16 digits spells. *)
Definition hex_value (s : text) : Z :=
  List.fold_left
    (fun acc c => match hex_digit c with Some d => acc * 16 + d | None => acc end)
    s 0.

(** A byte. *)
Definition is_byte (b : Z) : Prop := 0 <= b <= 255.

(** A well-formed key: six bytes. *)
Definition is_key (key : Key) : Prop :=
  List.length key = 6%nat /\ List.Forall is_byte key.

(** ** What a step says and what it leaves alone, further *)

(** [emits Q m]: whatever [m] does, and whether it returns or not, every
    event it leaves satisfies [Q]. *)
Definition emits {R S A : Type} (Q : Event -> Prop) (m : M R S A) : Prop :=
  forall w, List.Forall Q (events (m w)).

(** The settings of the device: its globals other than the view and the
    buttons. *)
Definition settings_of (d : Device) : bool * Z * Z * KeyTable * nat :=
  (needsRedraw d, currentMenuItem d, currentSDMenuItem d, keys d, numKeys d).

(** The settings are untouched. *)
Definition settings_kept {R S : Type} (w w' : World R S) : Prop :=
  settings_of (dev w') = settings_of (dev w).

(** The SD card is untouched. *)
Definition storage_kept {R S : Type} (w w' : World R S) : Prop :=
  sd w' = sd w.

(** Something shown, or a card looked for. *)
Definition shows_or_detects (e : Event) : Prop :=
  match e with
  | EvDisplayInfo _ _ _ | EvDetect _ _ => True
  | _ => False
  end.

(** Something shown or drawn, or a line on the serial port. *)
Definition shows (e : Event) : Prop := ui_event e = true.

(** In [evs], nothing that [guarded] picks happens before the confirmation
    gate has answered yes to the prompt [p]. *)
Definition gated_by (p : string) (guarded : Event -> bool) (evs : list Event) : Prop :=
  forall pre e post,
    evs = pre ++ e :: post -> guarded e = true ->
    List.In (EvConfirmed p true) pre.

(** An event that touches no file and, when it touches the card, touches
    block [n] only, and writes [data] when it writes. *)
Definition confined_to_block (n : Z) (data : list Z) (e : Event) : Prop :=
  match e with
  | EvAuth b _ _ _ | EvReadBlock b _ => b = n
  | EvWriteBlock b d _ => b = n /\ d = data
  | EvSdRemove _ _ | EvSdOpenWrite _ _ | EvFileWrite _ _ | EvFileClose _ => False
  | _ => True
  end.

(** The file an event changes, if it changes one. *)
Definition file_of (e : Event) : option string :=
  match e with
  | EvSdRemove p _ | EvSdOpenWrite p _ | EvFileWrite p _ | EvFileClose p => Some p
  | _ => None
  end.

(** The block writes of a trace, in order. *)
Definition block_writes (evs : list Event) : list (Z * list Z * bool) :=
  List.flat_map
    (fun e => match e with EvWriteBlock b d ok => [(b, d, ok)] | _ => [] end) evs.

(** A block of the card read or written. *)
Definition is_block_access (e : Event) : bool :=
  match e with
  | EvReadBlock _ _ | EvWriteBlock _ _ _ => true
  | _ => false
  end.

(** In [evs], no block is read or written before an authentication of
    [block] has succeeded. *)
Definition unlocked_first (block : Z) (evs : list Event) : Prop :=
  forall pre e post,
    evs = pre ++ e :: post -> is_block_access e = true ->
    authenticated pre block = true.

(** An event that reaches the card or the SD card: anything but what is
    shown, drawn or printed and the gate itself. *)
Definition acts (e : Event) : bool := negb (ui_event e || is_gate e).

(** A drawing of the file list over [names] whose selection is an index
    of the list and is among the lines drawn. *)
Definition draws_selection (names : list string) (e : Event) : Prop :=
  match e with
  | EvDrawFileList _ shown i =>
      0 <= i < Z.of_nat (List.length names) /\
      List.In (shownName (List.nth (Z.to_nat i) names ""%string)) shown
  | _ => True
  end.

(** The device shows one of its two menus, and both selections are items
    of their menus. *)
Definition menu_ok (d : Device) : Prop :=
  (currentView d = VIEW_MAIN_MENU \/ currentView d = VIEW_SD_MENU) /\
  0 <= currentMenuItem d < totalMenuItems /\
  0 <= currentSDMenuItem d < totalSDMenuItems.

(** Down, then Back. *)
Definition input_down_then_back : list Sample :=
  press_sequence 0 [press_down; press_back].

(** Up, Select, Back: into the SD menu and out of it again. *)
Definition input_sd_menu_and_back : list Sample :=
  press_sequence 0 [press_up; press_select; press_back].

(** Nothing, then a press of Select. *)
Definition input_idle_then_select : list Sample := idle 0 :: press_select.

(** In [evs], nothing that [guarded] picks happens before the event
    [gate]. *)
Definition follows (gate : Event) (guarded : Event -> bool) (evs : list Event) : Prop :=
  forall pre e post,
    evs = pre ++ e :: post -> guarded e = true -> List.In gate pre.

(** The work of a dump: an authentication attempt, a block read, a write
    to the file or its closing. *)
Definition dump_work (e : Event) : bool :=
  match e with
  | EvAuth _ _ _ _ | EvReadBlock _ _ | EvFileWrite _ _ | EvFileClose _ => true
  | _ => false
  end.

(** The world once [displayInfo] has shown something: the view is the
    action view. *)
Definition shown {R S : Type} (w : World R S) : World R S :=
  with_dev w (set_view VIEW_ACTION (dev w)).

(** What [readCard] shows of what it found. *)
Definition card_report (found : option (list Z)) : Event :=
  match found with
  | Some uid => EvDisplayInfo "Card Found!" (uidString uid) "Press any key..."
  | None => EvDisplayInfo "Read Failed" "No card found." "Press any key..."
  end.

(* ===================================================================== *)
(** * Properties                                                          *)
(* ===================================================================== *)

Section DebounceFacts.

Variable W : Z.

Lemma elapsed_self t : elapsed (uint32 t) t = 0.
Proof.
  unfold elapsed, uint32.
  rewrite Zminus_mod_idemp_r, Z.sub_diag. reflexivity.
Qed.

Lemma elapsed_nonneg s t : 0 <= elapsed s t.
Proof. unfold elapsed, uint32. apply Z.mod_pos_bound. lia. Qed.

(** The flag is cleared at the start of every poll: the flag left by the
    previous poll has no influence. *)
Lemma debounce_clears_flag reading now p t l c f :
  debounce W reading now (mkButton p t l c f) =
  debounce W reading now (mkButton p t l c false).
Proof. reflexivity. Qed.

(** An edge is emitted only when the debounced state becomes LOW. *)
Lemma debounce_pressed_inv reading now b :
  pressed (debounce W reading now b) = true ->
  reading = LOW /\ currentState b = HIGH /\
  currentState (debounce W reading now b) = LOW /\
  W < elapsed (lastDebounceTime (debounce W reading now b)) now.
Proof.
  unfold debounce; simpl.
  match goal with |- context [?a <? ?b] => destruct (Z.ltb_spec a b) end; simpl;
    destruct reading, (currentState b); simpl; intros; try discriminate; auto.
Qed.

Lemma debounce_settled lvl t b :
  lastButtonState b = lvl -> currentState b = lvl ->
  debounce W lvl t b = mkButton (PIN b) (lastDebounceTime b) lvl lvl false.
Proof.
  intros Hl Hc. unfold debounce. rewrite Hl, Hc, Bool.eqb_reflx. simpl.
  rewrite Bool.andb_false_r. reflexivity.
Qed.

(** Once accepted the level is the debounced state and later polls at
    that level emit nothing. *)
Lemma settled_no_edges lvl ts : forall b,
  lastButtonState b = lvl -> currentState b = lvl ->
  fst (poll_run W b (List.map (fun t => (lvl, t)) ts)) = List.map (fun _ => false) ts.
Proof.
  induction ts as [|t ts IH]; intros b Hl Hc; [reflexivity|].
  cbn [poll_run map]. rewrite (debounce_settled lvl t b Hl Hc).
  specialize (IH (mkButton (PIN b) (lastDebounceTime b) lvl lvl false)
                 eq_refl eq_refl).
  destruct (poll_run W _ (map (fun t0 => (lvl, t0)) ts)) eqn:E.
  simpl in *. f_equal. exact IH.
Qed.

Lemma elapsed_uint32 t0 t : elapsed (uint32 t0) t = elapsed t0 t.
Proof. unfold elapsed, uint32. apply Zminus_mod_idemp_r. Qed.

Lemma count_true_all_false {A} (l : list A) :
  count_true (List.map (fun _ => false) l) = 0%nat.
Proof. induction l; simpl; auto. Qed.

(** While the new level is still a candidate, the first poll later than
    [W] after the transition accepts it; it is the only one to emit. *)
Lemma pending_edges lvl t0 ts : forall b,
  lastButtonState b = lvl -> currentState b = negb lvl ->
  lastDebounceTime b = uint32 t0 ->
  count_true (fst (poll_run W b (List.map (fun t => (lvl, t)) ts))) =
  if negb lvl && List.existsb (fun t => W <? elapsed t0 t) ts
  then 1%nat else 0%nat.
Proof.
  induction ts as [|t ts IH]; intros b Hl Hc Ht.
  - simpl. rewrite Bool.andb_false_r. reflexivity.
  - cbn [poll_run map existsb].
    destruct (W <? elapsed t0 t) eqn:E.
    + (* accepted at this poll *)
      assert (D : debounce W lvl t b =
                  mkButton (PIN b) (uint32 t0) lvl lvl (negb lvl)).
      { unfold debounce. rewrite Hl, Hc, Ht, Bool.eqb_reflx. simpl.
        rewrite elapsed_uint32, E. destruct lvl; reflexivity. }
      rewrite D.
      pose proof (settled_no_edges lvl ts
                    (mkButton (PIN b) (uint32 t0) lvl lvl (negb lvl))
                    eq_refl eq_refl) as Hs.
      destruct (poll_run W _ (map (fun t1 => (lvl, t1)) ts)) eqn:E2.
      simpl in Hs. subst l. cbn [fst pressed].
      unfold count_true in *. simpl.
      pose proof (count_true_all_false ts) as Hz. unfold count_true in Hz.
      destruct lvl; simpl; rewrite Hz; reflexivity.
    + (* still inside the window *)
      assert (D : debounce W lvl t b =
                  mkButton (PIN b) (uint32 t0) lvl (negb lvl) false).
      { unfold debounce. rewrite Hl, Hc, Ht, Bool.eqb_reflx. simpl.
        rewrite elapsed_uint32, E. reflexivity. }
      rewrite D.
      specialize (IH (mkButton (PIN b) (uint32 t0) lvl (negb lvl) false)
                     eq_refl eq_refl eq_refl).
      destruct (poll_run W _ (map (fun t1 => (lvl, t1)) ts)) eqn:E2.
      cbn [fst pressed] in *. unfold count_true in *. simpl. exact IH.
Qed.

(** The poll that sees the transition itself never emits. *)
Lemma transition_poll lvl t0 b :
  0 <= W -> lastButtonState b = negb lvl -> currentState b = negb lvl ->
  debounce W lvl t0 b = mkButton (PIN b) (uint32 t0) lvl (negb lvl) false.
Proof.
  intros HW Hl Hc. unfold debounce. rewrite Hl, Hc.
  replace (Bool.eqb lvl (negb lvl)) with false by (destruct lvl; reflexivity).
  simpl. rewrite elapsed_self.
  destruct (Z.ltb_spec W 0); [lia | reflexivity].
Qed.

Lemma existsb_stable t0 ts :
  0 <= W ->
  List.existsb (fun t => W <? elapsed t0 t) ts = (W <? stable_for t0 ts).
Proof.
  intros HW. unfold stable_for. induction ts as [|t ts IH]; simpl.
  - symmetry. apply Z.ltb_ge. exact HW.
  - rewrite IH.
    destruct (Z.ltb_spec W (elapsed t0 t)), (Z.ltb_spec W (fold_right Z.max 0 (map (elapsed t0) ts))),
      (Z.ltb_spec W (Z.max (elapsed t0 t) (fold_right Z.max 0 (map (elapsed t0) ts))));
      simpl; try reflexivity; lia.
Qed.

Lemma edges_held lvl t0 ts b :
  0 <= W -> at_rest lvl b ->
  edges W b (held lvl t0 ts) =
  if negb lvl && (W <? stable_for t0 ts) then 1%nat else 0%nat.
Proof.
  intros HW [Hl Hc]. unfold edges, held. cbn [poll_run].
  rewrite (transition_poll lvl t0 b HW Hl Hc).
  pose proof (pending_edges lvl t0 ts
                (mkButton (PIN b) (uint32 t0) lvl (negb lvl) false)
                eq_refl eq_refl eq_refl) as HP.
  destruct (poll_run W _ (map (fun t => (lvl, t)) ts)) eqn:E.
  cbn [fst pressed count_true filter] in *.
  change (count_true (false :: l) = if negb lvl && (W <? stable_for t0 ts) then 1%nat else 0%nat).
  unfold count_true in *. cbn [filter].
  rewrite HP, existsb_stable by exact HW. reflexivity.
Qed.

(** A press edge lasts one poll: the poll after an edge never shows one. *)
Lemma one_shot r1 t1 r2 t2 b :
  pressed (debounce W r1 t1 b) = true ->
  pressed (debounce W r2 t2 (debounce W r1 t1 b)) = false.
Proof.
  intros H. apply debounce_pressed_inv in H.
  destruct H as (_ & _ & Hc & _).
  unfold debounce at 1. cbn [pressed]. rewrite Hc.
  destruct r2; simpl; rewrite ?Bool.andb_false_r; reflexivity.
Qed.

End DebounceFacts.

(** C8, counterexample: with the firmware's window of 50 ms, a pin seen
    going LOW at 100 ms and still LOW at 150 ms has been stable for the
    whole window, yet no edge has been emitted: the test is [> 50]. *)
Lemma debounce_boundary_counterexample :
  stable_for 100 [150] = debounceDelay /\
  edges debounceDelay btnSelect0 (held LOW 100 [150]) = 0%nat /\
  ~ debounce_as_specified debounceDelay.
Proof.
  split; [reflexivity | split; [reflexivity |]].
  intros H. destruct (H btnSelect0 100 [150]) as [_ H1].
  - split; reflexivity.
  - assert (E : edges debounceDelay btnSelect0 (held LOW 100 [150]) = 1%nat)
      by (apply H1; vm_compute; discriminate).
    vm_compute in E. discriminate.
Qed.

(** C8 (amended): for every window [W] and every button at rest, a pin that
    moves to the pressed level and is polled there emits no press edge as
    long as it has been stable for [W] or less, and exactly one once it has
    been stable for more than [W]; a move to the released level emits none;
    an edge is visible for one poll only, whatever was done with it. *)
Theorem debounce_edge_per_transition (W : Z) (b : Button) (t0 : Z) (ts : list Z) :
  0 <= W ->
  (at_rest LOW b ->
     (stable_for t0 ts <= W -> edges W b (held LOW t0 ts) = 0%nat) /\
     (W < stable_for t0 ts -> edges W b (held LOW t0 ts) = 1%nat)) /\
  (at_rest HIGH b -> edges W b (held HIGH t0 ts) = 0%nat) /\
  (forall r1 t1 r2 t2 f,
     debounce W r1 t1 (mkButton (PIN b) (lastDebounceTime b) (lastButtonState b)
                                (currentState b) f) = debounce W r1 t1 b /\
     (pressed (debounce W r1 t1 b) = true ->
      pressed (debounce W r2 t2 (debounce W r1 t1 b)) = false)).
Proof.
  intros HW. split; [|split].
  - intros Hr. rewrite (edges_held W LOW t0 ts b HW Hr). simpl.
    split; intros H.
    + destruct (Z.ltb_spec W (stable_for t0 ts)); [lia | reflexivity].
    + destruct (Z.ltb_spec W (stable_for t0 ts)); [reflexivity | lia].
  - intros Hr. rewrite (edges_held W HIGH t0 ts b HW Hr). reflexivity.
  - intros r1 t1 r2 t2 f. split.
    + destruct b; reflexivity.
    + apply one_shot.
Qed.

Lemma debounce_edge_per_transition_witness :
  0 <= debounceDelay /\ at_rest LOW btnSelect0 /\
  edges debounceDelay btnSelect0 (held LOW 100 [120; 151; 200]) = 1%nat.
Proof.
  split; [unfold debounceDelay; lia |].
  split; [split; reflexivity |].
  pose proof (debounce_edge_per_transition debounceDelay btnSelect0 100
                [120; 151; 200]) as H.
  destruct H as [H _]; [unfold debounceDelay; lia |].
  destruct H as [_ H]; [split; reflexivity |].
  apply H. vm_compute. reflexivity.
Defined.

Example file_keys_ex1 :
  file_keys (txt "FF FF FF FF FF FF
a0 A1 0xa2 3 +4 -0
  
zz 00 00 00 00 00
00 11 22 33 44
00 11 22 33 44 55 66
00 11 22 33 44 100
") = [[255;255;255;255;255;255]; [160;161;162;3;4;0]; [0;17;34;51;68;85]].
Proof. vm_compute. reflexivity. Qed.

(* ===================================================================== *)
(** ** The key file                                                       *)
(* ===================================================================== *)

Section ArrayFacts.

Context {A : Type}.

Lemma upd_length (l : list A) i v : List.length (upd l i v) = List.length l.
Proof.
  revert i; induction l as [|x l IH]; intros [|i]; simpl; auto.
Qed.

Lemma nth_upd_same (l : list A) i v d :
  (i < List.length l)%nat -> List.nth i (upd l i v) d = v.
Proof.
  revert i; induction l as [|x l IH]; intros [|i] H; simpl in *;
    try lia; auto. apply IH. lia.
Qed.

Lemma nth_upd_other (l : list A) i j v d :
  i <> j -> List.nth j (upd l i v) d = List.nth j l d.
Proof.
  revert i j; induction l as [|x l IH]; intros [|i] [|j] H; simpl;
    try congruence; auto.
Qed.

Lemma firstn_upd_below (l : list A) i n v :
  (n <= i)%nat -> List.firstn n (upd l i v) = List.firstn n l.
Proof.
  revert i n; induction l as [|x l IH]; intros [|i] [|n] H; simpl;
    try lia; auto. f_equal. apply IH. lia.
Qed.

Lemma firstn_upd_next (l : list A) i v :
  (i < List.length l)%nat ->
  List.firstn (S i) (upd l i v) = List.firstn i l ++ [v].
Proof.
  revert i; induction l as [|x l IH]; intros [|i] H; simpl in *; try lia.
  - reflexivity.
  - f_equal. apply IH. lia.
Qed.

Lemma firstn_nth_next (l : list A) i d :
  (i < List.length l)%nat ->
  List.firstn (S i) l = List.firstn i l ++ [List.nth i l d].
Proof.
  revert i; induction l as [|x l IH]; intros [|i] H; simpl in *; try lia.
  - reflexivity.
  - f_equal. apply IH. lia.
Qed.

End ArrayFacts.

Lemma set_key_byte_length keys i j v :
  List.length (set_key_byte keys i j v) = List.length keys.
Proof. apply upd_length. Qed.

Lemma set_key_byte_other keys i j v k :
  k <> i -> List.nth k (set_key_byte keys i j v) [] = List.nth k keys [].
Proof. intros H. apply nth_upd_other. congruence. Qed.

Lemma set_key_byte_row keys i j v :
  (i < List.length keys)%nat ->
  List.nth i (set_key_byte keys i j v) [] = upd (List.nth i keys []) j v.
Proof. intros H. apply nth_upd_same. exact H. Qed.

Lemma set_key_byte_firstn keys i j v :
  List.firstn i (set_key_byte keys i j v) = List.firstn i keys.
Proof. apply firstn_upd_below. lia. Qed.

Lemma tokens_cons2 delim c c' r :
  tokens delim (c :: c' :: r) =
  if Ascii.eqb c delim then tokens delim (c' :: r)
  else if Ascii.eqb c' delim then [c] :: tokens delim (c' :: r)
       else match tokens delim (c' :: r) with
            | t :: ts => (c :: t) :: ts
            | [] => [[c]]
            end.
Proof. reflexivity. Qed.

Lemma span_token_cons delim c r :
  span_token delim (c :: r) =
  if Ascii.eqb c delim then ([], r)
  else (c :: fst (span_token delim r), snd (span_token delim r)).
Proof. simpl. destruct (Ascii.eqb c delim), (span_token delim r); reflexivity. Qed.

(** [strtok] hands out the tokens of the buffer one after the other. *)
Lemma span_token_tokens delim r : forall c,
  Ascii.eqb c delim = false ->
  tokens delim (c :: r) =
  fst (span_token delim (c :: r)) :: tokens delim (snd (span_token delim (c :: r))).
Proof.
  induction r as [|c' r IH]; intros c Hc.
  - simpl. rewrite Hc. reflexivity.
  - rewrite tokens_cons2, (span_token_cons delim c), Hc. cbn [fst snd].
    destruct (Ascii.eqb c' delim) eqn:Hc'.
    + rewrite span_token_cons, Hc'. cbn [fst snd].
      cbn [tokens]. rewrite Hc'. reflexivity.
    + rewrite (IH c' Hc'). reflexivity.
Qed.

Lemma tokens_skip delim s :
  tokens delim (skip_while (Ascii.eqb delim) s) = tokens delim s.
Proof.
  induction s as [|c r IH]; [reflexivity|].
  cbn [skip_while]. destruct (Ascii.eqb delim c) eqn:E; [|reflexivity].
  rewrite IH. cbn [tokens]. rewrite Ascii.eqb_sym, E. reflexivity.
Qed.

Lemma skip_while_head (p : ascii -> bool) s c r :
  skip_while p s = c :: r -> p c = false.
Proof.
  induction s as [|x s IH]; simpl; [discriminate|].
  destruct (p x) eqn:E; [exact IH|]. intros H; inversion H; subst. exact E.
Qed.

Lemma strtok_tokens delim s :
  tokens delim s =
  match fst (strtok delim s) with
  | None => []
  | Some tok => tok :: tokens delim (snd (strtok delim s))
  end.
Proof.
  rewrite <- tokens_skip. unfold strtok.
  destruct (skip_while (Ascii.eqb delim) s) as [|c r] eqn:E; [reflexivity|].
  pose proof (skip_while_head _ _ _ _ E) as Hc.
  rewrite Ascii.eqb_sym in Hc.
  rewrite (span_token_tokens delim r c Hc).
  destruct (span_token delim (c :: r)); reflexivity.
Qed.

Lemma Forall_upd {A : Type} (P : A -> Prop) (l : list A) i v :
  List.Forall P l -> P v -> List.Forall P (upd l i v).
Proof.
  intros H Hv. revert i. induction H as [|x l Hx Hl IH]; intros [|i]; simpl;
    constructor; auto.
Qed.

Lemma rows_ok_nth keys i :
  rows_ok keys -> (i < List.length keys)%nat ->
  List.length (List.nth i keys []) = 6%nat.
Proof.
  intros H Hi. unfold rows_ok in H. rewrite List.Forall_forall in H.
  apply H. apply List.nth_In. exact Hi.
Qed.

Lemma set_key_byte_rows_ok keys i j v :
  rows_ok keys -> (i < List.length keys)%nat -> rows_ok (set_key_byte keys i j v).
Proof.
  intros H Hi. apply Forall_upd; [exact H|].
  rewrite upd_length. apply rows_ok_nth; assumption.
Qed.

Lemma toks_of_strtok delim s :
  toks_of delim (fst (strtok delim s)) (snd (strtok delim s)) = tokens delim s.
Proof. unfold toks_of. rewrite (strtok_tokens delim s). reflexivity. Qed.

Lemma byte_token_strtol tok :
  byte_token tok =
  if negb (Nat.eqb (List.length (snd (strtol16 tok))) 0)
     || (fst (strtol16 tok) <? 0) || (255 <? fst (strtol16 tok))
  then None else Some (fst (strtol16 tok) mod 256).
Proof.
  unfold byte_token. destruct (strtol16 tok) as [val endPtr]. cbn [fst snd].
  destruct endPtr as [|c r]; [|reflexivity]. simpl.
  destruct (Z.ltb_spec val 0), (Z.ltb_spec 255 val),
    (Z.leb_spec 0 val), (Z.leb_spec val 255); simpl; try lia; try reflexivity.
  rewrite Z.mod_small by lia. reflexivity.
Qed.

(** The inner loop fills row [keyIndex] with the first [room] tokens when
    they are bytes, and reports failure otherwise; no other row changes. *)
Lemma parseTokens_spec : forall room ptr saved keyIndex keys,
  (room <= 6)%nat -> (keyIndex < List.length keys)%nat -> rows_ok keys ->
  exists keys' bi ok,
    parseTokens room ptr saved keyIndex keys = (keys', bi, ok) /\
    List.length keys' = List.length keys /\ rows_ok keys' /\
    List.firstn keyIndex keys' = List.firstn keyIndex keys /\
    match first_bytes room (toks_of " " ptr saved) with
    | Some vs =>
        bi = 6%nat /\ ok = true /\
        List.nth keyIndex keys' [] =
        List.firstn (6 - room) (List.nth keyIndex keys []) ++ vs
    | None => Nat.eqb bi 6 && ok = false
    end.
Proof.
  induction room as [|room IH]; intros ptr saved keyIndex keys Hr Hk Hrows.
  - exists keys, 6%nat, true. cbn [first_bytes parseTokens].
    split; [destruct ptr; reflexivity|].
    repeat split; auto.
    rewrite List.app_nil_r, List.firstn_all2; [reflexivity|].
    rewrite rows_ok_nth by assumption. cbn. lia.
  - destruct ptr as [tok|].
    + cbn [parseTokens toks_of first_bytes].
      rewrite byte_token_strtol.
      destruct (strtol16 tok) as [val endPtr]. cbn [fst snd].
      destruct (negb (Nat.eqb (List.length endPtr) 0) || (val <? 0) || (255 <? val)) eqn:Ebad.
      * exists keys, (6 - S room)%nat, false.
        repeat split; auto. apply Bool.andb_false_r.
      * set (keys1 := set_key_byte keys keyIndex (6 - S room) (val mod 256)).
        pose proof (toks_of_strtok " " saved) as Htok.
        destruct (strtok " " saved) as [ptr' saved']. cbn [fst snd] in Htok.
        rewrite <- Htok.
        destruct (IH ptr' saved' keyIndex keys1) as (keys' & bi & ok & E & Hl & Ho & Hf & Hm).
        { lia. }
        { unfold keys1. rewrite set_key_byte_length. exact Hk. }
        { apply set_key_byte_rows_ok; assumption. }
        exists keys', bi, ok. rewrite E.
        unfold keys1 in Hl, Hf. rewrite set_key_byte_length in Hl.
        rewrite set_key_byte_firstn in Hf.
        repeat split; auto.
        destruct (first_bytes room (toks_of " " ptr' saved')) as [vs|]; [|exact Hm].
        destruct Hm as (Hb & Hok & Hrow). repeat split; auto.
        rewrite Hrow. unfold keys1. rewrite set_key_byte_row by exact Hk.
        replace (6 - room)%nat with (S (6 - S room)) by lia.
        rewrite firstn_upd_next.
        -- rewrite <- List.app_assoc. reflexivity.
        -- rewrite rows_ok_nth by assumption. lia.
    + exists keys, (6 - S room)%nat, true. cbn [parseTokens toks_of first_bytes].
      repeat split; auto.
      rewrite Bool.andb_true_r. apply Nat.eqb_neq. lia.
Qed.

Lemma readStringUntil_cons t c r :
  readStringUntil t (c :: r) =
  if Ascii.eqb c t then ([], r)
  else (c :: fst (readStringUntil t r), snd (readStringUntil t r)).
Proof. simpl. destruct (Ascii.eqb c t), (readStringUntil t r); reflexivity. Qed.

Lemma readStringUntil_shorter t s :
  (List.length (snd (readStringUntil t s)) <= List.length s)%nat.
Proof.
  induction s as [|c r IH]; [simpl; lia|].
  rewrite readStringUntil_cons. destruct (Ascii.eqb c t); simpl in *; lia.
Qed.

Lemma readStringUntil_consumes t c r :
  (List.length (snd (readStringUntil t (c :: r))) < List.length (c :: r))%nat.
Proof.
  rewrite readStringUntil_cons. pose proof (readStringUntil_shorter t r).
  destruct (Ascii.eqb c t); simpl in *; lia.
Qed.

(** Reading line by line enumerates [file_lines]. *)
Lemma file_lines_read r : forall c,
  file_lines (c :: r) =
  fst (readStringUntil "010" (c :: r)) ::
  file_lines (snd (readStringUntil "010" (c :: r))).
Proof.
  induction r as [|c' r IH]; intros c.
  - simpl. destruct (Ascii.eqb c "010"); reflexivity.
  - rewrite readStringUntil_cons.
    change (file_lines (c :: c' :: r)) with
      (if Ascii.eqb c "010" then [] :: file_lines (c' :: r)
       else match file_lines (c' :: r) with
            | [] => [[c]]
            | l :: ls => (c :: l) :: ls
            end).
    destruct (Ascii.eqb c "010"); [reflexivity|].
    rewrite (IH c'). reflexivity.
Qed.

(** The outer loop against [classify]: the rows below [keyIndex] are the
    keys of the accepted lines, in file order. *)
Lemma loadLoop_spec : forall fuel stream keys n log,
  (List.length stream <= fuel)%nat ->
  List.length keys = 50%nat -> rows_ok keys -> (n <= 50)%nat ->
  exists keys' n' log',
    loadLoop fuel stream keys n log = (keys', n', log') /\
    List.length keys' = 50%nat /\ rows_ok keys' /\ (n' <= 50)%nat /\
    List.firstn n' keys' =
      List.firstn n keys ++ fst (classify (file_lines stream) n) /\
    log' = log ++ snd (classify (file_lines stream) n).
Proof.
  induction fuel as [|fuel IH]; intros stream keys n log Hf Hl Hrows Hn.
  - destruct stream; [|simpl in Hf; lia].
    exists keys, n, log. simpl. rewrite !List.app_nil_r. auto 10.
  - destruct stream as [|c r].
    { exists keys, n, log. simpl. rewrite !List.app_nil_r. auto 10. }
    cbn [loadLoop]. change (Nat.eqb (List.length (c :: r)) 0) with false.
    cbn [negb andb].
    rewrite (file_lines_read r c). cbn [classify].
    destruct (Nat.ltb_spec n 50) as [Hlt|Hge].
    2:{ exists keys, n, log. simpl. rewrite !List.app_nil_r. auto 10. }
    pose proof (readStringUntil_consumes "010" c r) as Hcons.
    destruct (readStringUntil "010" (c :: r)) as [raw rest]. cbn [fst snd] in *.
    assert (Hrest : (List.length rest <= fuel)%nat) by (simpl in Hf, Hcons; lia).
    destruct (trim raw) as [|l0 line0] eqn:Etrim.
    { cbn [List.length Nat.eqb]. apply IH; assumption. }
    set (line := l0 :: line0) in *.
    change (Nat.eqb (List.length line) 0) with false. cbv iota.
    pose proof (toks_of_strtok " " (toCharArray line 40)) as Htok.
    destruct (strtok " " (toCharArray line 40)) as [ptr saved].
    cbn [fst snd] in Htok.
    destruct (parseTokens_spec 6 ptr saved n keys) as
      (keys' & bi & ok & E & Hl' & Ho' & Hf' & Hm); try assumption; try lia.
    rewrite E. unfold line_key. rewrite <- Htok.
    destruct (first_bytes 6 (toks_of " " ptr saved)) as [k|].
    + destruct Hm as (Hb & Hok & Hrow). subst bi ok. cbn [Nat.eqb andb].
      destruct (IH rest keys' (S n) log) as
        (keys2 & n2 & log2 & E2 & Hl2 & Ho2 & Hn2 & Hf2 & Hlog2);
        try assumption; try lia.
      exists keys2, n2, log2. rewrite E2.
      destruct (classify (file_lines rest) (S n)) as [ks bad]. cbn [fst snd] in *.
      repeat split; auto.
      rewrite Hf2, (firstn_nth_next keys' n []) by lia.
      rewrite Hf', Hrow. cbn [Nat.sub List.firstn List.app].
      rewrite <- List.app_assoc. reflexivity.
    + rewrite Hm. cbv iota.
      destruct (IH rest keys' n (log ++ [line])) as
        (keys2 & n2 & log2 & E2 & Hl2 & Ho2 & Hn2 & Hf2 & Hlog2);
        try assumption; try lia.
      exists keys2, n2, log2. split; [exact E2|].
      destruct (classify (file_lines rest) n) as [ks bad]. cbn [fst snd] in *.
      repeat split; auto.
      * rewrite Hf2, Hf'. reflexivity.
      * rewrite Hlog2, <- List.app_assoc. reflexivity.
Qed.

Lemma keys0_rows_ok : rows_ok keys0.
Proof. unfold rows_ok, keys0. apply List.Forall_forall. intros row H.
  apply List.repeat_spec in H. subst. reflexivity. Qed.

Lemma parseKeyFile_spec content keys :
  List.length keys = 50%nat -> rows_ok keys ->
  exists keys' n log,
    parseKeyFile content keys = (keys', n, log) /\
    List.length keys' = 50%nat /\ rows_ok keys' /\ (n <= 50)%nat /\
    dictionary keys' n = fst (classify (file_lines content) 0) /\
    log = snd (classify (file_lines content) 0).
Proof.
  intros Hl Ho.
  destruct (loadLoop_spec (List.length content) content keys 0 [])
    as (keys' & n & log & E & H1 & H2 & H3 & H4 & H5); auto; try lia.
  exists keys', n, log. unfold parseKeyFile, dictionary. rewrite E.
  repeat split; auto.
Qed.




Example key_file_five_tokens :
  file_keys (txt "00 11 22 33 44") = [] /\
  file_malformed (txt "00 11 22 33 44") = [txt "00 11 22 33 44"].
Proof. split; vm_compute; reflexivity. Qed.

Example key_file_non_hex_token :
  file_keys (txt "00 11 2G 33 44 55
FF FF FF FF FF FF") = [[255; 255; 255; 255; 255; 255]] /\
  file_malformed (txt "00 11 2G 33 44 55
FF FF FF FF FF FF") = [txt "00 11 2G 33 44 55"].
Proof. split; vm_compute; reflexivity. Qed.

(* ===================================================================== *)
(** ** The firmware                                                       *)
(* ===================================================================== *)

(** ** Menu arithmetic *)

Lemma menu_up_eq (j n : Z) :
  0 <= j < n -> menu_up j n = if j =? 0 then n - 1 else j - 1.
Proof.
  intros Hj. unfold menu_up. rewrite Z.rem_mod_nonneg by lia.
  destruct (Z.eqb_spec j 0) as [->|Hi].
  - replace (0 - 1 + n) with (n - 1) by lia. apply Z.mod_small. lia.
  - replace (j - 1 + n) with (j - 1 + 1 * n) by lia.
    rewrite Z.mod_add by lia. apply Z.mod_small. lia.
Qed.

Lemma menu_down_eq (j n : Z) :
  0 <= j < n -> menu_down j n = if j =? n - 1 then 0 else j + 1.
Proof.
  intros Hj. unfold menu_down. rewrite Z.rem_mod_nonneg by lia.
  destruct (Z.eqb_spec j (n - 1)) as [->|Hi].
  - replace (n - 1 + 1) with n by lia. apply Z.mod_same. lia.
  - apply Z.mod_small. lia.
Qed.

Section FirmwareFacts.

Context {R Sd : Type} {radio_layer : RadioLayer R} {storage_layer : StorageLayer Sd}.

#[local] Abbreviation keeps := (@keeps R Sd _).
#[local] Abbreviation same_dict := (@same_dict R Sd).
#[local] Abbreviation ui_only := (@ui_only R Sd).

Lemma skipn_firstn_next (keys : KeyTable) i n :
  (i < List.length keys)%nat ->
  List.firstn (S n) (List.skipn i keys) =
  List.nth i keys [] :: List.firstn n (List.skipn (S i) keys).
Proof.
  revert i. induction keys as [|k keys IH]; intros [|i] H; simpl in *; try lia.
  - reflexivity.
  - rewrite <- (IH i) by lia. reflexivity.
Qed.

Lemma trial_order_cons key dict :
  trial_order (key :: dict) = (0, key) :: (1, key) :: trial_order dict.
Proof. reflexivity. Qed.

(** The authenticator's loop, attempt by attempt: it always returns, it
    touches the radio only, and it stops at the first attempt that succeeds. *)
Lemma authLoop_trace uid uidLen block : forall n i (w : World R Sd),
  (i + n <= List.length (keys (dev w)))%nat ->
  let order := trial_order (List.firstn n (List.skipn i (keys (dev w)))) in
  exists res rd evs,
    authLoop n i uid uidLen block w = mkRes (Some res) (with_radio w rd) evs /\
    ((res = false /\ evs = List.map (auth_event block false) order) \/
     (res = true /\
      exists before attempt after,
        order = before ++ attempt :: after /\
        evs = List.map (auth_event block false) before
              ++ [auth_event block true attempt])).
Proof.
  induction n as [|n IH]; intros i w Hi; cbv zeta.
  - exists false, (radio w), []. split; [destruct w; reflexivity|].
    left. split; reflexivity.
  - rewrite skipn_firstn_next by lia.
    set (key := List.nth i (keys (dev w)) []).
    cbn [authLoop]. unfold bind, getDev, nfc_AuthenticateBlock.
    cbn [after value world events]. fold key.
    destruct (mifareclassic_AuthenticateBlock (radio w) uid uidLen block 0 key)
      as [okA rA] eqn:EA.
    cbn [after value world events]. destruct okA.
    + exists true, rA, [EvAuth block 0 key true]. split; [reflexivity|].
      right. split; [reflexivity|].
      exists [], (0, key). eexists. split; reflexivity.
    + cbn [with_radio radio dev sd input display_ok].
      destruct (mifareclassic_AuthenticateBlock rA uid uidLen block 1 key)
        as [okB rB] eqn:EB.
      cbn [after value world events]. destruct okB.
      * exists true, rB, [EvAuth block 0 key false; EvAuth block 1 key true].
        split; [reflexivity|].
        right. split; [reflexivity|].
        exists [(0, key)], (1, key). eexists. split; reflexivity.
      * destruct (IH (S i) (with_radio w rB)) as (res & rd & evs & E & Hev);
          [cbn; lia|].
        cbn [with_radio radio dev sd input display_ok] in Hev.
        change (with_radio (with_radio w rA) rB) with (with_radio w rB).
        rewrite E. cbn [after value world events List.app].
        exists res, rd, (EvAuth block 0 key false :: EvAuth block 1 key false :: evs).
        split; [reflexivity|]. rewrite trial_order_cons.
        destruct Hev as [[Hv He] | [Hv (before & attempt & after & Ho & He)]].
        -- left. split; [exact Hv|]. rewrite He. reflexivity.
        -- right. split; [exact Hv|].
           exists ((0, key) :: (1, key) :: before), attempt, after.
           split; [rewrite Ho; reflexivity | rewrite He; reflexivity].
Qed.

(** The loop is the scan of the trial order. *)
Lemma authLoop_scan uid uidLen block : forall n i (w : World R Sd),
  (i + n <= List.length (keys (dev w)))%nat ->
  authLoop n i uid uidLen block w =
  let '(res, rd, evs) :=
    first_success (radio w) uid uidLen block
      (trial_order (List.firstn n (List.skipn i (keys (dev w))))) in
  mkRes (Some res) (with_radio w rd) evs.
Proof.
  induction n as [|n IH]; intros i w Hi.
  - destruct w; reflexivity.
  - rewrite skipn_firstn_next by lia. rewrite trial_order_cons.
    set (key := List.nth i (keys (dev w)) []).
    cbn [authLoop first_success]. unfold bind, getDev, nfc_AuthenticateBlock.
    cbn [after value world events]. fold key.
    destruct (mifareclassic_AuthenticateBlock (radio w) uid uidLen block 0 key)
      as [okA rA] eqn:EA.
    cbn [after value world events]. destruct okA; [reflexivity|].
    cbn [with_radio radio dev sd input display_ok].
    destruct (mifareclassic_AuthenticateBlock rA uid uidLen block 1 key)
      as [okB rB] eqn:EB.
    cbn [after value world events]. destruct okB; [reflexivity|].
    change (with_radio (with_radio w rA) rB) with (with_radio w rB).
    rewrite (IH (S i) (with_radio w rB)) by (cbn; lia).
    cbn [with_radio radio dev sd input display_ok].
    destruct (first_success rB uid uidLen block
                (trial_order (List.firstn n (List.skipn (S i) (keys (dev w))))))
      as [[res rd] evs].
    reflexivity.
Qed.

Lemma authenticateBlock_scan uid uidLen block (w : World R Sd) :
  (numKeys (dev w) <= List.length (keys (dev w)))%nat ->
  authenticateBlock uid uidLen block w =
  let '(res, rd, evs) :=
    first_success (radio w) uid uidLen block
      (trial_order (dictionary (keys (dev w)) (numKeys (dev w)))) in
  mkRes (Some res) (with_radio w rd) evs.
Proof.
  intros H. unfold authenticateBlock, bind, getDev. cbn [after value world events].
  rewrite authLoop_scan by (cbn; lia). cbn [List.skipn].
  unfold dictionary.
  destruct (first_success (radio w) uid uidLen block
              (trial_order (List.firstn (numKeys (dev w)) (keys (dev w)))))
    as [[res rd] evs].
  reflexivity.
Qed.

Lemma authenticateBlock_trace uid uidLen block (w : World R Sd) :
  (numKeys (dev w) <= List.length (keys (dev w)))%nat ->
  let order := trial_order (dictionary (keys (dev w)) (numKeys (dev w))) in
  exists res rd evs,
    authenticateBlock uid uidLen block w = mkRes (Some res) (with_radio w rd) evs /\
    ((res = false /\ evs = List.map (auth_event block false) order) \/
     (res = true /\
      exists before attempt after,
        order = before ++ attempt :: after /\
        evs = List.map (auth_event block false) before
              ++ [auth_event block true attempt])).
Proof.
  intros H. unfold authenticateBlock, bind, getDev. cbn [after value world events].
  destruct (authLoop_trace uid uidLen block (numKeys (dev w)) 0 w)
    as (res & rd & evs & E & Hev); [cbn; lia|].
  rewrite E. cbn [after value world events List.app]. exists res, rd, evs.
  split; [reflexivity|]. exact Hev.
Qed.

(** C4: [authenticateBlock] always returns; it tries the keys of the
    dictionary in insertion order, slot A before slot B for each key, and
    stops at the first attempt the radio accepts: it returns true with
    exactly the failed attempts that come before that one in the trial
    order, and false only when every key has failed with both slots.  With
    the dictionary [K1; K2] and a radio that accepts only K2 with slot B,
    the attempts are K1/A, K1/B, K2/A, all failed, then K2/B. *)
Theorem authenticate_in_dictionary_order
    (uid : list Z) (uidLen block : Z) (w : World R Sd) :
  (numKeys (dev w) <= List.length (keys (dev w)))%nat ->
  let dict := dictionary (keys (dev w)) (numKeys (dev w)) in
  let r := authenticateBlock uid uidLen block w in
  (r = let '(res, rd, evs) :=
         first_success (radio w) uid uidLen block (trial_order dict) in
       mkRes (Some res) (with_radio w rd) evs) /\
  (exists res, value r = Some res /\
     (res = false ->
        events r = List.map (auth_event block false) (trial_order dict)) /\
     (res = true ->
        exists before attempt after,
          trial_order dict = before ++ attempt :: after /\
          events r = List.map (auth_event block false) before
                     ++ [auth_event block true attempt])) /\
  (forall K1 K2 r1 r2 r3 r4,
     dict = [K1; K2] ->
     mifareclassic_AuthenticateBlock (radio w) uid uidLen block 0 K1 = (false, r1) ->
     mifareclassic_AuthenticateBlock r1 uid uidLen block 1 K1 = (false, r2) ->
     mifareclassic_AuthenticateBlock r2 uid uidLen block 0 K2 = (false, r3) ->
     mifareclassic_AuthenticateBlock r3 uid uidLen block 1 K2 = (true, r4) ->
     value r = Some true /\
     events r = [EvAuth block 0 K1 false; EvAuth block 1 K1 false;
                 EvAuth block 0 K2 false; EvAuth block 1 K2 true]).
Proof.
  intros H dict r. split; [|split].
  - apply authenticateBlock_scan. exact H.
  - destruct (authenticateBlock_trace uid uidLen block w H)
      as (res & rd & evs & E & Hev).
    exists res. subst r. rewrite E. cbn [value events].
    split; [reflexivity|].
    destruct Hev as [[Hr He] | [Hr He]]; subst res;
      split; intros; try discriminate; assumption.
  - intros K1 K2 r1 r2 r3 r4 Hd H1 H2 H3 H4. subst r.
    rewrite (authenticateBlock_scan uid uidLen block w H).
    fold dict. rewrite Hd. cbn [trial_order List.flat_map List.app first_success].
    rewrite H1, H2, H3, H4. split; reflexivity.
Qed.

(** *** Running computations *)

Lemma res_eta {A : Type} (r : Res R Sd A) :
  r = mkRes (value r) (world r) (events r).
Proof. destruct r; reflexivity. Qed.

Lemma bind_done {A B : Type} (m : M R Sd A) (f : A -> M R Sd B) w a w' e :
  m w = mkRes (Some a) w' e ->
  bind m f w = after e (f a w').
Proof. intros H. unfold bind. rewrite H. reflexivity. Qed.

Lemma bind_wait {A B : Type} (m : M R Sd A) (f : A -> M R Sd B) w w' e :
  m w = mkRes None w' e -> bind m f w = mkRes None w' e.
Proof. intros H. unfold bind. rewrite H. reflexivity. Qed.

Lemma after_nil {A : Type} (r : Res R Sd A) : after [] r = r.
Proof. destruct r; reflexivity. Qed.

Lemma after_after {A : Type} e1 e2 (r : Res R Sd A) :
  after e1 (after e2 r) = after (e1 ++ e2) r.
Proof. unfold after. cbn [value world events]. rewrite List.app_assoc. reflexivity. Qed.

Lemma after_mkRes {A : Type} e (v : option A) (w : World R Sd) e' :
  after e (mkRes v w e') = mkRes v w (e ++ e').
Proof. reflexivity. Qed.

Lemma value_after {A : Type} e (r : Res R Sd A) : value (after e r) = value r.
Proof. reflexivity. Qed.

Lemma world_after {A : Type} e (r : Res R Sd A) : world (after e r) = world r.
Proof. reflexivity. Qed.

Lemma events_after {A : Type} e (r : Res R Sd A) :
  events (after e r) = e ++ events r.
Proof. reflexivity. Qed.


Lemma bind_getDev {B : Type} (f : Device -> M R Sd B) w :
  bind getDev f w = f (dev w) w.
Proof. unfold bind, getDev. cbn [value world events]. apply after_nil. Qed.

Lemma bind_setDev {B : Type} g (f : unit -> M R Sd B) w :
  bind (setDev g) f w = f tt (with_dev w (g (dev w))).
Proof. unfold bind, setDev. cbn [value world events]. apply after_nil. Qed.

Lemma bind_emit {B : Type} e (f : unit -> M R Sd B) w :
  bind (emit e) f w = after [e] (f tt w).
Proof. reflexivity. Qed.

Lemma bind_bind {A B C : Type} (m : M R Sd A) (f : A -> M R Sd B)
    (g : B -> M R Sd C) w :
  bind (bind m f) g w = bind m (fun a => bind (f a) g) w.
Proof.
  unfold bind. destruct (m w) as [[a|] w1 e1]; cbn [value world events after];
    [|reflexivity].
  destruct (f a w1) as [[b|] w2 e2]; cbn [value world events after];
    [|reflexivity].
  unfold after. cbn [value world events]. rewrite List.app_assoc. reflexivity.
Qed.

Lemma bind_displayInfo {B : Type} a b c (f : unit -> M R Sd B) w :
  bind (displayInfo a b c) f w =
  after [EvDisplayInfo a b c] (f tt (with_dev w (set_view VIEW_ACTION (dev w)))).
Proof. unfold displayInfo. rewrite bind_bind, bind_setDev. reflexivity. Qed.

Lemma displayInfo_run a b c (w : World R Sd) :
  displayInfo a b c w =
  mkRes (Some tt) (with_dev w (set_view VIEW_ACTION (dev w))) [EvDisplayInfo a b c].
Proof. reflexivity. Qed.

Lemma bind_sd_exists {B : Type} p (f : bool -> M R Sd B) w :
  bind (sd_exists p) f w = f (SD_exists (sd w) p) w.
Proof. unfold bind, sd_exists. cbn [value world events]. apply after_nil. Qed.

Lemma bind_sd_open_read {B : Type} p (f : option text -> M R Sd B) w :
  bind (sd_open_read p) f w = f (SD_open_read (sd w) p) w.
Proof. unfold bind, sd_open_read. cbn [value world events]. apply after_nil. Qed.

Lemma bind_sd_root {B : Type} (f : option (list DirEntry) -> M R Sd B) w :
  bind sd_root f w = f (SD_root (sd w)) w.
Proof. unfold bind, sd_root. cbn [value world events]. apply after_nil. Qed.

Lemma bind_nfc_readPassiveTargetID {B : Type} t
    (f : option (list Z) -> M R Sd B) w :
  bind (nfc_readPassiveTargetID t) f w =
  after [EvDetect t (fst (readPassiveTargetID (radio w) t))]
        (f (fst (readPassiveTargetID (radio w) t))
           (with_radio w (snd (readPassiveTargetID (radio w) t)))).
Proof.
  unfold bind, nfc_readPassiveTargetID.
  destruct (readPassiveTargetID (radio w) t); reflexivity.
Qed.

Lemma bind_nfc_AuthenticateBlock {B : Type} uid len b slot key
    (f : bool -> M R Sd B) w :
  bind (nfc_AuthenticateBlock uid len b slot key) f w =
  let answer := mifareclassic_AuthenticateBlock (radio w) uid len b slot key in
  after [EvAuth b slot key (fst answer)] (f (fst answer) (with_radio w (snd answer))).
Proof.
  unfold bind, nfc_AuthenticateBlock.
  destruct (mifareclassic_AuthenticateBlock (radio w) uid len b slot key);
    reflexivity.
Qed.

Lemma bind_nfc_ReadDataBlock {B : Type} b (f : option (list Z) -> M R Sd B) w :
  bind (nfc_ReadDataBlock b) f w =
  let buffer := option_map block16 (fst (mifareclassic_ReadDataBlock (radio w) b)) in
  after [EvReadBlock b buffer]
        (f buffer (with_radio w (snd (mifareclassic_ReadDataBlock (radio w) b)))).
Proof.
  unfold bind, nfc_ReadDataBlock.
  destruct (mifareclassic_ReadDataBlock (radio w) b); reflexivity.
Qed.

Lemma bind_nfc_WriteDataBlock {B : Type} b d (f : bool -> M R Sd B) w :
  bind (nfc_WriteDataBlock b d) f w =
  after [EvWriteBlock b d (fst (mifareclassic_WriteDataBlock (radio w) b d))]
        (f (fst (mifareclassic_WriteDataBlock (radio w) b d))
           (with_radio w (snd (mifareclassic_WriteDataBlock (radio w) b d)))).
Proof.
  unfold bind, nfc_WriteDataBlock.
  destruct (mifareclassic_WriteDataBlock (radio w) b d); reflexivity.
Qed.

Lemma bind_sd_remove {B : Type} p (f : bool -> M R Sd B) w :
  bind (sd_remove p) f w =
  after [EvSdRemove p (fst (SD_remove (sd w) p))]
        (f (fst (SD_remove (sd w) p)) (with_sd w (snd (SD_remove (sd w) p)))).
Proof. unfold bind, sd_remove. destruct (SD_remove (sd w) p); reflexivity. Qed.

Lemma bind_sd_open_write {B : Type} p (f : bool -> M R Sd B) w :
  bind (sd_open_write p) f w =
  after [EvSdOpenWrite p (fst (SD_open_write (sd w) p))]
        (f (fst (SD_open_write (sd w) p)) (with_sd w (snd (SD_open_write (sd w) p)))).
Proof.
  unfold bind, sd_open_write. destruct (SD_open_write (sd w) p); reflexivity.
Qed.

Lemma bind_file_write {B : Type} p d (f : unit -> M R Sd B) w :
  bind (file_write p d) f w =
  after [EvFileWrite p d] (f tt (with_sd w (File_write (sd w) p d))).
Proof. reflexivity. Qed.

Lemma bind_file_close {B : Type} p (f : unit -> M R Sd B) w :
  bind (file_close p) f w =
  after [EvFileClose p] (f tt (with_sd w (File_close (sd w) p))).
Proof. reflexivity. Qed.

(** A step of which only the outcome is known. *)
Lemma bind_step {A B : Type} (m : M R Sd A) (f : A -> M R Sd B) w :
  bind m f w =
  match value (m w) with
  | Some a => after (events (m w)) (f a (world (m w)))
  | None => mkRes None (world (m w)) (events (m w))
  end.
Proof. reflexivity. Qed.

Lemma setDev_run g (w : World R Sd) :
  setDev g w = mkRes (Some tt) (with_dev w (g (dev w))) [].
Proof. reflexivity. Qed.

Lemma ret_run {A : Type} (a : A) (w : World R Sd) : ret a w = mkRes (Some a) w [].
Proof. reflexivity. Qed.

(** *** What a step leaves alone *)

Lemma same_dict_refl (w : World R Sd) : same_dict w w.
Proof. reflexivity. Qed.

Lemma same_dict_trans (w1 w2 w3 : World R Sd) :
  same_dict w1 w2 -> same_dict w2 w3 -> same_dict w1 w3.
Proof. unfold same_dict. congruence. Qed.

Lemma ui_only_refl (w : World R Sd) : ui_only w w.
Proof. repeat split. Qed.

Lemma ui_only_trans (w1 w2 w3 : World R Sd) : ui_only w1 w2 -> ui_only w2 w3 -> ui_only w1 w3.
Proof.
  unfold ui_only. intros (a & b & c & d) (a' & b' & c' & d').
  repeat split; congruence.
Qed.

Section Keeps.

Variable P : World R Sd -> World R Sd -> Prop.
Hypothesis P_refl : forall w, P w w.
Hypothesis P_trans : forall w1 w2 w3, P w1 w2 -> P w2 w3 -> P w1 w3.

Lemma keeps_ret {A : Type} (a : A) : keeps P (ret a).
Proof. intros w. apply P_refl. Qed.

Lemma keeps_waiting {A : Type} : keeps P (@waiting R Sd A).
Proof. intros w. apply P_refl. Qed.

Lemma keeps_emit e : keeps P (emit e).
Proof. intros w. apply P_refl. Qed.

Lemma keeps_getDev : keeps P getDev.
Proof. intros w. apply P_refl. Qed.

Lemma keeps_bind {A B : Type} (m : M R Sd A) (f : A -> M R Sd B) :
  keeps P m -> (forall a, keeps P (f a)) -> keeps P (bind m f).
Proof.
  intros Hm Hf w. unfold bind. specialize (Hm w).
  destruct (value (m w)) as [a|]; cbn [world]; [|exact Hm].
  eapply P_trans; [exact Hm | apply Hf].
Qed.

Lemma keeps_if {A : Type} (c : bool) (m1 m2 : M R Sd A) :
  keeps P m1 -> keeps P m2 -> keeps P (if c then m1 else m2).
Proof. destruct c; auto. Qed.

Lemma keeps_when (c : bool) (m : M R Sd unit) : keeps P m -> keeps P (when c m).
Proof. intros H. unfold when. destruct c; [exact H | apply keeps_ret]. Qed.

Lemma keeps_at {A : Type} (f : World R Sd -> M R Sd A) :
  (forall w0, keeps P (f w0)) -> keeps P (fun w => f w w).
Proof. intros H w. apply (H w w). Qed.

End Keeps.

Lemma ui_only_same_dict {A : Type} (m : M R Sd A) :
  keeps ui_only m -> keeps same_dict m.
Proof. intros H w. destruct (H w) as (_ & _ & _ & Hd). exact Hd. Qed.

Lemma keeps_setDev_ui (f : Device -> Device) :
  (forall d, dict_of (f d) = dict_of d) -> keeps ui_only (setDev f).
Proof. intros H w. repeat split. cbn. apply H. Qed.

Lemma keeps_updateButtons : keeps ui_only updateButtons.
Proof.
  intros w. unfold updateButtons. destruct (input w); repeat split.
Qed.

Lemma keeps_radio_call {A : Type} (call : R -> A * R) (ev : A -> list Event) :
  keeps same_dict
    (fun w => let (a, r) := call (radio w) in mkRes (Some a) (with_radio w r) (ev a)).
Proof. intros w. destruct (call (radio w)). reflexivity. Qed.

Lemma keeps_sd_call {A : Type} (call : Sd -> A * Sd) (ev : A -> list Event) :
  keeps same_dict
    (fun w => let (a, s) := call (sd w) in mkRes (Some a) (with_sd w s) (ev a)).
Proof. intros w. destruct (call (sd w)). reflexivity. Qed.

Lemma keeps_nfc_getFirmwareVersion : keeps same_dict nfc_getFirmwareVersion.
Proof. apply (keeps_radio_call getFirmwareVersion (fun _ => [])). Qed.

Lemma keeps_nfc_readPassiveTargetID t : keeps same_dict (nfc_readPassiveTargetID t).
Proof.
  apply (keeps_radio_call (fun r => readPassiveTargetID r t)
                          (fun uid => [EvDetect t uid])).
Qed.

Lemma keeps_nfc_AuthenticateBlock uid len b s k :
  keeps same_dict (nfc_AuthenticateBlock uid len b s k).
Proof.
  apply (keeps_radio_call (fun r => mifareclassic_AuthenticateBlock r uid len b s k)
                          (fun ok => [EvAuth b s k ok])).
Qed.

Lemma keeps_nfc_ReadDataBlock b : keeps same_dict (nfc_ReadDataBlock b).
Proof.
  intros w. unfold nfc_ReadDataBlock.
  destruct (mifareclassic_ReadDataBlock (radio w) b). reflexivity.
Qed.

Lemma keeps_nfc_WriteDataBlock b d : keeps same_dict (nfc_WriteDataBlock b d).
Proof.
  apply (keeps_radio_call (fun r => mifareclassic_WriteDataBlock r b d)
                          (fun ok => [EvWriteBlock b d ok])).
Qed.

Lemma keeps_sd_begin : keeps same_dict sd_begin.
Proof. apply (keeps_sd_call SD_begin (fun _ => [])). Qed.

Lemma keeps_sd_exists p : keeps ui_only (sd_exists p).
Proof. intros w. apply ui_only_refl. Qed.

Lemma keeps_sd_open_read p : keeps ui_only (sd_open_read p).
Proof. intros w. apply ui_only_refl. Qed.

Lemma keeps_sd_root : keeps ui_only sd_root.
Proof. intros w. apply ui_only_refl. Qed.

Lemma keeps_sd_remove p : keeps same_dict (sd_remove p).
Proof.
  apply (keeps_sd_call (fun s => SD_remove s p) (fun ok => [EvSdRemove p ok])).
Qed.

Lemma keeps_sd_open_write p : keeps same_dict (sd_open_write p).
Proof.
  apply (keeps_sd_call (fun s => SD_open_write s p) (fun ok => [EvSdOpenWrite p ok])).
Qed.

Lemma keeps_file_write p d : keeps same_dict (file_write p d).
Proof. intros w. reflexivity. Qed.

Lemma keeps_file_close p : keeps same_dict (file_close p).
Proof. intros w. reflexivity. Qed.

Create HintDb keeps discriminated.

#[local] Hint Resolve same_dict_refl same_dict_trans ui_only_refl ui_only_trans
  : keeps.
#[local] Hint Resolve keeps_updateButtons keeps_sd_exists keeps_sd_open_read
  keeps_sd_root keeps_nfc_getFirmwareVersion keeps_nfc_readPassiveTargetID
  keeps_nfc_AuthenticateBlock keeps_nfc_ReadDataBlock keeps_nfc_WriteDataBlock
  keeps_sd_begin keeps_sd_remove keeps_sd_open_write keeps_file_write
  keeps_file_close : keeps.

(** Splits a computation along its binds and branches, and closes the
    leaves with the facts collected in [keeps]. *)
Ltac keeps_step :=
  match goal with
  | |- keeps _ (bind _ _) =>
      apply keeps_bind; [solve [eauto with keeps] | | intros]
  | |- keeps _ (ret _) => apply keeps_ret; solve [eauto with keeps]
  | |- keeps _ waiting => apply keeps_waiting; solve [eauto with keeps]
  | |- keeps _ (emit _) => apply keeps_emit; solve [eauto with keeps]
  | |- keeps _ getDev => apply keeps_getDev; solve [eauto with keeps]
  | |- keeps _ (when _ _) => apply keeps_when; [solve [eauto with keeps] |]
  | |- keeps ui_only (setDev _) => apply keeps_setDev_ui; intros; reflexivity
  | |- keeps same_dict (setDev _) =>
      apply ui_only_same_dict, keeps_setDev_ui; intros; reflexivity
  | |- keeps _ (if ?c then _ else _) => destruct c
  | |- keeps _ (match ?x with _ => _ end) => destruct x
  | |- keeps _ (let '(_, _) := ?x in _) => destruct x
  | |- keeps same_dict _ => solve [eauto with keeps]
  | |- keeps same_dict _ => apply ui_only_same_dict; solve [eauto with keeps]
  | |- keeps ui_only _ => solve [eauto with keeps]
  end.

Ltac keeps_tac := repeat keeps_step.

Lemma keeps_displayInfo a b c : keeps ui_only (displayInfo a b c).
Proof. unfold displayInfo. keeps_tac. Qed.

Lemma keeps_pollWhile fuel cond : keeps ui_only (pollWhile fuel cond).
Proof. induction fuel as [|fuel IH]; cbn [pollWhile]; keeps_tac. Qed.

Lemma keeps_whilePolling cond : keeps ui_only (whilePolling cond).
Proof. intros w. apply keeps_pollWhile. Qed.

#[local] Hint Resolve keeps_displayInfo keeps_whilePolling : keeps.

Lemma keeps_waitForButtonPress : keeps ui_only waitForButtonPress.
Proof. unfold waitForButtonPress. keeps_tac. Qed.

Lemma keeps_confirmLoop fuel : keeps ui_only (confirmLoop fuel).
Proof. induction fuel as [|fuel IH]; cbn [confirmLoop]; keeps_tac. Qed.

Lemma keeps_confirmAction p : keeps ui_only (confirmAction p).
Proof.
  unfold confirmAction. keeps_tac. intros w. apply keeps_confirmLoop.
Qed.

#[local] Hint Resolve keeps_waitForButtonPress keeps_confirmAction : keeps.

(** *** No operation of the main loop writes the dictionary *)

Lemma keeps_authLoop uid len block : forall n i,
  keeps same_dict (authLoop n i uid len block).
Proof. induction n as [|n IH]; intros i; cbn [authLoop]; keeps_tac. Qed.

Lemma keeps_authenticateBlock uid len block :
  keeps same_dict (authenticateBlock uid len block).
Proof. unfold authenticateBlock. keeps_tac. apply keeps_authLoop. Qed.

#[local] Hint Resolve keeps_authenticateBlock : keeps.

Lemma keeps_readCard : keeps same_dict readCard.
Proof. unfold readCard. keeps_tac. Qed.

Lemma keeps_dumpLoop uid len f : forall blocks any,
  keeps same_dict (dumpLoop blocks uid len f any).
Proof.
  induction blocks as [|b blocks IH]; intros any; cbn [dumpLoop]; keeps_tac.
Qed.

#[local] Hint Resolve keeps_dumpLoop : keeps.

Lemma keeps_dumpToFile uid f : keeps same_dict (dumpToFile uid f).
Proof. unfold dumpToFile. keeps_tac. Qed.

#[local] Hint Resolve keeps_dumpToFile : keeps.

Lemma keeps_dumpCard : keeps same_dict dumpCard.
Proof. unfold dumpCard. keeps_tac. Qed.

Lemma keeps_readNDEF : keeps same_dict readNDEF.
Proof. unfold readNDEF. keeps_tac. Qed.

Lemma keeps_readWriteCard isWrite : keeps same_dict (readWriteCard isWrite).
Proof. unfold readWriteCard. keeps_tac. Qed.

Lemma keeps_eraseCard : keeps same_dict eraseCard.
Proof. unfold eraseCard. keeps_tac. Qed.

Lemma keeps_deleteFile f : keeps same_dict (deleteFile f).
Proof. unfold deleteFile. keeps_tac. Qed.

Lemma keeps_writeFileToCard f : keeps same_dict (writeFileToCard f).
Proof. unfold writeFileToCard. keeps_tac. Qed.

#[local] Hint Resolve keeps_readCard keeps_dumpCard keeps_readNDEF
  keeps_readWriteCard keeps_eraseCard keeps_deleteFile keeps_writeFileToCard
  : keeps.

Lemma keeps_fileViewLoop op files : forall fuel i,
  keeps same_dict (fileViewLoop fuel op files i).
Proof.
  induction fuel as [|fuel IH]; intros i; cbn [fileViewLoop]; keeps_tac.
Qed.

Lemma keeps_viewFiles op : keeps same_dict (viewFiles op).
Proof.
  unfold viewFiles. keeps_tac. intros w. apply keeps_fileViewLoop.
Qed.

#[local] Hint Resolve keeps_viewFiles : keeps.

Lemma keeps_executeSDMenuAction item : keeps same_dict (executeSDMenuAction item).
Proof. unfold executeSDMenuAction. keeps_tac. Qed.

Lemma keeps_executeMenuItem item : keeps same_dict (executeMenuItem item).
Proof. unfold executeMenuItem. keeps_tac. Qed.

#[local] Hint Resolve keeps_executeSDMenuAction keeps_executeMenuItem : keeps.

Lemma keeps_handleSDMenuInput : keeps same_dict handleSDMenuInput.
Proof. unfold handleSDMenuInput. keeps_tac. Qed.

Lemma keeps_handleMenuInput : keeps same_dict handleMenuInput.
Proof. unfold handleMenuInput. keeps_tac. Qed.

#[local] Hint Resolve keeps_handleSDMenuInput keeps_handleMenuInput : keeps.

Lemma keeps_handleInput : keeps same_dict handleInput.
Proof. unfold handleInput. keeps_tac. Qed.

Lemma keeps_drawCurrentView : keeps same_dict drawCurrentView.
Proof. unfold drawCurrentView. keeps_tac. Qed.

#[local] Hint Resolve keeps_handleInput keeps_drawCurrentView : keeps.

Lemma keeps_loop : keeps same_dict loop.
Proof. unfold loop. keeps_tac. Qed.

Lemma keeps_loops n : keeps same_dict (loops n).
Proof.
  induction n as [|n IH]; cbn [loops]; keeps_tac. apply keeps_loop.
Qed.

(** *** Start-up: loading the dictionary *)

Lemma reportMalformed_run lines (w : World R Sd) :
  reportMalformed lines w =
  mkRes (Some tt) w
    (List.map (fun line => EvSerial (txt "Malformed line in keys.txt: " ++ line)) lines).
Proof.
  revert w. induction lines as [|l lines IH]; intros w; [reflexivity|].
  cbn [reportMalformed]. unfold bind, emit. cbn [after value world events].
  rewrite IH. reflexivity.
Qed.

Lemma dictionary_defaults keys :
  dictionary (memcpy_defaults keys) 3 = defaultKeys.
Proof. reflexivity. Qed.

Lemma memcpy_defaults_length keys :
  List.length keys = 50%nat -> List.length (memcpy_defaults keys) = 50%nat.
Proof.
  intros H. unfold memcpy_defaults.
  rewrite List.length_app, List.length_skipn, H. reflexivity.
Qed.

(** [loadKeysFromSD], step by step. *)
Lemma loadKeysFromSD_run (w : World R Sd) :
  loadKeysFromSD w =
  match SD_open_read (sd w) "/keys.txt" with
  | None =>
      mkRes (Some tt)
            (with_dev w (set_keys (memcpy_defaults (keys (dev w))) 3 (dev w))) []
  | Some content =>
      let '(keys', n, log) := parseKeyFile content (keys (dev w)) in
      let w1 := with_dev w (set_keys keys' n (dev w)) in
      after
        (List.map (fun line =>
           EvSerial (txt "Malformed line in keys.txt: " ++ line)) log)
        (if Nat.eqb n 0 then
           after [EvDisplayInfo "Keyfile Error" "No valid keys found."
                                "Using defaults."]
             (bind waitForButtonPress
                (fun _ => setDev (fun d => set_keys (memcpy_defaults (keys d)) 3 d))
                (with_dev w1 (set_view VIEW_ACTION (dev w1))))
         else mkRes (Some tt) w1 [])
  end.
Proof.
  unfold loadKeysFromSD. rewrite bind_sd_open_read.
  destruct (SD_open_read (sd w) "/keys.txt") as [content|]; [|reflexivity].
  rewrite bind_getDev.
  destruct (parseKeyFile content (keys (dev w))) as [[keys' n] log].
  cbv iota beta zeta. rewrite bind_step, reportMalformed_run.
  cbn [value world events]. rewrite bind_setDev.
  destruct (Nat.eqb n 0); [|reflexivity].
  rewrite bind_displayInfo. reflexivity.
Qed.

(** What [loadKeysFromSD] leaves, once it has returned. *)
Lemma loadKeysFromSD_spec (w : World R Sd) :
  List.length (keys (dev w)) = 50%nat -> rows_ok (keys (dev w)) ->
  value (loadKeysFromSD w) = Some tt ->
  let d := dev (world (loadKeysFromSD w)) in
  List.length (keys d) = 50%nat /\ (1 <= numKeys d <= 50)%nat /\
  dictionary (keys d) (numKeys d) =
    match SD_open_read (sd w) "/keys.txt" with
    | None => defaultKeys
    | Some content =>
        match fst (classify (file_lines content) 0) with
        | [] => defaultKeys
        | loaded => loaded
        end
    end.
Proof.
  intros Hl Hrows. cbv zeta. rewrite loadKeysFromSD_run.
  destruct (SD_open_read (sd w) "/keys.txt") as [content|].
  2:{ intros _. cbn [world dev with_dev set_keys keys numKeys].
      rewrite memcpy_defaults_length by exact Hl.
      repeat split; lia. }
  destruct (parseKeyFile_spec content (keys (dev w)) Hl Hrows)
    as (keys' & n & log & E & Hl' & _ & Hn & Hd & _).
  rewrite E, <- Hd. cbv zeta.
  rewrite value_after, world_after.
  destruct n as [|n]; cbn [Nat.eqb].
  - set (w0 := with_dev _ (set_view VIEW_ACTION _)).
    rewrite value_after, world_after, bind_step.
    pose proof (keeps_waitForButtonPress w0) as (_ & _ & _ & Hk).
    destruct (value (waitForButtonPress w0)); [|discriminate].
    intros _. rewrite world_after.
    cbn [setDev world dev with_dev set_keys keys numKeys].
    assert (Hk2 : keys (dev (world (waitForButtonPress w0))) = keys')
      by (injection Hk; auto).
    rewrite Hk2, memcpy_defaults_length by exact Hl'.
    repeat split; try lia.
  - intros _. cbn [world dev with_dev set_keys keys numKeys].
    repeat split; try lia; try assumption.
    unfold dictionary. destruct (List.firstn (S n) keys') eqn:Ef; [|reflexivity].
    exfalso. apply (f_equal (@List.length _)) in Ef.
    rewrite List.length_firstn, Hl' in Ef. cbn [List.length] in Ef. lia.
Qed.

Lemma bind_returns {A B : Type} (m : M R Sd A) (f : A -> M R Sd B) w b :
  value (bind m f w) = Some b ->
  exists a, value (m w) = Some a /\
            value (f a (world (m w))) = Some b /\
            world (bind m f w) = world (f a (world (m w))).
Proof.
  rewrite bind_step. destruct (value (m w)) as [a|]; [|discriminate].
  intros H. exists a. repeat split. exact H.
Qed.

Lemma keeps_initDisplay : keeps same_dict initDisplay.
Proof. intros w. unfold initDisplay. destruct (display_ok w); reflexivity. Qed.

Lemma keeps_initNFC : keeps same_dict initNFC.
Proof. unfold initNFC. keeps_tac. Qed.

Lemma keeps_initSDCard : keeps same_dict initSDCard.
Proof. unfold initSDCard. keeps_tac. Qed.

#[local] Hint Resolve keeps_initDisplay keeps_initNFC keeps_initSDCard : keeps.

Lemma keeps_setup_until_load : keeps same_dict setup_until_load.
Proof. unfold setup_until_load. keeps_tac. Qed.

Lemma bind_ext {A B : Type} (m : M R Sd A) (f g : A -> M R Sd B) w :
  (forall a w', f a w' = g a w') -> bind m f w = bind m g w.
Proof. intros H. rewrite !bind_step. destruct (value (m w)); [rewrite H|]; reflexivity. Qed.

Lemma setup_split (w : World R Sd) :
  setup w = bind setup_until_load (fun _ => loadKeysFromSD) w.
Proof.
  unfold setup, setup_until_load. rewrite bind_bind.
  apply bind_ext. intros _ w'. rewrite bind_bind. reflexivity.
Qed.

Lemma file_keys_classify content :
  file_keys content = fst (classify (file_lines content) 0).
Proof.
  destruct (parseKeyFile_spec content keys0 eq_refl keys0_rows_ok)
    as (keys' & n & log & E & _ & _ & _ & Hd & _).
  unfold file_keys. rewrite E. exact Hd.
Qed.

(** C6: once [setup] has returned from the power-on state, the dictionary
    holds between 1 and 50 keys: the keys of [/keys.txt] when the file
    opens and yields at least one, and otherwise -- file absent, or present
    without a valid key -- the three built-in keys, the first of which is
    the all-0xFF key; and no number of turns of [loop], in whatever world
    holding that dictionary, changes it. *)
Theorem dictionary_never_empty (w : World R Sd) :
  dev w = device0 ->
  value (setup w) = Some tt ->
  let w1 := world (setup w) in
  let dict := dictionary (keys (dev w1)) (numKeys (dev w1)) in
  dict <> [] /\ (1 <= numKeys (dev w1) <= 50)%nat /\
  dict = match SD_open_read (sd (world (setup_until_load w))) "/keys.txt" with
         | None => defaultKeys
         | Some content =>
             match file_keys content with
             | [] => defaultKeys
             | loaded => loaded
             end
         end /\
  (List.length defaultKeys = 3%nat /\
   List.nth 0 defaultKeys [] = [255; 255; 255; 255; 255; 255]) /\
  (forall n (w' : World R Sd),
     dict_of (dev w') = dict_of (dev w1) ->
     dictionary (keys (dev (world (loops n w'))))
                (numKeys (dev (world (loops n w')))) = dict).
Proof.
  intros Hdev Hret w1 dict.
  assert (Hsplit := setup_split w).
  rewrite Hsplit in Hret. apply bind_returns in Hret.
  destruct Hret as ([] & _ & Hload & Hw).
  set (w0 := world (setup_until_load w)) in *.
  assert (Hk0 : keys (dev w0) = keys0).
  { pose proof (keeps_setup_until_load w) as Hk. unfold same_dict in Hk.
    fold w0 in Hk. injection Hk as Hk _. rewrite Hk, Hdev. reflexivity. }
  destruct (loadKeysFromSD_spec w0) as (Hlen & Hn & Hd); auto.
  { rewrite Hk0. reflexivity. }
  { rewrite Hk0. apply keys0_rows_ok. }
  assert (Hw1 : w1 = world (loadKeysFromSD w0)).
  { unfold w1. rewrite Hsplit. exact Hw. }
  subst dict. rewrite Hw1.
  split; [|split; [exact Hn | split; [|split]]].
  - unfold dictionary. intros Hnil.
    apply (f_equal (@List.length _)) in Hnil.
    rewrite List.length_firstn, Hlen in Hnil. cbn [List.length] in Hnil. lia.
  - rewrite Hd. destruct (SD_open_read (sd w0) "/keys.txt"); [|reflexivity].
    rewrite file_keys_classify. reflexivity.
  - split; reflexivity.
  - intros n w' Hsame.
    pose proof (keeps_loops n w') as Hk. unfold same_dict in Hk.
    rewrite Hsame in Hk. unfold dict_of in Hk.
    injection Hk as Hk1 Hk2. rewrite Hk1, Hk2. reflexivity.
Qed.

(** *** The confirmation gate *)

Lemma updateButtons_run (w : World R Sd) :
  updateButtons w =
  match input w with
  | [] => mkRes None w []
  | _ :: _ => mkRes (Some tt) (polled w) []
  end.
Proof. unfold updateButtons, polled. destruct (input w); reflexivity. Qed.

Lemma bind_updateButtons {B : Type} (f : unit -> M R Sd B) w :
  bind updateButtons f w =
  match input w with
  | [] => mkRes None w []
  | _ :: _ => f tt (polled w)
  end.
Proof.
  rewrite bind_step, updateButtons_run.
  destruct (input w); cbn [value world events]; [reflexivity | apply after_nil].
Qed.

Lemma input_polled (w : World R Sd) :
  List.length (input (polled w)) = Nat.pred (List.length (input w)).
Proof.
  unfold polled. destruct (input w) eqn:E; cbn [input with_input];
    rewrite ?E; reflexivity.
Qed.

Lemma polls_S k (w : World R Sd) : polls (S k) w = polled (polls k w).
Proof.
  revert w. induction k as [|k IH]; intros w; [reflexivity|].
  cbn [polls] in *. rewrite <- IH. reflexivity.
Qed.

(** Polling never says anything. *)
Lemma pollWhile_events fuel cond (w : World R Sd) :
  events (pollWhile fuel cond w) = [].
Proof.
  revert w. induction fuel as [|fuel IH]; intros w; [reflexivity|].
  cbn [pollWhile]. rewrite bind_getDev.
  destruct (cond (dev w)); [|reflexivity].
  rewrite bind_updateButtons. destruct (input w); [reflexivity | apply IH].
Qed.

Lemma whilePolling_events cond (w : World R Sd) :
  events (whilePolling cond w) = [].
Proof. apply pollWhile_events. Qed.

Lemma waitForButtonPress_events (w : World R Sd) :
  events (waitForButtonPress w) = [].
Proof.
  unfold waitForButtonPress. rewrite bind_updateButtons.
  destruct (input w); [reflexivity|].
  rewrite bind_step.
  destruct (value (whilePolling anyPressed (polled w)));
    cbn [events]; rewrite ?events_after, !whilePolling_events; reflexivity.
Qed.

(** The drain: polls go by as long as they show an edge. *)
Lemma pollWhile_drains : forall k fuel (w : World R Sd),
  (k <= List.length (input w))%nat -> (List.length (input w) < fuel)%nat ->
  (forall j, (j < k)%nat -> anyPressed (dev (polls j w)) = true) ->
  anyPressed (dev (polls k w)) = false ->
  pollWhile fuel anyPressed w = mkRes (Some tt) (polls k w) [].
Proof.
  induction k as [|k IH]; intros fuel w Hk Hf Hj Hq.
  - destruct fuel; [lia|]. cbn [pollWhile polls] in *.
    rewrite bind_getDev, Hq. reflexivity.
  - destruct fuel; [lia|]. cbn [pollWhile].
    rewrite bind_getDev.
    pose proof (Hj 0%nat ltac:(lia)) as H0. cbn [polls] in H0. rewrite H0.
    rewrite bind_updateButtons.
    destruct (input w) as [|s rest] eqn:Ei; [simpl in Hk; lia|].
    cbn [polls]. apply IH.
    + rewrite input_polled, Ei. simpl in *. lia.
    + rewrite input_polled, Ei. simpl in *. lia.
    + intros j Hlt. apply (Hj (S j)). lia.
    + exact Hq.
Qed.

(** The wait: quiet polls go by; the first poll that shows an edge decides. *)
Lemma confirmLoop_resolves : forall n fuel (w : World R Sd),
  (S n <= List.length (input w))%nat -> (List.length (input w) <= fuel)%nat ->
  (forall j, (1 <= j <= n)%nat -> anyPressed (dev (polls j w)) = false) ->
  anyPressed (dev (polls (S n) w)) = true ->
  confirmLoop fuel w =
  mkRes (Some (pressed (btnSelect (dev (polls (S n) w))))) (polls (S n) w) [].
Proof.
  induction n as [|n IH]; intros fuel w Hn Hf Hj Hp.
  - destruct fuel; [lia|]. cbn [confirmLoop].
    rewrite bind_updateButtons.
    destruct (input w) as [|s rest] eqn:Ei; [simpl in Hn; lia|].
    rewrite bind_getDev. cbn [polls] in *.
    destruct (pressed (btnSelect (dev (polled w)))) eqn:Es; [reflexivity|].
    unfold anyPressed in Hp. rewrite Es in Hp.
    destruct (pressed (btnUp (dev (polled w)))),
             (pressed (btnDown (dev (polled w)))),
             (pressed (btnBack (dev (polled w)))); try discriminate; reflexivity.
  - destruct fuel; [lia|]. cbn [confirmLoop].
    rewrite bind_updateButtons.
    destruct (input w) as [|s rest] eqn:Ei; [simpl in Hn; lia|].
    rewrite bind_getDev.
    pose proof (Hj 1%nat ltac:(lia)) as Hq. cbn [polls] in Hq.
    unfold anyPressed in Hq.
    destruct (pressed (btnUp (dev (polled w)))),
             (pressed (btnDown (dev (polled w)))),
             (pressed (btnSelect (dev (polled w)))),
             (pressed (btnBack (dev (polled w)))); try discriminate.
    cbn [orb]. cbn [polls]. apply IH.
    + rewrite input_polled, Ei. simpl in *. lia.
    + rewrite input_polled, Ei. simpl in *. lia.
    + intros j Hlt. apply (Hj (S j)). lia.
    + exact Hp.
Qed.

Lemma confirmLoop_events fuel (w : World R Sd) :
  events (confirmLoop fuel w) = [].
Proof.
  revert w. induction fuel as [|fuel IH]; intros w; [reflexivity|].
  cbn [confirmLoop]. rewrite bind_updateButtons.
  destruct (input w); [reflexivity|]. rewrite bind_getDev.
  destruct (pressed (btnSelect (dev (polled w)))); [reflexivity|].
  destruct (pressed (btnUp (dev (polled w))) || pressed (btnDown (dev (polled w)))
            || pressed (btnBack (dev (polled w)))); [reflexivity | apply IH].
Qed.

(** The gate shows its prompt, and says what it answered when it answers. *)
Lemma confirmAction_events p (w : World R Sd) :
  events (confirmAction p w) =
  EvConfirmPrompt p ::
  match value (confirmAction p w) with
  | Some accepted => [EvConfirmed p accepted]
  | None => []
  end.
Proof.
  unfold confirmAction. rewrite bind_setDev, bind_emit, bind_updateButtons.
  set (w' := with_dev w (set_view VIEW_CONFIRM (dev w))).
  destruct (input w'); [reflexivity|].
  rewrite bind_step.
  pose proof (whilePolling_events anyPressed (polled w')) as He.
  destruct (value (whilePolling anyPressed (polled w'))); rewrite He;
    [|reflexivity].
  rewrite after_nil, bind_step.
  set (w2 := world (whilePolling anyPressed (polled w'))).
  pose proof (confirmLoop_events (List.length (input w2)) w2) as Hc.
  destruct (value (confirmLoop (List.length (input w2)) w2)); rewrite Hc;
    reflexivity.
Qed.

Lemma poll_device_stale s u dn se b v d :
  poll_device s (set_view v (set_pressed u dn se b d)) =
  poll_device s (set_view v d).
Proof. destruct d as [? ? ? ? ? ? [] [] [] []]. reflexivity. Qed.

(** Whatever [pressed] flags the gate finds on entry, its first poll clears
    them: they have no part in the answer. *)
Lemma confirmAction_stale p u dn se b (w : World R Sd) :
  value (confirmAction p (with_dev w (set_pressed u dn se b (dev w)))) =
    value (confirmAction p w) /\
  events (confirmAction p (with_dev w (set_pressed u dn se b (dev w)))) =
    events (confirmAction p w).
Proof.
  assert (H : input w = [] \/
              confirmAction p (with_dev w (set_pressed u dn se b (dev w))) =
              confirmAction p w).
  { unfold confirmAction. rewrite !bind_setDev, !bind_emit, !bind_updateButtons.
    cbn [input with_dev dev]. destruct (input w) as [|s rest] eqn:Ei; [left; reflexivity|].
    right. unfold polled. cbn [input with_dev dev radio sd display_ok].
    rewrite Ei, poll_device_stale. reflexivity. }
  destruct H as [Hi | H]; [|rewrite H; split; reflexivity].
  unfold confirmAction. rewrite !bind_setDev, !bind_emit, !bind_updateButtons.
  cbn [input with_dev dev]. rewrite Hi. split; reflexivity.
Qed.

(** The gate, run: the polls that show an edge from the first one on are
    drained, up to the first quiet poll [k]; then quiet polls go by, and
    the next poll that shows an edge, [k + S n], gives the answer: true
    when it shows Select, false otherwise. *)
Lemma confirmAction_run p k n (w : World R Sd) :
  let w' := with_dev w (set_view VIEW_CONFIRM (dev w)) in
  (1 <= k)%nat -> (k + S n <= List.length (input w))%nat ->
  (forall j, (1 <= j < k)%nat -> anyPressed (dev (polls j w')) = true) ->
  (forall j, (k <= j <= k + n)%nat -> anyPressed (dev (polls j w')) = false) ->
  anyPressed (dev (polls (k + S n) w')) = true ->
  let answer := pressed (btnSelect (dev (polls (k + S n) w'))) in
  confirmAction p w =
  mkRes (Some answer) (polls (k + S n) w')
        [EvConfirmPrompt p; EvConfirmed p answer].
Proof.
  intros w' Hk Hlen Hdrain Hquiet Hedge answer.
  unfold confirmAction. rewrite bind_setDev, bind_emit, bind_updateButtons.
  fold w'. change (input w') with (input w).
  destruct (input w) as [|s rest] eqn:Ei; [simpl in Hlen; lia|].
  assert (Hin : List.length (input (polled w')) = List.length rest).
  { rewrite input_polled. change (input w') with (input w). rewrite Ei. reflexivity. }
  assert (Hpolls : forall j, polls j (polled w') = polls (S j) w') by reflexivity.
  assert (Hdr : whilePolling anyPressed (polled w') =
                mkRes (Some tt) (polls k w') []).
  { destruct k as [|k]; [lia|]. unfold whilePolling.
    rewrite (pollWhile_drains k); [rewrite Hpolls; reflexivity | | | |].
    - rewrite Hin. simpl in Hlen. lia.
    - lia.
    - intros j Hj. rewrite Hpolls. apply Hdrain. lia.
    - rewrite Hpolls. apply Hquiet. lia. }
  rewrite bind_step, Hdr. cbn [value world events]. rewrite after_nil.
  assert (Hpk : forall j, polls j (polls k w') = polls (k + j) w').
  { clear. generalize w'. induction k as [|k IH]; intros w0 j; [reflexivity|].
    cbn [polls Nat.add]. apply IH. }
  assert (Hleft : (List.length (input (polls k w')) + k = List.length (input w))%nat).
  { clear - Hlen Ei. change (input w) with (input w').
    assert (G : forall j (w0 : World R Sd), (j <= List.length (input w0))%nat ->
                (List.length (input (polls j w0)) + j = List.length (input w0))%nat).
    { induction j as [|j IH]; intros w0 Hj; cbn [polls]; [lia|].
      pose proof (input_polled w0) as Hp.
      pose proof (IH (polled w0) ltac:(rewrite Hp; lia)) as Hi. lia. }
    apply G. change (input w') with (input w). rewrite Ei. lia. }
  rewrite Ei in Hleft.
  rewrite bind_step.
  rewrite (confirmLoop_resolves n).
  - rewrite Hpk. cbn [value world events after List.app].
    rewrite bind_emit, ret_run. reflexivity.
  - lia.
  - lia.
  - intros j Hj. rewrite Hpk. apply Hquiet. lia.
  - rewrite Hpk. exact Hedge.
Qed.

(** *** Callers of the gate, when it says no *)

(** The world in which a caller goes on after the gate has answered and
    "Cancelled" is shown. *)
Lemma cancelled_tail a b c (w : World R Sd) :
  let r := bind (displayInfo a b c) (fun _ => waitForButtonPress) w in
  events r = [EvDisplayInfo a b c] /\
  radio (world r) = radio w /\ sd (world r) = sd w.
Proof.
  cbv zeta. rewrite bind_displayInfo, events_after, world_after.
  rewrite waitForButtonPress_events.
  pose proof (keeps_waitForButtonPress (with_dev w (set_view VIEW_ACTION (dev w))))
    as (Hr & Hs & _).
  rewrite Hr, Hs. repeat split.
Qed.

Lemma eraseCard_declined (w : World R Sd) :
  value (confirmAction "Erase Block 4?"
           (with_dev w (set_view VIEW_ACTION (dev w)))) = Some false ->
  events (eraseCard w) =
    [EvDisplayInfo "Erase Block" "Place card..." "";
     EvConfirmPrompt "Erase Block 4?"; EvConfirmed "Erase Block 4?" false;
     EvDisplayInfo "Cancelled" "" ""] /\
  radio (world (eraseCard w)) = radio w /\ sd (world (eraseCard w)) = sd w.
Proof.
  intros Hno. set (w1 := with_dev w (set_view VIEW_ACTION (dev w))) in *.
  unfold eraseCard. rewrite bind_displayInfo. fold w1.
  rewrite bind_step, Hno. cbn [negb].
  rewrite !events_after, !world_after, confirmAction_events, Hno.
  pose proof (keeps_confirmAction "Erase Block 4?" w1) as (Hr & Hs & _).
  destruct (cancelled_tail "Cancelled" "" ""
              (world (confirmAction "Erase Block 4?" w1))) as (He & Hr' & Hs').
  rewrite He, Hr', Hs', Hr, Hs. repeat split.
Qed.

Lemma deleteFile_declined filename (w : World R Sd) :
  let prompt := ("Delete " ++ String.substring 0 10 filename ++ "?")%string in
  value (confirmAction prompt w) = Some false ->
  events (deleteFile filename w) =
    [EvConfirmPrompt prompt; EvConfirmed prompt false;
     EvDisplayInfo "Cancelled" "Delete cancelled." ""] /\
  radio (world (deleteFile filename w)) = radio w /\
  sd (world (deleteFile filename w)) = sd w.
Proof.
  intros prompt Hno.
  unfold deleteFile. fold prompt. rewrite bind_step, Hno.
  rewrite !events_after, !world_after, confirmAction_events, Hno.
  pose proof (keeps_confirmAction prompt w) as (Hr & Hs & _).
  destruct (cancelled_tail "Cancelled" "Delete cancelled." ""
              (world (confirmAction prompt w))) as (He & Hr' & Hs').
  rewrite He, Hr', Hs', Hr, Hs. repeat split.
Qed.

Lemma dumpCard_declined uid rd (w : World R Sd) :
  readPassiveTargetID (radio w) 2000 = (Some uid, rd) ->
  SD_exists (sd w) (dumpFilename uid) = true ->
  value (confirmAction "Overwrite file?"
           (with_radio (with_dev w (set_view VIEW_ACTION (dev w))) rd)) = Some false ->
  events (dumpCard w) =
    [EvDisplayInfo "Dump Card" "Place card on reader" "";
     EvDetect 2000 (Some uid);
     EvConfirmPrompt "Overwrite file?"; EvConfirmed "Overwrite file?" false;
     EvDisplayInfo "Cancelled" "Dump cancelled." ""] /\
  sd (world (dumpCard w)) = sd w.
Proof.
  intros Hdet Hex Hno.
  set (w1 := with_radio (with_dev w (set_view VIEW_ACTION (dev w))) rd) in *.
  unfold dumpCard. rewrite bind_displayInfo, bind_nfc_readPassiveTargetID.
  cbn [radio with_dev]. rewrite Hdet. cbn [fst snd]. fold w1.
  rewrite bind_sd_exists. change (sd w1) with (sd w). rewrite Hex.
  rewrite bind_step, Hno. cbn [negb].
  rewrite !events_after, !world_after, confirmAction_events, Hno.
  pose proof (keeps_confirmAction "Overwrite file?" w1) as (_ & Hs & _).
  destruct (cancelled_tail "Cancelled" "Dump cancelled." ""
              (world (confirmAction "Overwrite file?" w1))) as (He & _ & Hs').
  rewrite He, Hs', Hs. repeat split.
Qed.

(** C7: the gate, for every prompt and every world in which its input
    lasts long enough.  Its first poll clears whatever [pressed] flags were
    pending at entry, and the polls that show an edge from the first one on
    are drained without resolving anything, up to the first quiet poll [k];
    after [n] further quiet polls, the next poll that shows an edge decides:
    the gate returns true when Select is pressed there, and false when Back
    is pressed and Select is not.  When it returns false, [eraseCard],
    [deleteFile] and [dumpCard] show "Cancelled" and do nothing else: no
    block is written, no file removed or opened, and the storage is as it
    was. *)
Theorem confirm_gate_drains_then_decides
    (p : string) (k n : nat) (w : World R Sd) :
  let w' := with_dev w (set_view VIEW_CONFIRM (dev w)) in
  (1 <= k)%nat -> (k + S n <= List.length (input w))%nat ->
  (forall j, (1 <= j < k)%nat -> anyPressed (dev (polls j w')) = true) ->
  (forall j, (k <= j <= k + n)%nat -> anyPressed (dev (polls j w')) = false) ->
  anyPressed (dev (polls (k + S n) w')) = true ->
  let decisive := dev (polls (k + S n) w') in
  let answer := pressed (btnSelect decisive) in
  confirmAction p w =
    mkRes (Some answer) (polls (k + S n) w')
          [EvConfirmPrompt p; EvConfirmed p answer] /\
  (forall u dn se b,
     value (confirmAction p (with_dev w (set_pressed u dn se b (dev w))))
     = Some answer) /\
  (pressed (btnSelect decisive) = true -> value (confirmAction p w) = Some true) /\
  (pressed (btnBack decisive) = true -> pressed (btnSelect decisive) = false ->
   value (confirmAction p w) = Some false) /\
  (answer = false ->
   (forall w0,
      p = "Erase Block 4?"%string ->
      w = with_dev w0 (set_view VIEW_ACTION (dev w0)) ->
      events (eraseCard w0) =
        [EvDisplayInfo "Erase Block" "Place card..." "";
         EvConfirmPrompt p; EvConfirmed p false;
         EvDisplayInfo "Cancelled" "" ""] /\
      radio (world (eraseCard w0)) = radio w0 /\
      sd (world (eraseCard w0)) = sd w0) /\
   (forall filename,
      p = ("Delete " ++ String.substring 0 10 filename ++ "?")%string ->
      events (deleteFile filename w) =
        [EvConfirmPrompt p; EvConfirmed p false;
         EvDisplayInfo "Cancelled" "Delete cancelled." ""] /\
      radio (world (deleteFile filename w)) = radio w /\
      sd (world (deleteFile filename w)) = sd w) /\
   (forall w0 uid rd,
      p = "Overwrite file?"%string ->
      readPassiveTargetID (radio w0) 2000 = (Some uid, rd) ->
      SD_exists (sd w0) (dumpFilename uid) = true ->
      w = with_radio (with_dev w0 (set_view VIEW_ACTION (dev w0))) rd ->
      events (dumpCard w0) =
        [EvDisplayInfo "Dump Card" "Place card on reader" "";
         EvDetect 2000 (Some uid);
         EvConfirmPrompt p; EvConfirmed p false;
         EvDisplayInfo "Cancelled" "Dump cancelled." ""] /\
      sd (world (dumpCard w0)) = sd w0)).
Proof.
  intros w' Hk Hlen Hdrain Hquiet Hedge decisive answer.
  pose proof (confirmAction_run p k n w Hk Hlen Hdrain Hquiet Hedge) as Hrun.
  fold w' decisive answer in Hrun.
  assert (Hv : value (confirmAction p w) = Some answer) by (rewrite Hrun; reflexivity).
  split; [exact Hrun|]. split; [|split; [|split]].
  - intros u dn se b.
    destruct (confirmAction_stale p u dn se b w) as [Hs _]. rewrite Hs. exact Hv.
  - intros Hs. rewrite Hv. unfold answer. rewrite Hs. reflexivity.
  - intros _ Hs. rewrite Hv. unfold answer. rewrite Hs. reflexivity.
  - intros Hno. rewrite Hno in Hv. split; [|split].
    + intros w0 Hp Hw. subst p w. apply eraseCard_declined. exact Hv.
    + intros filename Hp. subst p. apply deleteFile_declined. exact Hv.
    + intros w0 uid rd Hp Hdet Hex Hw. subst p w.
      apply (dumpCard_declined uid rd w0 Hdet Hex Hv).
Qed.

(** C9: at the poll that decides the gate, Select not being pressed means
    that Up, Down or Back is, and the gate then returns false; so a press
    of Up or of Down cancels just as Back does, and the gate returns false
    exactly when the deciding press is not Select. *)
Theorem confirm_gate_up_down_cancel
    (p : string) (k n : nat) (w : World R Sd) :
  let w' := with_dev w (set_view VIEW_CONFIRM (dev w)) in
  (1 <= k)%nat -> (k + S n <= List.length (input w))%nat ->
  (forall j, (1 <= j < k)%nat -> anyPressed (dev (polls j w')) = true) ->
  (forall j, (k <= j <= k + n)%nat -> anyPressed (dev (polls j w')) = false) ->
  anyPressed (dev (polls (k + S n) w')) = true ->
  let decisive := dev (polls (k + S n) w') in
  (pressed (btnUp decisive) = true \/ pressed (btnDown decisive) = true ->
   pressed (btnSelect decisive) = false ->
   value (confirmAction p w) = Some false /\
   events (confirmAction p w) = [EvConfirmPrompt p; EvConfirmed p false]) /\
  (pressed (btnSelect decisive) = false ->
   pressed (btnUp decisive) || pressed (btnDown decisive)
   || pressed (btnBack decisive) = true) /\
  (value (confirmAction p w) = Some false <-> pressed (btnSelect decisive) = false).
Proof.
  intros w' Hk Hlen Hdrain Hquiet Hedge decisive.
  pose proof (confirmAction_run p k n w Hk Hlen Hdrain Hquiet Hedge) as Hrun.
  fold w' decisive in Hrun. cbv zeta in Hrun.
  split; [|split].
  - intros _ Hs. rewrite Hrun, Hs. split; reflexivity.
  - intros Hs. fold decisive in Hedge. unfold anyPressed in Hedge.
    rewrite Hs in Hedge.
    destruct (pressed (btnUp decisive)), (pressed (btnDown decisive)),
             (pressed (btnBack decisive)); try discriminate; reflexivity.
  - rewrite Hrun. cbn [value]. split; intros H; [injection H; auto | rewrite H; reflexivity].
Qed.

(** *** The dump *)

Lemma authLoop_runs uid uidLen block : forall n i (w : World R Sd),
  exists res rd evs,
    authLoop n i uid uidLen block w = mkRes (Some res) (with_radio w rd) evs /\
    List.forallb is_auth evs = true /\ res = List.existsb auth_ok evs.
Proof.
  induction n as [|n IH]; intros i w.
  - exists false, (radio w), []. split; [destruct w; reflexivity|]. split; reflexivity.
  - set (key := List.nth i (keys (dev w)) []).
    cbn [authLoop]. rewrite bind_getDev. fold key.
    rewrite bind_nfc_AuthenticateBlock. cbv zeta.
    destruct (mifareclassic_AuthenticateBlock (radio w) uid uidLen block 0 key)
      as [okA rA].
    cbn [fst snd]. destruct okA.
    + exists true, rA, [EvAuth block 0 key true].
      split; [reflexivity | split; reflexivity].
    + rewrite bind_nfc_AuthenticateBlock. cbv zeta.
      cbn [radio with_radio].
      destruct (mifareclassic_AuthenticateBlock rA uid uidLen block 1 key)
        as [okB rB].
      cbn [fst snd]. destruct okB.
      * exists true, rB, [EvAuth block 0 key false; EvAuth block 1 key true].
        split; [reflexivity | split; reflexivity].
      * destruct (IH (S i) (with_radio w rB)) as (res & rd & evs & E & Ha & Hr).
        change (with_radio (with_radio w rA) rB) with (with_radio w rB).
        rewrite E. rewrite !after_mkRes.
        exists res, rd, (EvAuth block 0 key false :: EvAuth block 1 key false :: evs).
        split; [reflexivity|]. split; [exact Ha | exact Hr].
Qed.

Lemma authenticateBlock_runs uid uidLen block (w : World R Sd) :
  exists res rd evs,
    authenticateBlock uid uidLen block w = mkRes (Some res) (with_radio w rd) evs /\
    List.forallb is_auth evs = true /\ res = List.existsb auth_ok evs.
Proof.
  unfold authenticateBlock. rewrite bind_getDev. apply authLoop_runs.
Qed.

Lemma block_reads_app a b : block_reads (a ++ b) = block_reads a ++ block_reads b.
Proof. apply List.flat_map_app. Qed.

Lemma file_writes_app a b : file_writes (a ++ b) = file_writes a ++ file_writes b.
Proof. apply List.flat_map_app. Qed.

Lemma auth_events_silent evs :
  List.forallb is_auth evs = true ->
  block_reads evs = [] /\ file_writes evs = [] /\
  List.forallb (fun e => negb (is_shown e)) evs = true.
Proof.
  induction evs as [|e evs IH]; [repeat split|].
  cbn [List.forallb]. intros H. apply Bool.andb_true_iff in H as [He Hr].
  destruct (IH Hr) as (H1 & H2 & H3).
  destruct e; try discriminate. cbn. rewrite H3. repeat split; assumption.
Qed.

Lemma block16_length data : List.length (block16 data) = 16%nat.
Proof.
  unfold block16. rewrite List.length_firstn, List.length_app.
  unfold zeros16. rewrite List.repeat_length. lia.
Qed.

Lemma record_of_buffer_length data :
  List.length (record_of (option_map block16 data)) = 16%nat.
Proof. destruct data; [apply block16_length | reflexivity]. Qed.

(** The loop of the dump: one read and one record of sixteen bytes per
    block, in order; the record is what the read returned, or the zero
    placeholder when the read failed. *)
Lemma dumpLoop_run uid uidLen filename : forall blocks any (w : World R Sd),
  exists res w' evs,
    dumpLoop blocks uid uidLen filename any w = mkRes (Some res) w' evs /\
    dev w' = dev w /\ input w' = input w /\ display_ok w' = display_ok w /\
    List.map fst (block_reads evs) = blocks /\
    file_writes evs =
      List.map (fun br => (filename, record_of (snd br))) (block_reads evs) /\
    List.Forall (fun fw => List.length (snd fw) = 16%nat) (file_writes evs) /\
    res = any || List.existsb auth_ok evs /\
    List.forallb (fun e => negb (is_shown e)) evs = true.
Proof.
  induction blocks as [|block blocks IH]; intros any w.
  - exists any, w, []. cbn. rewrite Bool.orb_false_r. repeat split. constructor.
  - cbn [dumpLoop]. rewrite bind_emit, bind_step.
    destruct (authenticateBlock_runs uid uidLen block w)
      as (ok & rd & aevs & E & Ha & Hok).
    rewrite E. cbn [value world events].
    rewrite bind_nfc_ReadDataBlock. cbv zeta.
    set (buffer := option_map block16 _).
    set (w1 := with_radio (with_radio w rd) _).
    set (any' := if ok then true else any).
    assert (Hw : bind (match buffer with
                       | Some data => file_write filename data
                       | None => file_write filename zeros16
                       end)
                      (fun _ => dumpLoop blocks uid uidLen filename any') w1 =
                 after [EvFileWrite filename (record_of buffer)]
                   (dumpLoop blocks uid uidLen filename any'
                      (with_sd w1 (File_write (sd w1) filename (record_of buffer))))).
    { destruct buffer; reflexivity. }
    rewrite Hw. clear Hw.
    destruct (IH any' (with_sd w1 (File_write (sd w1) filename (record_of buffer))))
      as (res & w' & evs & E' & Hd & Hi & Ho & Hb & Hf & Hl & Hr & Hs).
    rewrite E'. rewrite !after_mkRes.
    destruct (auth_events_silent aevs Ha) as (Hab & Haf & Has).
    exists res, w', ([EvProgressBar block] ++ aevs ++ [EvReadBlock block buffer] ++
                     [EvFileWrite filename (record_of buffer)] ++ evs).
    split; [reflexivity|].
    rewrite !block_reads_app, !file_writes_app, Hab, Haf.
    cbn [block_reads file_writes List.flat_map List.app List.map fst snd].
    repeat split; try assumption.
    + rewrite Hb. reflexivity.
    + rewrite Hf. reflexivity.
    + constructor; [apply record_of_buffer_length | exact Hl].
    + rewrite Hr. unfold any'. rewrite Hok.
      cbn [List.existsb auth_ok orb]. rewrite List.existsb_app.
      cbn [List.existsb auth_ok orb].
      destruct (List.existsb auth_ok aevs), any, (List.existsb auth_ok evs);
        reflexivity.
    + cbn [List.forallb is_shown negb andb]. rewrite List.forallb_app, Has.
      cbn [List.forallb is_shown negb andb]. exact Hs.
Qed.

Lemma dumpToFile_not_opened uid filename (w : World R Sd) :
  fst (SD_open_write (sd w) filename) = false ->
  events (dumpToFile uid filename w) =
    [EvSdOpenWrite filename false; EvDisplayInfo "SD Error" "Cannot create file." ""].
Proof.
  intros Hno. unfold dumpToFile. rewrite bind_sd_open_write, Hno. cbn [negb].
  rewrite bind_displayInfo, !events_after, waitForButtonPress_events. reflexivity.
Qed.

Lemma dumpToFile_opened uid filename (w : World R Sd) :
  fst (SD_open_write (sd w) filename) = true ->
  exists body,
    events (dumpToFile uid filename w) =
      [EvSdOpenWrite filename true; EvDisplayInfo "Dumping Card..." filename ""]
      ++ body
      ++ [EvFileClose filename; dump_report filename (List.existsb auth_ok body)] /\
    dump_body filename body.
Proof.
  intros Hok. unfold dumpToFile. rewrite bind_sd_open_write, Hok. cbn [negb].
  rewrite bind_displayInfo, bind_step.
  set (w1 := with_dev _ (set_view VIEW_ACTION _)).
  destruct (dumpLoop_run uid (Z.of_nat (List.length uid)) filename (range 64) false w1)
    as (res & w' & body & E & _ & _ & _ & Hb & Hf & Hl & Hr & Hs).
  rewrite E. cbn [value world events]. rewrite bind_file_close.
  exists body. split; [|repeat split; assumption].
  cbn [orb] in Hr. subst res. unfold dump_report.
  rewrite !events_after.
  destruct (List.existsb auth_ok body); rewrite bind_displayInfo, events_after,
    waitForButtonPress_events; cbn [List.app]; reflexivity.
Qed.

Lemma In_singleton_tail {A : Type} (x a b : A) : List.In x [a; b] -> x = a \/ x = b.
Proof. simpl. intuition. Qed.






(** *** Writing a file to the card *)



(** *** The file browser *)

(** The file list, run: polls that neither leave nor select move the
    selection and redraw; the poll that shows Select alone runs the
    operation on the selected name. *)
Lemma fileViewLoop_browse op names : forall m fuel (w : World R Sd) idx,
  (S m <= List.length (input w))%nat -> (List.length (input w) <= fuel)%nat ->
  (forall j, (1 <= j <= m)%nat -> nav_stays (dev (polls j w)) = true) ->
  nav_selects (dev (polls (S m) w)) = true ->
  let total := Z.of_nat (List.length names) in
  let i := nav_index m total w idx in
  fileViewLoop fuel op names idx w =
  after (nav_draws m (fileListTitle op) names w idx)
    (bind (file_action op ("/" ++ List.nth (Z.to_nat i) names ""%string)%string)
          (fun _ => emit (EvDrawFileList (fileListTitle op) (shownWindow names i) i))
          (polls (S m) w)).
Proof.
  induction m as [|m IH]; intros fuel w idx Hm Hf Hstay Hsel; cbv zeta.
  - destruct fuel; [lia|]. cbn [fileViewLoop nav_draws nav_index polls].
    rewrite bind_updateButtons.
    destruct (input w) as [|s rest] eqn:Ei; [simpl in Hm; lia|].
    rewrite bind_getDev. cbn [polls] in Hsel. unfold nav_selects in Hsel.
    destruct (pressed (btnBack (dev (polled w)))); [discriminate|].
    destruct (pressed (btnUp (dev (polled w)))); [discriminate|].
    destruct (pressed (btnDown (dev (polled w)))); [discriminate|].
    destruct (pressed (btnSelect (dev (polled w)))); [|discriminate].
    rewrite after_nil. reflexivity.
  - destruct fuel; [lia|]. cbn [fileViewLoop].
    rewrite bind_updateButtons.
    destruct (input w) as [|s rest] eqn:Ei; [simpl in Hm; lia|].
    rewrite bind_getDev.
    pose proof (Hstay 1%nat ltac:(lia)) as H1. cbn [polls] in H1.
    assert (Hrec : forall i',
              bind (emit (EvDrawFileList (fileListTitle op)
                                         (shownWindow names i') i'))
                   (fun _ => fileViewLoop fuel op names i') (polled w) =
              after [EvDrawFileList (fileListTitle op) (shownWindow names i') i']
                (after (nav_draws m (fileListTitle op) names (polled w) i')
                   (bind (file_action op
                            ("/" ++ List.nth
                               (Z.to_nat (nav_index m (Z.of_nat (List.length names))
                                                    (polled w) i')) names ""%string)%string)
                         (fun _ => emit (EvDrawFileList (fileListTitle op)
                            (shownWindow names
                               (nav_index m (Z.of_nat (List.length names)) (polled w) i'))
                            (nav_index m (Z.of_nat (List.length names)) (polled w) i')))
                         (polls (S m) (polled w))))).
    { intros i'. rewrite bind_emit. f_equal. apply IH.
      - rewrite input_polled, Ei. simpl in *. lia.
      - rewrite input_polled, Ei. simpl in *. lia.
      - intros j Hj. apply (Hstay (S j)). lia.
      - exact Hsel. }
    cbn [nav_draws nav_index polls]. unfold nav_step, nav_stays in *.
    destruct (pressed (btnBack (dev (polled w)))); [discriminate|].
    destruct (pressed (btnUp (dev (polled w)))).
    { rewrite Hrec, after_after. reflexivity. }
    destruct (pressed (btnDown (dev (polled w)))).
    { rewrite Hrec, after_after. reflexivity. }
    destruct (pressed (btnSelect (dev (polled w)))); [discriminate|].
    rewrite Hrec, after_after. reflexivity.
Qed.

Lemma shownWindow_has_selection (names : list string) (i : nat) :
  (i < List.length names)%nat ->
  List.In (shownName (List.nth i names ""%string))
          (shownWindow names (Z.of_nat i)).
Proof.
  intros Hi. unfold shownWindow.
  apply List.in_flat_map.
  destruct (Z.leb_spec 4 (Z.of_nat i)) as [Hge | Hlt].
  - exists 3. split; [cbn; auto|].
    replace (Z.of_nat i - 3 + 3) with (Z.of_nat i) by lia.
    destruct (Z.ltb_spec (Z.of_nat i) (Z.of_nat (List.length names))); [|lia].
    rewrite Nat2Z.id. left. reflexivity.
  - exists (Z.of_nat i). split.
    + assert (i = 0 \/ i = 1 \/ i = 2 \/ i = 3)%nat as [-> | [-> | [-> | ->]]] by lia;
        cbn; auto.
    + cbn [Z.add].
      destruct (Z.ltb_spec (Z.of_nat i) (Z.of_nat (List.length names))); [|lia].
      rewrite Nat2Z.id. left. reflexivity.
Qed.

(** C10: when the root opens and is not empty, the list [viewFiles] browses
    is the list of the names of all the entries of the root, in directory
    order, directories included: it has as many items as the root has
    entries, the window drawn around a selected entry shows that entry, and
    after polls that move the selection, the poll that shows Select alone
    runs the operation -- delete or write to card -- on the name of the
    selected entry, be it a file or a directory. *)
Theorem file_list_holds_every_entry
    (op : string) (w : World R Sd) (entries : list DirEntry) :
  SD_root (sd w) = Some entries -> entries <> [] ->
  let names := List.map entry_name entries in
  let w' := with_dev w (set_view VIEW_FILE_LIST (dev w)) in
  viewFiles op w = fileViewLoop (List.length (input w)) op names 0 w' /\
  List.length names = List.length entries /\
  (forall i, (i < List.length entries)%nat ->
     List.In (shownName (entry_name (List.nth i entries no_entry)))
             (shownWindow names (Z.of_nat i))) /\
  (forall m,
     (S m <= List.length (input w))%nat ->
     (forall j, (1 <= j <= m)%nat -> nav_stays (dev (polls j w')) = true) ->
     nav_selects (dev (polls (S m) w')) = true ->
     let i := nav_index m (Z.of_nat (List.length entries)) w' 0 in
     viewFiles op w =
     after (nav_draws m (fileListTitle op) names w' 0)
       (bind (file_action op
                ("/" ++ entry_name (List.nth (Z.to_nat i) entries no_entry)))
             (fun _ => emit (EvDrawFileList (fileListTitle op)
                                            (shownWindow names i) i))
             (polls (S m) w'))).
Proof.
  intros Hroot Hne names w'.
  assert (Hrun : viewFiles op w =
                 fileViewLoop (List.length (input w)) op names 0 w').
  { unfold viewFiles. rewrite bind_sd_root, Hroot.
    destruct entries as [|e entries']; [congruence|].
    cbn [List.length Nat.eqb]. rewrite bind_setDev. reflexivity. }
  split; [exact Hrun|]. split; [apply List.length_map|]. split.
  - intros i Hi.
    rewrite <- (List.map_nth entry_name entries no_entry i).
    apply shownWindow_has_selection. unfold names. rewrite List.length_map. exact Hi.
  - intros m Hm Hstay Hsel i. rewrite Hrun.
    rewrite (fileViewLoop_browse op names m (List.length (input w)) w' 0);
      try assumption; try (cbn; lia).
    replace (Z.of_nat (List.length names)) with (Z.of_nat (List.length entries))
      by (unfold names; rewrite List.length_map; reflexivity).
    fold i.
    rewrite <- (List.map_nth entry_name entries no_entry (Z.to_nat i)).
    reflexivity.
Qed.

(** *** Frames of the actions, for any relation blind to what they touch *)

Section Frames.

Variable P : World R Sd -> World R Sd -> Prop.
Hypothesis P_refl : forall w, P w w.
Hypothesis P_trans : forall w1 w2 w3, P w1 w2 -> P w2 w3 -> P w1 w3.
(** [P] does not look at the radio, at the buttons or the input left, or
    at the view. *)
Hypothesis P_radio : forall w r, P w (with_radio w r).
Hypothesis P_poll :
  forall w s rest, P w (with_input (with_dev w (poll_device s (dev w))) rest).
Hypothesis P_view : forall w v, P w (with_dev w (set_view v (dev w))).

#[local] Hint Resolve P_refl P_trans : keeps.

Lemma frame_updateButtons : keeps P updateButtons.
Proof.
  intros w. unfold updateButtons. destruct (input w); [apply P_refl | apply P_poll].
Qed.

Lemma frame_set_view v : keeps P (setDev (set_view v)).
Proof. intros w. apply P_view. Qed.

Lemma frame_sd_exists p : keeps P (sd_exists p).
Proof. intros w. apply P_refl. Qed.

Lemma frame_sd_open_read p : keeps P (sd_open_read p).
Proof. intros w. apply P_refl. Qed.

Lemma frame_sd_root : keeps P sd_root.
Proof. intros w. apply P_refl. Qed.

Lemma frame_nfc_readPassiveTargetID t : keeps P (nfc_readPassiveTargetID t).
Proof.
  intros w. unfold nfc_readPassiveTargetID.
  destruct (readPassiveTargetID (radio w) t). apply P_radio.
Qed.

Lemma frame_nfc_AuthenticateBlock uid len b s k :
  keeps P (nfc_AuthenticateBlock uid len b s k).
Proof.
  intros w. unfold nfc_AuthenticateBlock.
  destruct (mifareclassic_AuthenticateBlock (radio w) uid len b s k). apply P_radio.
Qed.

Lemma frame_nfc_ReadDataBlock b : keeps P (nfc_ReadDataBlock b).
Proof.
  intros w. unfold nfc_ReadDataBlock.
  destruct (mifareclassic_ReadDataBlock (radio w) b). apply P_radio.
Qed.

Lemma frame_nfc_WriteDataBlock b d : keeps P (nfc_WriteDataBlock b d).
Proof.
  intros w. unfold nfc_WriteDataBlock.
  destruct (mifareclassic_WriteDataBlock (radio w) b d). apply P_radio.
Qed.

#[local] Hint Resolve frame_updateButtons frame_set_view frame_sd_exists
  frame_sd_open_read frame_sd_root frame_nfc_readPassiveTargetID
  frame_nfc_AuthenticateBlock frame_nfc_ReadDataBlock frame_nfc_WriteDataBlock
  : keeps.

Ltac frame_step :=
  first [ keeps_step
        | match goal with |- keeps _ _ => solve [eauto with keeps] end ].

Ltac frame_tac := repeat frame_step.

Lemma frame_displayInfo a b c : keeps P (displayInfo a b c).
Proof. unfold displayInfo. frame_tac. Qed.

Lemma frame_pollWhile fuel cond : keeps P (pollWhile fuel cond).
Proof. induction fuel as [|fuel IH]; cbn [pollWhile]; frame_tac. Qed.

Lemma frame_whilePolling cond : keeps P (whilePolling cond).
Proof. intros w. apply frame_pollWhile. Qed.

#[local] Hint Resolve frame_displayInfo frame_whilePolling : keeps.

Lemma frame_waitForButtonPress : keeps P waitForButtonPress.
Proof. unfold waitForButtonPress. frame_tac. Qed.

Lemma frame_confirmLoop fuel : keeps P (confirmLoop fuel).
Proof. induction fuel as [|fuel IH]; cbn [confirmLoop]; frame_tac. Qed.

Lemma frame_confirmAction p : keeps P (confirmAction p).
Proof.
  unfold confirmAction. frame_tac. intros w. apply frame_confirmLoop.
Qed.

Lemma frame_authLoop uid len block : forall n i,
  keeps P (authLoop n i uid len block).
Proof. induction n as [|n IH]; intros i; cbn [authLoop]; frame_tac. Qed.

Lemma frame_authenticateBlock uid len block :
  keeps P (authenticateBlock uid len block).
Proof. unfold authenticateBlock. frame_tac. apply frame_authLoop. Qed.

#[local] Hint Resolve frame_waitForButtonPress frame_confirmAction
  frame_authenticateBlock : keeps.

Lemma frame_readCard : keeps P readCard.
Proof. unfold readCard. frame_tac. Qed.

Lemma frame_readNDEF : keeps P readNDEF.
Proof. unfold readNDEF. frame_tac. Qed.

Lemma frame_readWriteCard isWrite : keeps P (readWriteCard isWrite).
Proof. unfold readWriteCard. frame_tac. Qed.

Lemma frame_eraseCard : keeps P eraseCard.
Proof. unfold eraseCard. frame_tac. Qed.

Lemma frame_writeFileToCard f : keeps P (writeFileToCard f).
Proof. unfold writeFileToCard. frame_tac. Qed.

#[local] Hint Resolve frame_readCard frame_readNDEF frame_readWriteCard
  frame_eraseCard frame_writeFileToCard : keeps.

(** The file list, when its operation is not the deletion. *)
Lemma frame_fileViewLoop_keeping op files :
  String.eqb op "delete" = false ->
  forall fuel i, keeps P (fileViewLoop fuel op files i).
Proof.
  intros Hop. induction fuel as [|fuel IH]; intros i; cbn [fileViewLoop];
    rewrite ?Hop; frame_tac.
Qed.

Lemma frame_viewFiles_keeping op :
  String.eqb op "delete" = false -> keeps P (viewFiles op).
Proof.
  intros Hop. unfold viewFiles. frame_tac. intros w.
  apply frame_fileViewLoop_keeping. exact Hop.
Qed.

Section WithStorage.

(** [P] does not look at the SD card either. *)
Hypothesis P_sd : forall w s, P w (with_sd w s).

Lemma frame_sd_remove p : keeps P (sd_remove p).
Proof. intros w. unfold sd_remove. destruct (SD_remove (sd w) p). apply P_sd. Qed.

Lemma frame_sd_open_write p : keeps P (sd_open_write p).
Proof.
  intros w. unfold sd_open_write. destruct (SD_open_write (sd w) p). apply P_sd.
Qed.

Lemma frame_file_write p d : keeps P (file_write p d).
Proof. intros w. apply P_sd. Qed.

Lemma frame_file_close p : keeps P (file_close p).
Proof. intros w. apply P_sd. Qed.

#[local] Hint Resolve frame_sd_remove frame_sd_open_write frame_file_write
  frame_file_close : keeps.

Lemma frame_dumpLoop uid len f : forall blocks any,
  keeps P (dumpLoop blocks uid len f any).
Proof.
  induction blocks as [|b blocks IH]; intros any; cbn [dumpLoop]; frame_tac.
Qed.

#[local] Hint Resolve frame_dumpLoop : keeps.

Lemma frame_dumpToFile uid f : keeps P (dumpToFile uid f).
Proof. unfold dumpToFile. frame_tac. Qed.

#[local] Hint Resolve frame_dumpToFile : keeps.

Lemma frame_dumpCard : keeps P dumpCard.
Proof. unfold dumpCard. frame_tac. Qed.

Lemma frame_deleteFile f : keeps P (deleteFile f).
Proof. unfold deleteFile. frame_tac. Qed.

#[local] Hint Resolve frame_dumpCard frame_deleteFile : keeps.

Lemma frame_fileViewLoop op files : forall fuel i,
  keeps P (fileViewLoop fuel op files i).
Proof.
  induction fuel as [|fuel IH]; intros i; cbn [fileViewLoop]; frame_tac.
Qed.

Lemma frame_viewFiles op : keeps P (viewFiles op).
Proof.
  unfold viewFiles. frame_tac. intros w. apply frame_fileViewLoop.
Qed.

End WithStorage.

End Frames.

(** *** The settings and the storage under the actions *)

Lemma settings_kept_refl (w : World R Sd) : settings_kept w w.
Proof. reflexivity. Qed.

Lemma settings_kept_trans (w1 w2 w3 : World R Sd) :
  settings_kept w1 w2 -> settings_kept w2 w3 -> settings_kept w1 w3.
Proof. unfold settings_kept. congruence. Qed.

Lemma storage_kept_refl (w : World R Sd) : storage_kept w w.
Proof. reflexivity. Qed.

Lemma storage_kept_trans (w1 w2 w3 : World R Sd) :
  storage_kept w1 w2 -> storage_kept w2 w3 -> storage_kept w1 w3.
Proof. unfold storage_kept. congruence. Qed.

(** *** What the actions say *)

#[local] Abbreviation emits := (@emits R Sd _).

Section Emits.

Variable Q : Event -> Prop.

Lemma emits_silent {A : Type} (m : M R Sd A) :
  (forall w, events (m w) = []) -> emits Q m.
Proof. intros H w. rewrite H. constructor. Qed.

Lemma emits_ret {A : Type} (a : A) : emits Q (@ret R Sd A a).
Proof. apply emits_silent. reflexivity. Qed.

Lemma emits_waiting {A : Type} : emits Q (@waiting R Sd A).
Proof. apply emits_silent. reflexivity. Qed.

Lemma emits_getDev : emits Q (@getDev R Sd).
Proof. apply emits_silent. reflexivity. Qed.

Lemma emits_setDev f : emits Q (@setDev R Sd f).
Proof. apply emits_silent. reflexivity. Qed.

Lemma emits_emit e : Q e -> emits Q (@emit R Sd e).
Proof. intros H w. repeat constructor. exact H. Qed.

Lemma emits_bind {A B : Type} (m : M R Sd A) (f : A -> M R Sd B) :
  emits Q m -> (forall a, emits Q (f a)) -> emits Q (bind m f).
Proof.
  intros Hm Hf w. rewrite bind_step. specialize (Hm w).
  destruct (value (m w)) as [a|]; cbn [events]; [|exact Hm].
  rewrite events_after. apply List.Forall_app. split; [exact Hm | apply Hf].
Qed.

Lemma emits_when (c : bool) (m : M R Sd unit) : emits Q m -> emits Q (when c m).
Proof. intros H. unfold when. destruct c; [exact H | apply emits_ret]. Qed.

Lemma emits_updateButtons : emits Q updateButtons.
Proof.
  apply emits_silent. intros w. rewrite updateButtons_run.
  destruct (input w); reflexivity.
Qed.

Lemma emits_whilePolling cond : emits Q (whilePolling cond).
Proof. apply emits_silent, whilePolling_events. Qed.

Lemma emits_waitForButtonPress : emits Q waitForButtonPress.
Proof. apply emits_silent, waitForButtonPress_events. Qed.

Lemma emits_sd_exists p : emits Q (sd_exists p).
Proof. apply emits_silent. reflexivity. Qed.

Lemma emits_sd_open_read p : emits Q (sd_open_read p).
Proof. apply emits_silent. reflexivity. Qed.

Lemma emits_sd_root : emits Q sd_root.
Proof. apply emits_silent. reflexivity. Qed.

Lemma emits_displayInfo a b c : Q (EvDisplayInfo a b c) -> emits Q (displayInfo a b c).
Proof.
  intros H. unfold displayInfo. apply emits_bind; [apply emits_setDev|].
  intros _. apply emits_emit, H.
Qed.

Lemma emits_confirmAction p :
  Q (EvConfirmPrompt p) -> (forall a, Q (EvConfirmed p a)) ->
  emits Q (confirmAction p).
Proof.
  intros H1 H2 w. rewrite confirmAction_events.
  constructor; [exact H1|].
  destruct (value (confirmAction p w)); repeat constructor. apply H2.
Qed.

Lemma emits_nfc_readPassiveTargetID t :
  (forall uid, Q (EvDetect t uid)) -> emits Q (nfc_readPassiveTargetID t).
Proof.
  intros H w. unfold nfc_readPassiveTargetID.
  destruct (readPassiveTargetID (radio w) t). repeat constructor. apply H.
Qed.

Lemma emits_nfc_AuthenticateBlock uid len b s k :
  (forall ok, Q (EvAuth b s k ok)) -> emits Q (nfc_AuthenticateBlock uid len b s k).
Proof.
  intros H w. unfold nfc_AuthenticateBlock.
  destruct (mifareclassic_AuthenticateBlock (radio w) uid len b s k).
  repeat constructor. apply H.
Qed.

Lemma emits_nfc_ReadDataBlock b :
  (forall d, Q (EvReadBlock b d)) -> emits Q (nfc_ReadDataBlock b).
Proof.
  intros H w. unfold nfc_ReadDataBlock.
  destruct (mifareclassic_ReadDataBlock (radio w) b). repeat constructor. apply H.
Qed.

Lemma emits_nfc_WriteDataBlock b d :
  (forall ok, Q (EvWriteBlock b d ok)) -> emits Q (nfc_WriteDataBlock b d).
Proof.
  intros H w. unfold nfc_WriteDataBlock.
  destruct (mifareclassic_WriteDataBlock (radio w) b d). repeat constructor. apply H.
Qed.

Lemma emits_sd_remove p : (forall ok, Q (EvSdRemove p ok)) -> emits Q (sd_remove p).
Proof.
  intros H w. unfold sd_remove. destruct (SD_remove (sd w) p).
  repeat constructor. apply H.
Qed.

Lemma emits_sd_open_write p :
  (forall ok, Q (EvSdOpenWrite p ok)) -> emits Q (sd_open_write p).
Proof.
  intros H w. unfold sd_open_write. destruct (SD_open_write (sd w) p).
  repeat constructor. apply H.
Qed.

Lemma emits_file_write p d : Q (EvFileWrite p d) -> emits Q (file_write p d).
Proof. intros H w. repeat constructor. exact H. Qed.

Lemma emits_file_close p : Q (EvFileClose p) -> emits Q (file_close p).
Proof. intros H w. repeat constructor. exact H. Qed.

Lemma emits_authLoop uid len block :
  (forall s k ok, Q (EvAuth block s k ok)) ->
  forall n i, emits Q (authLoop n i uid len block).
Proof.
  intros H. induction n as [|n IH]; intros i; cbn [authLoop]; [apply emits_ret|].
  apply emits_bind; [apply emits_getDev|]. intros d.
  apply emits_bind; [apply emits_nfc_AuthenticateBlock; intros; apply H|].
  intros [|]; [apply emits_ret|].
  apply emits_bind; [apply emits_nfc_AuthenticateBlock; intros; apply H|].
  intros [|]; [apply emits_ret | apply IH].
Qed.

Lemma emits_authenticateBlock uid len block :
  (forall s k ok, Q (EvAuth block s k ok)) ->
  emits Q (authenticateBlock uid len block).
Proof.
  intros H. unfold authenticateBlock. apply emits_bind; [apply emits_getDev|].
  intros d. apply emits_authLoop, H.
Qed.

End Emits.

(** Splits a computation along its binds and branches and checks each
    event it can leave against the class at hand. *)
Ltac emits_leaf :=
  intros; first [exact I | reflexivity | split; reflexivity | (cbn; auto; fail)].

Ltac emits_step_with leaf :=
  match goal with
  | |- emits _ (bind _ _) => apply emits_bind; [|intros]
  | |- emits _ (ret _) => apply emits_ret
  | |- emits _ waiting => apply emits_waiting
  | |- emits _ getDev => apply emits_getDev
  | |- emits _ (setDev _) => apply emits_setDev
  | |- emits _ (emit _) => apply emits_emit; solve [leaf]
  | |- emits _ (when _ _) => apply emits_when
  | |- emits _ updateButtons => apply emits_updateButtons
  | |- emits _ (whilePolling _) => apply emits_whilePolling
  | |- emits _ waitForButtonPress => apply emits_waitForButtonPress
  | |- emits _ (sd_exists _) => apply emits_sd_exists
  | |- emits _ (sd_open_read _) => apply emits_sd_open_read
  | |- emits _ sd_root => apply emits_sd_root
  | |- emits _ (displayInfo _ _ _) => apply emits_displayInfo; solve [leaf]
  | |- emits _ (confirmAction _) =>
      apply emits_confirmAction; solve [leaf]
  | |- emits _ (nfc_readPassiveTargetID _) =>
      apply emits_nfc_readPassiveTargetID; solve [leaf]
  | |- emits _ (nfc_ReadDataBlock _) =>
      apply emits_nfc_ReadDataBlock; solve [leaf]
  | |- emits _ (nfc_WriteDataBlock _ _) =>
      apply emits_nfc_WriteDataBlock; solve [leaf]
  | |- emits _ (authenticateBlock _ _ _) =>
      apply emits_authenticateBlock; solve [leaf]
  | |- emits _ (sd_remove _) => apply emits_sd_remove; solve [leaf]
  | |- emits _ (sd_open_write _) => apply emits_sd_open_write; solve [leaf]
  | |- emits _ (file_write _ _) => apply emits_file_write; solve [leaf]
  | |- emits _ (file_close _) => apply emits_file_close; solve [leaf]
  | |- emits _ (if ?c then _ else _) => destruct c
  | |- emits _ (match ?x with _ => _ end) => destruct x
  | |- emits _ _ => assumption
  end.

Ltac emits_step := emits_step_with emits_leaf.

Ltac emits_tac := repeat emits_step.

(** The events of a run, through the class of the computation run. *)
Ltac by_emits Q :=
  match goal with
  | |- List.Forall _ (events (?m ?w0)) =>
      let H := fresh in
      assert (H : emits Q m) by emits_tac; exact (H w0)
  end.

(** Discharges what a frame asks of the settings or of the storage. *)
Ltac frame_inst :=
  first [ exact storage_kept_refl | exact storage_kept_trans
        | exact settings_kept_refl | exact settings_kept_trans
        | (intros; reflexivity) ].

(** *** Operations that read *)

(** X10: [readCard] and [readNDEF] look for a card and show what they
    found, nothing more: whatever the card, the SD card and the buttons do,
    they authenticate, read and write no block, touch no file and ask
    nothing, and they leave the SD card and the settings as they were. *)
Theorem reading_a_card_only_detects (w : World R Sd) :
  List.Forall shows_or_detects (events (readCard w)) /\
  List.Forall shows_or_detects (events (readNDEF w)) /\
  sd (world (readCard w)) = sd w /\ sd (world (readNDEF w)) = sd w /\
  settings_of (dev (world (readCard w))) = settings_of (dev w) /\
  settings_of (dev (world (readNDEF w))) = settings_of (dev w).
Proof.
  split; [|split; [|split; [|split; [|split]]]].
  - revert w. change (emits shows_or_detects readCard).
    unfold readCard. emits_tac.
  - revert w. change (emits shows_or_detects readNDEF).
    unfold readNDEF. emits_tac.
  - apply (frame_readCard storage_kept); frame_inst.
  - apply (frame_readNDEF storage_kept); frame_inst.
  - apply (frame_readCard settings_kept); frame_inst.
  - apply (frame_readNDEF settings_kept); frame_inst.
Qed.

(** *** Order in a trace *)

(** When a trace splits in two, its first part holds nothing guarded, and
    either the first part has what is asked for or the second part holds
    nothing guarded either, everything guarded comes after what is asked
    for. *)
Lemma guarded_split (g : Event -> bool) (Pre : list Event -> Prop)
    (front back : list Event) :
  (forall a b, Pre a -> Pre (a ++ b)) ->
  List.Forall (fun e => g e = false) front ->
  Pre front \/ List.Forall (fun e => g e = false) back ->
  forall pre e post, front ++ back = pre ++ e :: post -> g e = true -> Pre pre.
Proof.
  intros Hmono Hfront Hor pre e post Heq Hg.
  apply List.app_eq_app in Heq. destruct Heq as (l & [[H1 H2] | [H1 H2]]).
  - (* the event lies in the first part *)
    destruct l as [|x l].
    + rewrite List.app_nil_r in H1. subst front. cbn in H2.
      destruct Hor as [Hp | Hb]; [exact Hp|].
      rewrite <- H2 in Hb. inversion Hb; subst. congruence.
    + cbn in H2. injection H2 as -> _. rewrite H1 in Hfront.
      apply List.Forall_app in Hfront as [_ Hf]. inversion Hf; subst. congruence.
  - subst pre. destruct Hor as [Hp | Hb]; [apply Hmono, Hp|].
    rewrite H2 in Hb. apply List.Forall_app in Hb as [_ Hb].
    inversion Hb; subst. congruence.
Qed.

Lemma In_mono_app (x : Event) (a b : list Event) : List.In x a -> List.In x (a ++ b).
Proof. intros H. apply List.in_or_app. left. exact H. Qed.

Lemma authenticated_mono block (a b : list Event) :
  authenticated a block = true -> authenticated (a ++ b) block = true.
Proof.
  unfold authenticated. intros H. rewrite List.existsb_app, H. reflexivity.
Qed.

(** What an authentication that answered yes leaves in the trace. *)
Lemma authenticateBlock_yes uid len block (w : World R Sd) :
  value (authenticateBlock uid len block w) = Some true ->
  authenticated (events (authenticateBlock uid len block w)) block = true.
Proof.
  destruct (authenticateBlock_runs uid len block w) as (res & rd & evs & E & _ & Hres).
  pose proof (emits_authenticateBlock (fun e => auth_ok e = true ->
                 match e with EvAuth b _ _ _ => b = block | _ => False end)
                uid len block) as Hq.
  specialize (Hq ltac:(cbn; intros; reflexivity) w).
  rewrite E in *. cbn [value events] in *. intros Hv.
  assert (Hex : List.existsb auth_ok evs = true) by congruence.
  clear - Hex Hq. unfold authenticated.
  induction evs as [|e evs IH]; [discriminate|].
  inversion Hq as [|e' evs' He Hevs]; subst.
  cbn [List.existsb] in *. apply Bool.orb_true_iff in Hex as [Hok | Hrest].
  - specialize (He Hok). destruct e; try contradiction. subst.
    cbn in Hok. cbn [orb andb]. rewrite Z.eqb_refl, Hok. reflexivity.
  - rewrite (IH Hevs Hrest). apply Bool.orb_true_r.
Qed.

Lemma block_writes_none (evs : list Event) :
  List.Forall (fun e => is_block_write e = false) evs -> block_writes evs = [].
Proof.
  induction 1 as [|e evs He _ IH]; [reflexivity|].
  unfold block_writes in *. cbn [List.flat_map]. rewrite IH.
  destruct e; try reflexivity. discriminate.
Qed.

Lemma block_reads_none (evs : list Event) :
  List.Forall (fun e => match e with EvReadBlock _ _ => False | _ => True end) evs ->
  block_reads evs = [].
Proof.
  induction 1 as [|e evs He _ IH]; [reflexivity|].
  unfold block_reads in *. cbn [List.flat_map]. rewrite IH.
  destruct e; try reflexivity. contradiction.
Qed.

Lemma unlocked_split block (front back : list Event) :
  List.Forall (fun e => is_block_access e = false) front ->
  authenticated front block = true \/
    List.Forall (fun e => is_block_access e = false) back ->
  unlocked_first block (front ++ back).
Proof.
  intros Hf Hor pre e post Heq Ha.
  revert pre e post Heq Ha.
  apply (guarded_split is_block_access (fun l => authenticated l block = true));
    try assumption.
  intros x y. apply authenticated_mono.
Qed.

Lemma gated_split p (g : Event -> bool) (front back : list Event) :
  List.Forall (fun e => g e = false) front ->
  List.In (EvConfirmed p true) front \/ List.Forall (fun e => g e = false) back ->
  gated_by p g (front ++ back).
Proof.
  intros Hf Hor pre e post Heq Ha.
  revert pre e post Heq Ha.
  apply (guarded_split g (fun l => List.In (EvConfirmed p true) l));
    try assumption.
  intros x y. apply In_mono_app.
Qed.

Lemma events_then_wait {A : Type} (m : M R Sd A) (w : World R Sd) :
  events (bind m (fun _ => waitForButtonPress) w) = events (m w).
Proof.
  rewrite bind_step. destruct (value (m w)); [|reflexivity].
  rewrite events_after, waitForButtonPress_events. apply List.app_nil_r.
Qed.

Lemma unlocked_first_after block (front evs : list Event) :
  List.Forall (fun e => is_block_access e = false) front ->
  unlocked_first block evs -> unlocked_first block (front ++ evs).
Proof.
  intros Hf Hu pre e post Heq Ha.
  apply List.app_eq_app in Heq. destruct Heq as (l & [[H1 H2] | [H1 H2]]).
  - destruct l as [|x l].
    + cbn in H2.
      assert (Hn : authenticated [] block = true)
        by (apply (Hu [] e post); [symmetry; exact H2 | exact Ha]).
      discriminate.
    + cbn in H2. injection H2 as -> _. rewrite H1 in Hf.
      apply List.Forall_app in Hf as [_ Hf]. inversion Hf; subst. congruence.
  - subst pre. unfold authenticated. rewrite List.existsb_app.
    apply Bool.orb_true_iff. right. apply (Hu l e post H2 Ha).
Qed.

(** The step the three single-block operations share: a card is looked
    for, block 4 is authenticated, and only when that succeeded does the
    operation go on to the block. *)
Lemma card_step_unlocks (access : M R Sd unit) (a b c a' b' c' : string)
    (w : World R Sd) :
  unlocked_first 4
    (events
       ((found <- nfc_readPassiveTargetID 5000 ;;
         match found with
         | Some uid =>
             ok <- authenticateBlock uid (Z.of_nat (List.length uid)) 4 ;;
             if ok then access else displayInfo a b c
         | None => displayInfo a' b' c'
         end ;;; waitForButtonPress) w)).
Proof.
  rewrite bind_nfc_readPassiveTargetID, events_after, events_then_wait.
  set (w1 := with_radio w _).
  destruct (fst (readPassiveTargetID (radio w) 5000)) as [uid|].
  2:{ apply (unlocked_split 4 [EvDetect 5000 None]).
      - repeat constructor.
      - right. repeat constructor. }
  rewrite bind_step.
  pose proof (authenticateBlock_yes uid (Z.of_nat (List.length uid)) 4 w1) as Hyes.
  destruct (authenticateBlock_runs uid (Z.of_nat (List.length uid)) 4 w1)
    as (res & rd & evs & E & Hall & Hres).
  rewrite E in *. cbn [value world events] in *. rewrite events_after.
  rewrite List.app_assoc.
  assert (Hfront : List.Forall (fun e => is_block_access e = false)
                     ([EvDetect 5000 (Some uid)] ++ evs)).
  { constructor; [reflexivity|]. apply List.Forall_forall. intros e He.
    rewrite List.forallb_forall in Hall. specialize (Hall e He).
    destruct e; try discriminate. reflexivity. }
  apply unlocked_split.
  - exact Hfront.
  - destruct res.
    + left. change (authenticated (EvDetect 5000 (Some uid) :: evs) 4 = true).
      unfold authenticated. cbn [List.existsb orb]. apply Hyes. reflexivity.
    + right. repeat constructor.
Qed.

(** X11: [readWriteCard] never writes, in either mode: it looks for a
    card, authenticates block 4 and, in read mode, reads block 4, only once
    an authentication of that block has succeeded; in write mode it does not
    even read.  No other block is touched, no file, and the SD card and the
    settings stay as they were. *)
Theorem read_block_never_writes (isWrite : bool) (w : World R Sd) :
  let evs := events (readWriteCard isWrite w) in
  List.Forall (confined_to_block 4 []) evs /\ block_writes evs = [] /\
  (isWrite = true -> block_reads evs = []) /\
  unlocked_first 4 evs /\
  sd (world (readWriteCard isWrite w)) = sd w /\
  settings_of (dev (world (readWriteCard isWrite w))) = settings_of (dev w).
Proof.
  cbv zeta. split; [|split; [|split; [|split; [|split]]]].
  - revert w. change (emits (confined_to_block 4 []) (readWriteCard isWrite)).
    unfold readWriteCard. emits_tac.
  - apply block_writes_none. revert w.
    change (emits (fun e => is_block_write e = false) (readWriteCard isWrite)).
    unfold readWriteCard. emits_tac.
  - intros ->. apply block_reads_none. revert w.
    change (emits (fun e => match e with EvReadBlock _ _ => False | _ => True end)
                  (readWriteCard true)).
    unfold readWriteCard. emits_tac.
  - unfold readWriteCard. rewrite bind_displayInfo, events_after.
    apply unlocked_first_after; [repeat constructor|].
    apply card_step_unlocks.
  - apply (frame_readWriteCard storage_kept); frame_inst.
  - apply (frame_readWriteCard settings_kept); frame_inst.
Qed.

Lemma block_writes_app a b : block_writes (a ++ b) = block_writes a ++ block_writes b.
Proof. apply List.flat_map_app. Qed.

Lemma auth_events_no_write evs :
  List.forallb is_auth evs = true -> block_writes evs = [].
Proof.
  intros H. apply block_writes_none, List.Forall_forall. intros e He.
  rewrite List.forallb_forall in H. specialize (H e He).
  destruct e; try discriminate. reflexivity.
Qed.

(** The block writes of the shared step are those of what follows a
    successful authentication, if it gets there. *)
Lemma card_step_writes (access : M R Sd unit) (a b c a' b' c' : string)
    (w : World R Sd) :
  let evs :=
    events
      ((found <- nfc_readPassiveTargetID 5000 ;;
        match found with
        | Some uid =>
            ok <- authenticateBlock uid (Z.of_nat (List.length uid)) 4 ;;
            if ok then access else displayInfo a b c
        | None => displayInfo a' b' c'
        end ;;; waitForButtonPress) w) in
  block_writes evs = [] \/
  exists w', block_writes evs = block_writes (events (access w')).
Proof.
  cbv zeta.
  rewrite bind_nfc_readPassiveTargetID, events_after, events_then_wait.
  set (w1 := with_radio w _).
  destruct (fst (readPassiveTargetID (radio w) 5000)) as [uid|];
    [|left; reflexivity].
  rewrite bind_step.
  destruct (authenticateBlock_runs uid (Z.of_nat (List.length uid)) 4 w1)
    as (res & rd & evs & E & Hall & Hres).
  rewrite E. cbn [value world events]. rewrite events_after.
  rewrite !block_writes_app, (auth_events_no_write evs Hall).
  destruct res; [right; eexists; reflexivity | left; reflexivity].
Qed.

(** *** Operations that write *)

(** X12: [eraseCard] reaches the card only after the gate has answered yes
    to "Erase Block 4?": before that nothing but the prompt is shown.  What
    it then does is confined to block 4: a card is looked for, block 4 is
    authenticated, and only when that succeeded is the block written, once,
    with sixteen zero bytes.  No file is touched; the SD card and the
    settings stay as they were. *)
Theorem erase_is_gated_and_confined (w : World R Sd) :
  let evs := events (eraseCard w) in
  List.Forall (confined_to_block 4 zeros16) evs /\
  gated_by "Erase Block 4?" acts evs /\
  unlocked_first 4 evs /\
  (List.length (block_writes evs) <= 1)%nat /\
  sd (world (eraseCard w)) = sd w /\
  settings_of (dev (world (eraseCard w))) = settings_of (dev w).
Proof.
  cbv zeta. split; [|split; [|split; [|split; [|split]]]].
  - revert w. change (emits (confined_to_block 4 zeros16) eraseCard).
    unfold eraseCard. emits_tac.
  - unfold eraseCard. rewrite bind_displayInfo, events_after, bind_step.
    set (w1 := with_dev w _).
    pose proof (confirmAction_events "Erase Block 4?" w1) as Hc.
    destruct (value (confirmAction "Erase Block 4?" w1)) as [accepted|];
      cbn [events]; rewrite ?events_after, Hc.
    + change ([EvDisplayInfo "Erase Block" "Place card..." ""] ++
              (EvConfirmPrompt "Erase Block 4?" :: [EvConfirmed "Erase Block 4?" accepted])
              ++ ?x)
        with ([EvDisplayInfo "Erase Block" "Place card..." "";
               EvConfirmPrompt "Erase Block 4?";
               EvConfirmed "Erase Block 4?" accepted] ++ x).
      apply gated_split; [repeat constructor|].
      destruct accepted; [left; cbn; auto|]. right. cbn [negb].
      by_emits (fun e => acts e = false).
    + apply (gated_split _ _ [EvDisplayInfo "Erase Block" "Place card..." "";
                              EvConfirmPrompt "Erase Block 4?"] []);
        [repeat constructor | right; constructor].
  - unfold eraseCard. rewrite bind_displayInfo, events_after, bind_step.
    set (w1 := with_dev w _).
    pose proof (confirmAction_events "Erase Block 4?" w1) as Hc.
    apply unlocked_first_after; [repeat constructor|].
    destruct (value (confirmAction "Erase Block 4?" w1)) as [accepted|];
      cbn [events]; rewrite ?events_after, Hc.
    + apply unlocked_first_after; [repeat constructor|].
      destruct accepted; cbn [negb].
      * apply card_step_unlocks.
      * rewrite <- (List.app_nil_l (events _)). apply unlocked_split; [constructor|].
        right.
        by_emits (fun e => is_block_access e = false).
    + rewrite <- (List.app_nil_r [_]). apply unlocked_split;
        [repeat constructor | right; constructor].
  - unfold eraseCard. rewrite bind_displayInfo, events_after, bind_step.
    set (w1 := with_dev w _).
    pose proof (confirmAction_events "Erase Block 4?" w1) as Hc.
    destruct (value (confirmAction "Erase Block 4?" w1)) as [accepted|];
      cbn [events]; rewrite ?events_after, Hc.
    2:{ cbn. lia. }
    rewrite !block_writes_app.
    change (block_writes [EvDisplayInfo "Erase Block" "Place card..." ""]) with
      (@nil (Z * list Z * bool)).
    destruct accepted; cbn [negb List.app].
    + match goal with |- context [events (?m ?w0)] =>
        destruct (card_step_writes
                    (written <- nfc_WriteDataBlock 4 zeros16 ;;
                     if written
                     then displayInfo "Erase Success!"
                            ("Block " ++ String_DEC 4 ++ " zeroed.") ""
                     else displayInfo "Erase Failed!" "" "")
                    "Auth Failed!" "Cannot access block." ""
                    "Erase Failed" "No card found." "" w0) as [Hn | (w' & Hw)]
      end.
      * cbv zeta in Hn. cbn [block_writes List.flat_map List.app] in *.
        rewrite Hn. cbn. lia.
      * cbv zeta in Hw. cbn [block_writes List.flat_map List.app] in *.
        rewrite Hw, bind_nfc_WriteDataBlock, events_after.
        destruct (fst (mifareclassic_WriteDataBlock (radio w') 4 zeros16));
          cbn; lia.
    + rewrite bind_displayInfo, events_after, waitForButtonPress_events. cbn. lia.
  - apply (frame_eraseCard storage_kept); frame_inst.
  - apply (frame_eraseCard settings_kept); frame_inst.
Qed.

(** X13: [writeFileToCard] reads the file before it looks for a card: when
    the file does not open, or holds fewer than 16 bytes, it shows the
    error and makes no call to the radio.  Otherwise what it does is
    confined to block 4: the block is written at most once, only after an
    authentication of block 4 has succeeded, and with the first sixteen
    bytes of the file.  It changes no file: the SD card and the settings
    stay as they were. *)
Theorem write_from_file_is_confined (filename : string) (w : World R Sd) :
  let evs := events (writeFileToCard filename w) in
  match SD_open_read (sd w) filename with
  | Some content =>
      if Nat.ltb (List.length content) 16 then List.Forall shows evs
      else List.Forall
             (confined_to_block 4 (bytes_of_text (List.firstn 16 content))) evs
  | None => List.Forall shows evs
  end /\
  unlocked_first 4 evs /\
  (List.length (block_writes evs) <= 1)%nat /\
  sd (world (writeFileToCard filename w)) = sd w /\
  settings_of (dev (world (writeFileToCard filename w))) = settings_of (dev w).
Proof.
  cbv zeta. split; [|split; [|split; [|split]]].
  - unfold writeFileToCard. rewrite bind_displayInfo, bind_sd_open_read.
    set (w1 := with_dev w _). change (sd w1) with (sd w).
    destruct (SD_open_read (sd w) filename) as [content|].
    2:{ rewrite events_after. constructor; [reflexivity|].
        by_emits shows. }
    destruct (Nat.ltb (List.length content) 16).
    + rewrite events_after. constructor; [reflexivity|]. by_emits shows.
    + rewrite events_after. constructor; [exact I|].
      by_emits (confined_to_block 4 (bytes_of_text (List.firstn 16 content))).
  - unfold writeFileToCard. rewrite bind_displayInfo, events_after, bind_sd_open_read.
    set (w1 := with_dev w _).
    apply unlocked_first_after; [repeat constructor|].
    destruct (SD_open_read (sd w1) filename) as [content|].
    2:{ rewrite <- (List.app_nil_l (events _)). apply unlocked_split; [constructor|].
        right. by_emits (fun e => is_block_access e = false). }
    destruct (Nat.ltb (List.length content) 16).
    + rewrite <- (List.app_nil_l (events _)). apply unlocked_split; [constructor|].
      right. by_emits (fun e => is_block_access e = false).
    + apply card_step_unlocks.
  - unfold writeFileToCard. rewrite bind_displayInfo, events_after, bind_sd_open_read.
    set (w1 := with_dev w _).
    rewrite block_writes_app.
    change (block_writes [EvDisplayInfo "Write to Card" "Place card..." ""]) with
      (@nil (Z * list Z * bool)).
    cbn [List.app].
    destruct (SD_open_read (sd w1) filename) as [content|].
    2:{ rewrite bind_displayInfo, events_after, waitForButtonPress_events. cbn. lia. }
    destruct (Nat.ltb (List.length content) 16).
    { rewrite bind_displayInfo, events_after, waitForButtonPress_events. cbn. lia. }
    set (data := bytes_of_text (List.firstn 16 content)).
    destruct (card_step_writes
                (displayInfo "Writing Data..." ("To block " ++ String_DEC 4) "" ;;;
                 written <- nfc_WriteDataBlock 4 data ;;
                 if written then displayInfo "Write Success!" "Data written." ""
                 else displayInfo "Write Failed!" "" "")
                "Auth Failed!" "Cannot access block." ""
                "Write Failed" "No card found." "" w1) as [Hn | (w' & Hw)].
    + cbv zeta in Hn. rewrite Hn. cbn. lia.
    + cbv zeta in Hw. rewrite Hw.
      rewrite bind_displayInfo, events_after, bind_nfc_WriteDataBlock, events_after.
      set (w2 := with_dev w' _).
      destruct (fst (mifareclassic_WriteDataBlock (radio w2) 4 data)); cbn; lia.
  - apply (frame_writeFileToCard storage_kept); frame_inst.
  - apply (frame_writeFileToCard settings_kept); frame_inst.
Qed.

(** [deleteFile], run. *)
Lemma deleteFile_events filename (w : World R Sd) :
  let p := ("Delete " ++ String.substring 0 10 filename ++ "?")%string in
  events (deleteFile filename w) =
  EvConfirmPrompt p ::
  match value (confirmAction p w) with
  | Some true =>
      [EvConfirmed p true; EvSdRemove filename (fst (SD_remove (sd w) filename));
       if fst (SD_remove (sd w) filename)
       then EvDisplayInfo "Success" "File deleted." ""
       else EvDisplayInfo "Error" "Could not delete." ""]
  | Some false =>
      [EvConfirmed p false; EvDisplayInfo "Cancelled" "Delete cancelled." ""]
  | None => []
  end.
Proof.
  intros p. unfold deleteFile. fold p. rewrite bind_step.
  pose proof (confirmAction_events p w) as Hc.
  pose proof (keeps_confirmAction p w) as (_ & Hs & _).
  destruct (value (confirmAction p w)) as [accepted|]; cbn [events];
    [|rewrite Hc; reflexivity].
  rewrite events_after, Hc, events_then_wait.
  destruct accepted.
  - rewrite bind_sd_remove. cbv zeta. rewrite Hs, events_after.
    destruct (fst (SD_remove (sd w) filename)); reflexivity.
  - reflexivity.
Qed.

(** X14: [deleteFile] removes a file only after the gate has answered
    yes to its prompt, removes the file it was given and no other, once,
    and makes no call to the radio; it shows "Success" exactly when the SD
    card reported the file removed and "Error" exactly when it refused.  The
    settings stay as they were. *)
Theorem delete_is_gated_and_confined (filename : string) (w : World R Sd) :
  let p := ("Delete " ++ String.substring 0 10 filename ++ "?")%string in
  let evs := events (deleteFile filename w) in
  List.Forall (fun e => acts e = true ->
                        exists ok, e = EvSdRemove filename ok) evs /\
  gated_by p acts evs /\
  (List.length (List.filter acts evs) <= 1)%nat /\
  (List.In (EvDisplayInfo "Success" "File deleted." "") evs <->
   List.In (EvSdRemove filename true) evs) /\
  (List.In (EvDisplayInfo "Error" "Could not delete." "") evs <->
   List.In (EvSdRemove filename false) evs) /\
  settings_of (dev (world (deleteFile filename w))) = settings_of (dev w).
Proof.
  intros p evs. subst evs.
  pose proof (deleteFile_events filename w) as E. cbv zeta in E. fold p in E.
  rewrite E.
  split; [|split; [|split; [|split; [|split]]]].
  - destruct (value (confirmAction p w)) as [[|]|];
      [destruct (fst (SD_remove (sd w) filename))| |];
      repeat constructor; cbn; intros H; try discriminate;
      eexists; reflexivity.
  - destruct (value (confirmAction p w)) as [[|]|].
    + apply (gated_split p acts [EvConfirmPrompt p; EvConfirmed p true]);
        [repeat constructor | left; cbn; auto].
    + apply (gated_split p acts [EvConfirmPrompt p; EvConfirmed p false]
                         [EvDisplayInfo "Cancelled" "Delete cancelled." ""]);
        [repeat constructor | right; repeat constructor].
    + apply (gated_split p acts [EvConfirmPrompt p] []);
        [repeat constructor | right; constructor].
  - destruct (value (confirmAction p w)) as [[|]|]; cbn; try lia.
    destruct (fst (SD_remove (sd w) filename)); cbn; lia.
  - destruct (value (confirmAction p w)) as [[|]|]; cbn;
      try (split; intros H; repeat (destruct H as [H|H]; try discriminate);
           contradiction).
    destruct (fst (SD_remove (sd w) filename)); cbn;
      split; intros H; repeat (destruct H as [H|H]; try discriminate); auto;
      try contradiction.
  - destruct (value (confirmAction p w)) as [[|]|]; cbn;
      try (split; intros H; repeat (destruct H as [H|H]; try discriminate);
           contradiction).
    destruct (fst (SD_remove (sd w) filename)); cbn;
      split; intros H; repeat (destruct H as [H|H]; try discriminate); auto;
      try contradiction.
  - apply (frame_deleteFile settings_kept); frame_inst.
Qed.

(** *** The dump and the SD card *)

Section DumpEmits.

Variable Q : Event -> Prop.
Variable f : string.
(** [Q] holds of whatever writes no block and changes no file but [f]. *)
Hypothesis Q_own : forall e,
  is_block_write e = false -> file_of e = None \/ file_of e = Some f -> Q e.

Ltac own_leaf := intros; apply Q_own; [reflexivity | auto].

Lemma emits_dumpLoop uid len : forall blocks any,
  emits Q (dumpLoop blocks uid len f any).
Proof.
  induction blocks as [|b blocks IH]; intros any; cbn [dumpLoop];
    repeat (emits_step_with own_leaf). apply IH.
Qed.

Lemma emits_dumpToFile uid : emits Q (dumpToFile uid f).
Proof.
  unfold dumpToFile. repeat (emits_step_with own_leaf). apply emits_dumpLoop.
Qed.

End DumpEmits.

(** X15: [dumpCard] never writes to the card, and the only file it
    removes, creates, writes or closes is the dump file named after the
    card it found; without a card it does nothing but show the failure.
    When that file already exists, nothing is changed on the SD card
    before the gate has answered yes to "Overwrite file?".  The settings
    stay as they were. *)
Theorem dump_touches_only_its_file (w : World R Sd) :
  let evs := events (dumpCard w) in
  block_writes evs = [] /\
  match fst (readPassiveTargetID (radio w) 2000) with
  | Some uid =>
      List.Forall (fun e => file_of e = None \/
                            file_of e = Some (dumpFilename uid)) evs /\
      (SD_exists (sd w) (dumpFilename uid) = true ->
       gated_by "Overwrite file?" touches_card_or_files evs)
  | None => List.Forall shows_or_detects evs
  end /\
  settings_of (dev (world (dumpCard w))) = settings_of (dev w).
Proof.
  cbv zeta. split; [|split].
  - apply block_writes_none.
    assert (H : emits (fun e => is_block_write e = false) dumpCard).
    { unfold dumpCard. emits_tac;
        apply (emits_dumpToFile _ (dumpFilename l)); intros e He _; exact He. }
    exact (H w).
  - unfold dumpCard.
    rewrite bind_displayInfo, events_after, bind_nfc_readPassiveTargetID, events_after.
    change (radio (with_dev w (set_view VIEW_ACTION (dev w)))) with (radio w).
    set (w1 := with_radio _ _).
    destruct (fst (readPassiveTargetID (radio w) 2000)) as [uid|].
    2:{ do 2 (constructor; [exact I|]). by_emits shows_or_detects. }
    set (fn := dumpFilename uid).
    assert (Hfile : emits (fun e => file_of e = None \/ file_of e = Some fn)
                          (dumpToFile uid fn))
      by (apply emits_dumpToFile; intros e _ He; exact He).
    split.
    + do 2 (constructor; [left; reflexivity|]).
      match goal with |- List.Forall _ (events (?m ?w0)) =>
        assert (H : emits (fun e => file_of e = None \/ file_of e = Some fn) m)
          by emits_tac; exact (H w0) end.
    + intros Hex. rewrite bind_sd_exists. change (sd w1) with (sd w). rewrite Hex.
      rewrite bind_step.
      pose proof (confirmAction_events "Overwrite file?" w1) as Hc.
      destruct (value (confirmAction "Overwrite file?" w1)) as [accepted|];
        cbn [events]; rewrite ?events_after, Hc.
      * change ([EvDisplayInfo "Dump Card" "Place card on reader" ""] ++
                [EvDetect 2000 (Some uid)] ++
                (EvConfirmPrompt "Overwrite file?" ::
                 [EvConfirmed "Overwrite file?" accepted]) ++ ?x)
          with ([EvDisplayInfo "Dump Card" "Place card on reader" "";
                 EvDetect 2000 (Some uid);
                 EvConfirmPrompt "Overwrite file?";
                 EvConfirmed "Overwrite file?" accepted] ++ x).
        apply gated_split; [repeat constructor|].
        destruct accepted; [left; cbn; auto|]. right. cbn [negb].
        by_emits (fun e => touches_card_or_files e = false).
      * apply (gated_split _ _ [EvDisplayInfo "Dump Card" "Place card on reader" "";
                                EvDetect 2000 (Some uid);
                                EvConfirmPrompt "Overwrite file?"] []);
          [repeat constructor | right; constructor].
  - apply (frame_dumpCard settings_kept); frame_inst.
Qed.

(** *** Waiting for a key *)

(** [while (cond) updateButtons();], run: the polls go by as long as the
    condition holds. *)
Lemma pollWhile_until (cond : Device -> bool) : forall k fuel (w : World R Sd),
  (k <= List.length (input w))%nat -> (List.length (input w) < fuel)%nat ->
  (forall j, (j < k)%nat -> cond (dev (polls j w)) = true) ->
  cond (dev (polls k w)) = false ->
  pollWhile fuel cond w = mkRes (Some tt) (polls k w) [].
Proof.
  induction k as [|k IH]; intros fuel w Hk Hf Hj Hq.
  - destruct fuel; [lia|]. cbn [pollWhile polls] in *.
    rewrite bind_getDev, Hq. reflexivity.
  - destruct fuel; [lia|]. cbn [pollWhile].
    rewrite bind_getDev.
    pose proof (Hj 0%nat ltac:(lia)) as H0. cbn [polls] in H0. rewrite H0.
    rewrite bind_updateButtons.
    destruct (input w) as [|s rest] eqn:Ei; [simpl in Hk; lia|].
    cbn [polls]. apply IH.
    + rewrite input_polled, Ei. simpl in *. lia.
    + rewrite input_polled, Ei. simpl in *. lia.
    + intros j Hlt. apply (Hj (S j)). lia.
    + exact Hq.
Qed.

(** A polling loop that has returned has seen its condition fail, and has
    taken a sample if the condition held when it began. *)
Lemma pollWhile_exit (cond : Device -> bool) : forall fuel (w : World R Sd),
  value (pollWhile fuel cond w) = Some tt ->
  cond (dev (world (pollWhile fuel cond w))) = false /\
  (List.length (input (world (pollWhile fuel cond w)))
   + (if cond (dev w) then 1 else 0) <= List.length (input w))%nat.
Proof.
  induction fuel as [|fuel IH]; intros w; [discriminate|].
  cbn [pollWhile]. rewrite bind_getDev.
  destruct (cond (dev w)) eqn:Ec.
  - rewrite bind_updateButtons.
    destruct (input w) as [|s rest] eqn:Ei; [discriminate|].
    intros Hv. destruct (IH (polled w) Hv) as [H1 H2]. split; [exact H1|].
    pose proof (input_polled w) as Hp. rewrite Ei in Hp. cbn in Hp.
    destruct (cond (dev (polled w))); cbn [List.length]; lia.
  - intros _. cbn [world ret]. split; [exact Ec | lia].
Qed.

Lemma polls_add k : forall j (w : World R Sd), polls j (polls k w) = polls (k + j) w.
Proof.
  induction k as [|k IH]; intros j w; [reflexivity|].
  cbn [polls Nat.add]. apply IH.
Qed.

Lemma polls_input : forall j (w : World R Sd),
  (j <= List.length (input w))%nat ->
  (List.length (input (polls j w)) + j = List.length (input w))%nat.
Proof.
  induction j as [|j IH]; intros w Hj; cbn [polls]; [lia|].
  pose proof (input_polled w) as Hp.
  pose proof (IH (polled w) ltac:(rewrite Hp; lia)) as Hi. lia.
Qed.

(** [waitForButtonPress], run: edges are drained up to the first quiet
    poll [k]; the next poll that shows an edge, [k + S n], ends the wait. *)
Lemma waitForButtonPress_run k n (w : World R Sd) :
  (1 <= k)%nat -> (k + S n <= List.length (input w))%nat ->
  (forall j, (1 <= j < k)%nat -> anyPressed (dev (polls j w)) = true) ->
  (forall j, (k <= j <= k + n)%nat -> anyPressed (dev (polls j w)) = false) ->
  anyPressed (dev (polls (k + S n) w)) = true ->
  waitForButtonPress w = mkRes (Some tt) (polls (k + S n) w) [].
Proof.
  intros Hk Hlen Hdrain Hquiet Hedge.
  unfold waitForButtonPress. rewrite bind_updateButtons.
  destruct (input w) as [|s rest] eqn:Ei; [simpl in Hlen; lia|].
  assert (Hin : List.length (input (polled w)) = List.length rest).
  { rewrite input_polled, Ei. reflexivity. }
  assert (Hpolls : forall j, polls j (polled w) = polls (S j) w) by reflexivity.
  assert (Hdr : whilePolling anyPressed (polled w) = mkRes (Some tt) (polls k w) []).
  { destruct k as [|k]; [lia|]. unfold whilePolling.
    rewrite (pollWhile_until anyPressed k); [rewrite Hpolls; reflexivity | | | |].
    - rewrite Hin. simpl in Hlen. lia.
    - lia.
    - intros j Hj. rewrite Hpolls. apply Hdrain. lia.
    - rewrite Hpolls. apply Hquiet. lia. }
  rewrite bind_step, Hdr. cbn [value world events]. rewrite after_nil.
  assert (Hleft : (List.length (input (polls k w)) + k = List.length (input w))%nat)
    by (apply polls_input; rewrite Ei; simpl in *; lia).
  rewrite Ei in Hleft. simpl in Hlen, Hleft.
  unfold whilePolling.
  rewrite (pollWhile_until (fun d => negb (anyPressed d)) (S n)).
  + rewrite polls_add. reflexivity.
  + lia.
  + lia.
  + intros j Hj. rewrite polls_add. rewrite Hquiet; [reflexivity | lia].
  + rewrite polls_add, Hedge. reflexivity.
Qed.

(** X16: [waitForButtonPress] waits for a fresh press.  It says nothing and
    touches neither radio nor SD card nor settings; when it returns, a
    press edge has just been seen and at least two polls have gone by, so
    that an edge already pending at entry is never what ends it.  Run on
    buttons that show an edge at the polls before [k], are quiet from poll
    [k] to poll [k + n] and show an edge at the next poll, it returns at
    that poll. *)
Theorem wait_returns_on_a_fresh_press (w : World R Sd) :
  let r := waitForButtonPress w in
  events r = [] /\ radio (world r) = radio w /\ sd (world r) = sd w /\
  settings_of (dev (world r)) = settings_of (dev w) /\
  (value r = Some tt ->
     anyPressed (dev (world r)) = true /\
     (List.length (input (world r)) + 2 <= List.length (input w))%nat) /\
  (forall k n,
     (1 <= k)%nat -> (k + S n <= List.length (input w))%nat ->
     (forall j, (1 <= j < k)%nat -> anyPressed (dev (polls j w)) = true) ->
     (forall j, (k <= j <= k + n)%nat -> anyPressed (dev (polls j w)) = false) ->
     anyPressed (dev (polls (k + S n) w)) = true ->
     r = mkRes (Some tt) (polls (k + S n) w) []).
Proof.
  cbv zeta.
  pose proof (keeps_waitForButtonPress w) as (Hr & Hs & _ & _).
  split; [apply waitForButtonPress_events|].
  split; [exact Hr|]. split; [exact Hs|].
  split; [apply (frame_waitForButtonPress settings_kept); frame_inst|].
  split.
  - unfold waitForButtonPress. rewrite bind_updateButtons.
    destruct (input w) as [|s rest] eqn:Ei; [discriminate|].
    rewrite bind_step.
    destruct (value (whilePolling anyPressed (polled w))) as [[]|] eqn:E1;
      [|discriminate].
    rewrite value_after, world_after. intros E2.
    unfold whilePolling in *.
    destruct (pollWhile_exit _ _ _ E1) as [Hq1 Hl1].
    destruct (pollWhile_exit _ _ _ E2) as [Hq2 Hl2].
    set (w1 := world (pollWhile _ anyPressed (polled w))) in *.
    rewrite Hq1 in Hl2. cbn [negb] in Hl2.
    apply Bool.negb_false_iff in Hq2. split; [exact Hq2|].
    pose proof (input_polled w) as Hp. rewrite Ei in Hp. cbn in Hp.
    destruct (anyPressed (dev (polled w))); cbn [List.length]; lia.
  - intros k n. apply waitForButtonPress_run.
Qed.

(** *** The file list *)

Lemma emits_deleteFile_any (Q : Event -> Prop) filename :
  (forall e, match e with EvDrawFileList _ _ _ => False | _ => True end -> Q e) ->
  emits Q (deleteFile filename).
Proof.
  intros H. unfold deleteFile.
  repeat (emits_step_with ltac:(intros; apply H; exact I)).
Qed.

Lemma emits_writeFileToCard_any (Q : Event -> Prop) filename :
  (forall e, match e with EvDrawFileList _ _ _ => False | _ => True end -> Q e) ->
  emits Q (writeFileToCard filename).
Proof.
  intros H. unfold writeFileToCard.
  repeat (emits_step_with ltac:(intros; apply H; exact I)).
Qed.

Lemma fileViewLoop_in_range op names : forall fuel i,
  0 <= i < Z.of_nat (List.length names) ->
  emits (draws_selection names) (fileViewLoop fuel op names i).
Proof.
  assert (Hdraw : forall i, 0 <= i < Z.of_nat (List.length names) ->
            draws_selection names
              (EvDrawFileList (fileListTitle op) (shownWindow names i) i)).
  { intros i Hi. split; [exact Hi|].
    pose proof (shownWindow_has_selection names (Z.to_nat i) ltac:(lia)) as H.
    rewrite Z2Nat.id in H by lia. exact H. }
  induction fuel as [|fuel IH]; intros i Hi; cbn [fileViewLoop]; [apply emits_waiting|].
  pose proof (menu_up_eq i _ Hi) as Hu. pose proof (menu_down_eq i _ Hi) as Hd.
  assert (Ru : 0 <= menu_up i (Z.of_nat (List.length names))
               < Z.of_nat (List.length names))
    by (rewrite Hu; destruct (Z.eqb_spec i 0); lia).
  assert (Rd : 0 <= menu_down i (Z.of_nat (List.length names))
               < Z.of_nat (List.length names))
    by (rewrite Hd; destruct (Z.eqb_spec i (Z.of_nat (List.length names) - 1)); lia).
  apply emits_bind; [apply emits_updateButtons|]. intros _.
  apply emits_bind; [apply emits_getDev|]. intros d.
  destruct (pressed (btnBack d)); [apply emits_ret|].
  destruct (pressed (btnUp d)).
  { apply emits_bind; [apply emits_emit, Hdraw, Ru | intros _; apply IH, Ru]. }
  destruct (pressed (btnDown d)).
  { apply emits_bind; [apply emits_emit, Hdraw, Rd | intros _; apply IH, Rd]. }
  destruct (pressed (btnSelect d)).
  - apply emits_bind; [|intros _; apply emits_emit, Hdraw, Hi].
    destruct (String.eqb op "delete");
      [apply emits_deleteFile_any; intros e He; destruct e; try exact I; contradiction|].
    destruct (String.eqb op "write");
      [apply emits_writeFileToCard_any; intros e He; destruct e; try exact I;
       contradiction|].
    apply emits_ret.
  - apply emits_bind; [apply emits_emit, Hdraw, Hi | intros _; apply IH, Hi].
Qed.

(** X17: whenever [viewFiles] draws the list, the selection is an index of
    the list -- Up and Down wrap around its ends, and no press takes it
    out -- and the selected entry is among the lines drawn. *)
Theorem file_list_selection_in_range (op : string) (w : World R Sd) :
  match SD_root (sd w) with
  | Some entries =>
      List.Forall (draws_selection (List.map entry_name entries))
                  (events (viewFiles op w))
  | None =>
      List.Forall (fun e => match e with
                            | EvDrawFileList _ _ _ => False
                            | _ => True
                            end) (events (viewFiles op w))
  end.
Proof.
  unfold viewFiles. rewrite bind_sd_root.
  destruct (SD_root (sd w)) as [entries|].
  2:{ rewrite bind_displayInfo, events_after, waitForButtonPress_events.
      repeat constructor. }
  destruct entries as [|e0 entries].
  { cbn [List.length Nat.eqb].
    rewrite bind_displayInfo, events_after, waitForButtonPress_events.
    repeat constructor. }
  cbn [List.length Nat.eqb]. rewrite bind_setDev.
  apply fileViewLoop_in_range. cbn [List.map List.length]. lia.
Qed.

Lemma fileViewLoop_shows op names :
  String.eqb op "delete" = false -> String.eqb op "write" = false ->
  forall fuel i, emits shows (fileViewLoop fuel op names i).
Proof.
  intros H1 H2. induction fuel as [|fuel IH]; intros i; cbn [fileViewLoop];
    rewrite ?H1, ?H2; emits_tac; apply IH.
Qed.

(** X18: the list opened to view -- with an operation that is neither
    "delete" nor "write" -- changes nothing, whatever is pressed: all it
    does is draw, or show an error; it makes no call to the radio, changes
    no file, and leaves the SD card and the settings as they were. *)
Theorem browsing_changes_nothing (op : string) (w : World R Sd) :
  String.eqb op "delete" = false -> String.eqb op "write" = false ->
  List.Forall shows (events (viewFiles op w)) /\
  sd (world (viewFiles op w)) = sd w /\
  settings_of (dev (world (viewFiles op w))) = settings_of (dev w).
Proof.
  intros H1 H2. split; [|split].
  - assert (H : emits shows (viewFiles op)).
    { unfold viewFiles. emits_tac. intros w0. apply fileViewLoop_shows; assumption. }
    exact (H w).
  - apply (frame_viewFiles_keeping storage_kept); try frame_inst. exact H1.
  - apply (frame_viewFiles settings_kept); frame_inst.
Qed.

(** The file list, run up to a press of Back. *)
Lemma fileViewLoop_back op names : forall m fuel (w : World R Sd) idx,
  (S m <= List.length (input w))%nat -> (List.length (input w) <= fuel)%nat ->
  (forall j, (1 <= j <= m)%nat -> nav_stays (dev (polls j w)) = true) ->
  pressed (btnBack (dev (polls (S m) w))) = true ->
  fileViewLoop fuel op names idx w =
  mkRes (Some tt) (polls (S m) w) (nav_draws m (fileListTitle op) names w idx).
Proof.
  induction m as [|m IH]; intros fuel w idx Hm Hf Hstay Hback.
  - destruct fuel; [lia|]. cbn [fileViewLoop nav_draws polls].
    rewrite bind_updateButtons.
    destruct (input w) as [|s rest] eqn:Ei; [simpl in Hm; lia|].
    rewrite bind_getDev. cbn [polls] in Hback. rewrite Hback. reflexivity.
  - destruct fuel; [lia|]. cbn [fileViewLoop].
    rewrite bind_updateButtons.
    destruct (input w) as [|s rest] eqn:Ei; [simpl in Hm; lia|].
    rewrite bind_getDev.
    pose proof (Hstay 1%nat ltac:(lia)) as H1. cbn [polls] in H1.
    assert (Hrec : forall i',
              bind (emit (EvDrawFileList (fileListTitle op)
                                         (shownWindow names i') i'))
                   (fun _ => fileViewLoop fuel op names i') (polled w) =
              mkRes (Some tt) (polls (S m) (polled w))
                (EvDrawFileList (fileListTitle op) (shownWindow names i') i'
                 :: nav_draws m (fileListTitle op) names (polled w) i')).
    { intros i'. rewrite bind_emit. rewrite (IH fuel (polled w) i').
      - reflexivity.
      - rewrite input_polled, Ei. simpl in *. lia.
      - rewrite input_polled, Ei. simpl in *. lia.
      - intros j Hj. apply (Hstay (S j)). lia.
      - exact Hback. }
    cbn [nav_draws polls]. unfold nav_step, nav_stays in *.
    destruct (pressed (btnBack (dev (polled w)))); [discriminate|].
    destruct (pressed (btnUp (dev (polled w)))); [apply Hrec|].
    destruct (pressed (btnDown (dev (polled w)))); [apply Hrec|].
    destruct (pressed (btnSelect (dev (polled w)))); [discriminate|].
    apply Hrec.
Qed.

(** X19: Back leaves the file list without running its operation, be it
    "delete" or "write": after polls that move the selection or show
    nothing, the poll that shows Back ends [viewFiles] at once, and all it
    has done is draw the list after each earlier poll.  The list is not
    drawn again, and no file or card is touched. *)
Theorem back_leaves_the_file_list
    (op : string) (w : World R Sd) (entries : list DirEntry) (m : nat) :
  SD_root (sd w) = Some entries -> entries <> [] ->
  let names := List.map entry_name entries in
  let w' := with_dev w (set_view VIEW_FILE_LIST (dev w)) in
  (S m <= List.length (input w))%nat ->
  (forall j, (1 <= j <= m)%nat -> nav_stays (dev (polls j w')) = true) ->
  pressed (btnBack (dev (polls (S m) w'))) = true ->
  viewFiles op w =
    mkRes (Some tt) (polls (S m) w') (nav_draws m (fileListTitle op) names w' 0) /\
  List.length (events (viewFiles op w)) = m /\
  List.Forall shows (events (viewFiles op w)) /\
  radio (world (viewFiles op w)) = radio w /\ sd (world (viewFiles op w)) = sd w.
Proof.
  intros Hroot Hne names w' Hm Hstay Hback.
  assert (E : viewFiles op w =
              mkRes (Some tt) (polls (S m) w')
                    (nav_draws m (fileListTitle op) names w' 0)).
  { unfold viewFiles. rewrite bind_sd_root, Hroot.
    destruct entries as [|e0 entries]; [congruence|].
    cbn [List.length Nat.eqb]. rewrite bind_setDev. fold w'.
    apply fileViewLoop_back; auto. }
  assert (Hlen : forall k (w0 : World R Sd) i,
            List.length (nav_draws k (fileListTitle op) names w0 i) = k).
  { induction k as [|k IH]; intros w0 i; cbn [nav_draws List.length];
      [reflexivity | rewrite IH; reflexivity]. }
  assert (Hshows : forall k (w0 : World R Sd) i,
            List.Forall shows (nav_draws k (fileListTitle op) names w0 i)).
  { induction k as [|k IH]; intros w0 i; cbn [nav_draws]; constructor;
      [reflexivity | apply IH]. }
  assert (Hkeep : forall k (w0 : World R Sd),
            radio (polls k w0) = radio w0 /\ sd (polls k w0) = sd w0).
  { induction k as [|k IH]; intros w0; cbn [polls]; [split; reflexivity|].
    destruct (IH (polled w0)) as [Hr Hs]. rewrite Hr, Hs.
    unfold polled. destruct (input w0); split; reflexivity. }
  rewrite E. cbn [events world].
  split; [reflexivity|]. split; [apply Hlen|]. split; [apply Hshows|].
  destruct (Hkeep (S m) w') as [Hr Hs]. rewrite Hr, Hs. split; reflexivity.
Qed.

(** X20: without entries there is no list: when the root does not open,
    or holds nothing, [viewFiles] shows the one notice, whatever the
    operation and whatever is pressed; no list is drawn and nothing is
    deleted or written. *)
Theorem file_list_needs_entries (op : string) (w : World R Sd) :
  (SD_root (sd w) = None ->
   events (viewFiles op w) = [EvDisplayInfo "SD Error" "Cannot open root dir." ""]) /\
  (SD_root (sd w) = Some [] ->
   events (viewFiles op w) = [EvDisplayInfo "SD Card" "No files found." ""]) /\
  (SD_root (sd w) = None \/ SD_root (sd w) = Some [] ->
   radio (world (viewFiles op w)) = radio w /\ sd (world (viewFiles op w)) = sd w).
Proof.
  assert (G : forall a b c,
            events (bind (displayInfo a b c) (fun _ => waitForButtonPress) w) =
              [EvDisplayInfo a b c] /\
            radio (world (bind (displayInfo a b c) (fun _ => waitForButtonPress) w))
              = radio w /\
            sd (world (bind (displayInfo a b c) (fun _ => waitForButtonPress) w))
              = sd w).
  { intros a b c. exact (cancelled_tail a b c w). }
  unfold viewFiles. rewrite bind_sd_root.
  split; [|split].
  - intros ->. apply G.
  - intros ->. apply G.
  - intros [-> | ->]; apply G.
Qed.

(** *** The state machine of the menus *)

Lemma polled_keeps_ui (w : World R Sd) :
  currentView (dev (polled w)) = currentView (dev w) /\
  settings_of (dev (polled w)) = settings_of (dev w) /\
  radio (polled w) = radio w /\ sd (polled w) = sd w.
Proof. unfold polled. destruct (input w); repeat split. Qed.

Lemma settings_menu_ok (d d' : Device) :
  settings_of d' = settings_of d -> currentView d' = currentView d ->
  menu_ok d -> menu_ok d'.
Proof.
  unfold settings_of, menu_ok. intros Hs Hv (Hview & Hm & Hsd).
  injection Hs as _ H2 H3 _ _. rewrite Hv, H2, H3. auto.
Qed.

(** What follows an action chosen in the main menu. *)
Lemma executeMenuItem_menu_ok (w : World R Sd) :
  menu_ok (dev w) ->
  value (executeMenuItem (currentMenuItem (dev w)) w) = Some tt ->
  menu_ok (dev (world (executeMenuItem (currentMenuItem (dev w)) w))).
Proof.
  intros (Hview & Hm & Hsd) Hv.
  set (item := currentMenuItem (dev w)) in *.
  assert (Haction : forall (act : M R Sd unit),
            keeps settings_kept act -> (item <? 5) = true ->
            value (bind act (fun _ => when (item <? 5)
                                       (setDev (set_view VIEW_MAIN_MENU))) w) = Some tt ->
            menu_ok (dev (world (bind act (fun _ => when (item <? 5)
                                       (setDev (set_view VIEW_MAIN_MENU))) w)))).
  { intros act Hk H5 Hret. apply bind_returns in Hret.
    destruct Hret as ([] & _ & _ & Hw). rewrite Hw, H5. cbn [when].
    specialize (Hk w). unfold settings_kept, settings_of in Hk.
    injection Hk as _ H2 H3 _ _.
    unfold menu_ok. cbn [setDev world dev with_dev set_view currentView
                         currentMenuItem currentSDMenuItem].
    rewrite H2, H3. split; [left; reflexivity | split; assumption]. }
  unfold executeMenuItem in *. unfold totalMenuItems in Hm.
  destruct (Z.eqb_spec item 0) as [E|N0];
    [apply Haction; [apply (frame_readCard settings_kept); frame_inst
                    | rewrite E; reflexivity | exact Hv]|].
  destruct (Z.eqb_spec item 1) as [E|N1];
    [apply Haction; [apply (frame_dumpCard settings_kept); frame_inst
                    | rewrite E; reflexivity | exact Hv]|].
  destruct (Z.eqb_spec item 2) as [E|N2];
    [apply Haction; [apply (frame_readNDEF settings_kept); frame_inst
                    | rewrite E; reflexivity | exact Hv]|].
  destruct (Z.eqb_spec item 3) as [E|N3];
    [apply Haction; [apply (frame_readWriteCard settings_kept); frame_inst
                    | rewrite E; reflexivity | exact Hv]|].
  destruct (Z.eqb_spec item 4) as [E|N4];
    [apply Haction; [apply (frame_eraseCard settings_kept); frame_inst
                    | rewrite E; reflexivity | exact Hv]|].
  destruct (Z.eqb_spec item 5) as [E|Hn]; [|lia].
  rewrite E. unfold menu_ok, totalMenuItems, totalSDMenuItems in *.
  cbn. fold item. split; [right; reflexivity | lia].
Qed.

Lemma executeSDMenuAction_menu_ok item (w : World R Sd) :
  menu_ok (dev w) ->
  value (executeSDMenuAction item w) = Some tt ->
  menu_ok (dev (world (executeSDMenuAction item w))).
Proof.
  intros (Hview & Hm & Hsd) Hv. unfold executeSDMenuAction in *.
  apply bind_returns in Hv. destruct Hv as ([] & _ & _ & Hw). rewrite Hw.
  match goal with |- context [world (?act w)] =>
    assert (Hk : settings_kept w (world (act w))) end.
  { destruct (item =? 0); [apply (frame_viewFiles settings_kept); frame_inst|].
    destruct (item =? 1); [apply (frame_viewFiles settings_kept); frame_inst|].
    destruct (item =? 2); [apply (frame_viewFiles settings_kept); frame_inst|].
    reflexivity. }
  unfold settings_kept, settings_of in Hk. injection Hk as _ H2 H3 _ _.
  rewrite bind_setDev. unfold menu_ok.
  cbn [setDev world dev with_dev set_view set_needsRedraw currentView
       currentMenuItem currentSDMenuItem].
  rewrite H2, H3. split; [right; reflexivity | split; assumption].
Qed.

Lemma handleInput_menu_ok (w : World R Sd) :
  menu_ok (dev w) ->
  value (handleInput w) = Some tt ->
  menu_ok (dev (world (handleInput w))).
Proof.
  intros Hok Hv. pose proof Hok as (Hview & Hm & Hsd).
  unfold handleInput in *. rewrite bind_getDev in *.
  destruct Hview as [Hview | Hview]; rewrite Hview in *.
  - (* the main menu *)
    unfold handleMenuInput in *. rewrite bind_getDev in *.
    destruct (pressed (btnUp (dev w))).
    { rewrite bind_setDev. unfold menu_ok.
      cbn [setDev world dev with_dev set_currentMenuItem set_needsRedraw
           currentView currentMenuItem currentSDMenuItem].
      pose proof (menu_up_eq _ _ Hm) as E. rewrite E.
      unfold totalMenuItems in *.
      split; [left; exact Hview | split; [|exact Hsd]].
      destruct (Z.eqb_spec (currentMenuItem (dev w)) 0); lia. }
    destruct (pressed (btnDown (dev w))).
    { rewrite bind_setDev. unfold menu_ok.
      cbn [setDev world dev with_dev set_currentMenuItem set_needsRedraw
           currentView currentMenuItem currentSDMenuItem].
      pose proof (menu_down_eq _ _ Hm) as E. rewrite E.
      unfold totalMenuItems in *.
      split; [left; exact Hview | split; [|exact Hsd]].
      destruct (Z.eqb_spec (currentMenuItem (dev w)) (6 - 1)); lia. }
    destruct (pressed (btnSelect (dev w))); [|exact Hok].
    apply bind_returns in Hv. destruct Hv as ([] & Hv1 & _ & Hw). rewrite Hw.
    pose proof (executeMenuItem_menu_ok w Hok Hv1) as Hok1.
    rewrite bind_getDev.
    destruct (currentView (dev (world (executeMenuItem (currentMenuItem (dev w)) w))))
      eqn:Ev; exact Hok1.
  - (* the SD menu *)
    unfold handleSDMenuInput in *. rewrite bind_getDev in *.
    destruct (pressed (btnBack (dev w))).
    { rewrite bind_setDev. unfold menu_ok.
      cbn [setDev world dev with_dev set_view set_needsRedraw
           currentView currentMenuItem currentSDMenuItem].
      split; [left; reflexivity | split; assumption]. }
    destruct (pressed (btnUp (dev w))).
    { rewrite bind_setDev. unfold menu_ok.
      cbn [setDev world dev with_dev set_currentSDMenuItem set_needsRedraw
           currentView currentMenuItem currentSDMenuItem].
      pose proof (menu_up_eq _ _ Hsd) as E. rewrite E.
      unfold totalSDMenuItems in *.
      split; [right; exact Hview | split; [exact Hm|]].
      destruct (Z.eqb_spec (currentSDMenuItem (dev w)) 0); lia. }
    destruct (pressed (btnDown (dev w))).
    { rewrite bind_setDev. unfold menu_ok.
      cbn [setDev world dev with_dev set_currentSDMenuItem set_needsRedraw
           currentView currentMenuItem currentSDMenuItem].
      pose proof (menu_down_eq _ _ Hsd) as E. rewrite E.
      unfold totalSDMenuItems in *.
      split; [right; exact Hview | split; [exact Hm|]].
      destruct (Z.eqb_spec (currentSDMenuItem (dev w)) (3 - 1)); lia. }
    destruct (pressed (btnSelect (dev w))); [|exact Hok].
    apply executeSDMenuAction_menu_ok; assumption.
Qed.

Lemma loop_menu_ok (w : World R Sd) :
  menu_ok (dev w) -> value (loop w) = Some tt ->
  menu_ok (dev (world (loop w))) /\ needsRedraw (dev (world (loop w))) = false.
Proof.
  intros Hok Hv. unfold loop in *. rewrite bind_updateButtons in *.
  destruct (input w) as [|s rest]; [discriminate|].
  destruct (polled_keeps_ui w) as (Hpv & Hps & _ & _).
  assert (Hok1 : menu_ok (dev (polled w)))
    by (apply (settings_menu_ok (dev w)); assumption).
  apply bind_returns in Hv. destruct Hv as ([] & Hv1 & _ & Hw). rewrite Hw.
  pose proof (handleInput_menu_ok (polled w) Hok1 Hv1) as Hok2.
  set (w2 := world (handleInput (polled w))) in *.
  rewrite bind_getDev. unfold when, drawCurrentView.
  destruct (needsRedraw (dev w2)) eqn:En.
  - rewrite bind_bind, bind_getDev.
    destruct (currentView (dev w2)); cbn; split; (exact Hok2 || reflexivity).
  - cbn. split; [exact Hok2 | exact En].
Qed.

(** X21: the menus never leave their lists.  From a state in which the
    device shows the main menu or the SD menu and both selections are items
    of their menus, every turn of [loop] that comes to its end leaves such a
    state again, whatever was pressed and whatever the action chosen did:
    an action always hands over to one of the two menus, Up and Down wrap
    around, and the turn ends with nothing left to redraw. *)
Theorem menus_stay_in_range (n : nat) (w : World R Sd) :
  menu_ok (dev w) -> value (loops n w) = Some tt ->
  menu_ok (dev (world (loops n w))) /\
  ((0 < n)%nat -> needsRedraw (dev (world (loops n w))) = false).
Proof.
  revert w. induction n as [|n IH]; intros w Hok Hv.
  - split; [exact Hok | lia].
  - cbn [loops] in *. apply bind_returns in Hv.
    destruct Hv as ([] & Hv1 & Hv2 & Hw). rewrite Hw.
    destruct (loop_menu_ok w Hok Hv1) as [Hok1 Hr1].
    destruct (IH _ Hok1 Hv2) as [Hok2 Hr2]. split; [exact Hok2|].
    intros _. destruct n as [|n]; [exact Hr1 | apply Hr2; lia].
Qed.

(** *** After start-up *)








(** *** The keys of the dictionary *)

Lemma byte_token_is_byte tok v : byte_token tok = Some v -> is_byte v.
Proof.
  unfold byte_token, is_byte. destruct (strtol16 tok) as [val endPtr].
  destruct endPtr; [|discriminate].
  destruct (Z.leb_spec 0 val), (Z.leb_spec val 255); cbn; intros Hv;
    try discriminate. injection Hv as <-. lia.
Qed.

Lemma first_bytes_are_bytes : forall room toks vs,
  first_bytes room toks = Some vs ->
  List.length vs = room /\ List.Forall is_byte vs.
Proof.
  induction room as [|room IH]; intros toks vs H.
  - cbn in H. injection H as <-. split; [reflexivity | constructor].
  - destruct toks as [|t ts]; [discriminate|]. cbn [first_bytes] in H.
    destruct (byte_token t) as [v|] eqn:Ev; [|discriminate].
    destruct (first_bytes room ts) as [vs'|] eqn:Er; [|discriminate].
    injection H as <-. destruct (IH _ _ Er) as [Hl Hb].
    split; [cbn; rewrite Hl; reflexivity|].
    constructor; [exact (byte_token_is_byte _ _ Ev) | exact Hb].
Qed.

Lemma classify_keys : forall lines n,
  List.Forall is_key (fst (classify lines n)).
Proof.
  induction lines as [|raw lines IH]; intros n; [constructor|].
  cbn [classify]. destruct (Nat.ltb n 50); [|constructor].
  destruct (trim raw) as [|c r] eqn:Et; [apply IH|].
  destruct (line_key (c :: r)) as [k|] eqn:Ek.
  - specialize (IH (S n)). destruct (classify lines (S n)) as [ks bad].
    cbn [fst] in *. constructor; [|exact IH].
    unfold line_key in Ek. apply first_bytes_are_bytes in Ek. exact Ek.
  - specialize (IH n). destruct (classify lines n) as [ks bad]. exact IH.
Qed.

(** X23: every key that gets into the dictionary is six bytes.  Whatever
    [/keys.txt] holds, the keys loaded from it are rows of six values from
    0 to 255, and so are the keys of the dictionary once [setup] has
    returned from the power-on state, loaded or built in. *)
Theorem dictionary_keys_are_six_bytes (w : World R Sd) :
  (forall content, List.Forall is_key (file_keys content)) /\
  (dev w = device0 -> value (setup w) = Some tt ->
   List.Forall is_key
     (dictionary (keys (dev (world (setup w)))) (numKeys (dev (world (setup w)))))).
Proof.
  assert (Hfile : forall content, List.Forall is_key (file_keys content)).
  { intros content. rewrite file_keys_classify. apply classify_keys. }
  split; [exact Hfile|]. intros Hdev Hret.
  assert (Hsplit := setup_split w).
  rewrite Hsplit in Hret. apply bind_returns in Hret.
  destruct Hret as ([] & _ & Hload & Hw).
  set (w0 := world (setup_until_load w)) in *.
  assert (Hk0 : keys (dev w0) = keys0).
  { pose proof (keeps_setup_until_load w) as Hk. unfold same_dict in Hk.
    fold w0 in Hk. injection Hk as Hk _. rewrite Hk, Hdev. reflexivity. }
  destruct (loadKeysFromSD_spec w0) as (_ & _ & Hd); auto.
  { rewrite Hk0. reflexivity. }
  { rewrite Hk0. apply keys0_rows_ok. }
  rewrite Hsplit, Hw, Hd.
  assert (Hdef : List.Forall is_key defaultKeys)
    by (repeat constructor; unfold is_byte; lia).
  destruct (SD_open_read (sd w0) "/keys.txt") as [content|]; [|exact Hdef].
  pose proof (classify_keys (file_lines content) 0) as Hc.
  destruct (fst (classify (file_lines content) 0)); [exact Hdef | exact Hc].
Qed.

(** *** What is reported *)

(** The shared step, run: the detection, then the attempts of the
    authentication, then what follows its answer. *)
Lemma card_step_events (access : M R Sd unit) (a b c a' b' c' : string)
    (w : World R Sd) :
  exists attempts : list Event,
    List.forallb is_auth attempts = true /\
    (events
       ((found <- nfc_readPassiveTargetID 5000 ;;
         match found with
         | Some uid =>
             ok <- authenticateBlock uid (Z.of_nat (List.length uid)) 4 ;;
             if ok then access else displayInfo a b c
         | None => displayInfo a' b' c'
         end ;;; waitForButtonPress) w)
     = [EvDetect 5000 None; EvDisplayInfo a' b' c'] \/
     (exists uid,
        events
          ((found <- nfc_readPassiveTargetID 5000 ;;
            match found with
            | Some uid =>
                ok <- authenticateBlock uid (Z.of_nat (List.length uid)) 4 ;;
                if ok then access else displayInfo a b c
            | None => displayInfo a' b' c'
            end ;;; waitForButtonPress) w)
        = EvDetect 5000 (Some uid) :: attempts ++ [EvDisplayInfo a b c]) \/
     (exists uid w',
        events
          ((found <- nfc_readPassiveTargetID 5000 ;;
            match found with
            | Some uid =>
                ok <- authenticateBlock uid (Z.of_nat (List.length uid)) 4 ;;
                if ok then access else displayInfo a b c
            | None => displayInfo a' b' c'
            end ;;; waitForButtonPress) w)
        = EvDetect 5000 (Some uid) :: attempts ++ events (access w'))).
Proof.
  rewrite bind_nfc_readPassiveTargetID, events_after, events_then_wait.
  set (w1 := with_radio w _).
  destruct (fst (readPassiveTargetID (radio w) 5000)) as [uid|].
  2:{ exists []. split; [reflexivity|]. left. reflexivity. }
  rewrite bind_step.
  destruct (authenticateBlock_runs uid (Z.of_nat (List.length uid)) 4 w1)
    as (res & rd & evs & E & Hall & Hres).
  rewrite E. cbn [value world events]. rewrite events_after.
  exists evs. split; [exact Hall|]. right.
  destruct res; [right; exists uid; eexists; reflexivity | left; exists uid; reflexivity].
Qed.

Lemma attempts_hold_no_report (attempts : list Event) (e : Event) :
  List.forallb is_auth attempts = true -> is_auth e = false ->
  ~ List.In e attempts.
Proof.
  intros Hall He Hin. rewrite List.forallb_forall in Hall.
  specialize (Hall e Hin). congruence.
Qed.

(** Decides whether an event is in a trace made of explicit events and
    of the attempts of an authentication. *)
Ltac in_trace :=
  repeat match goal with
  | H : List.In _ (_ :: _) |- _ => destruct H as [H | H]; [try discriminate|]
  | H : List.In _ (_ ++ _) |- _ => apply List.in_app_or in H; destruct H as [H | H]
  | H : List.In _ [] |- _ => contradiction
  | H : List.In ?e ?l, Hall : List.forallb is_auth ?l = true |- _ =>
      exfalso; exact (attempts_hold_no_report l e Hall eq_refl H)
  end.

(** Finds an event in a trace given explicitly. *)
Ltac find_in :=
  cbn [List.app];
  repeat match goal with
  | |- List.In _ (_ :: _) => first [left; reflexivity | right]
  | |- List.In _ (_ ++ _) => apply List.in_or_app; right; cbn [List.app]
  end.

(** X25: success is reported only when the radio reported it, and always
    then.  [eraseCard] shows "Erase Success!" exactly when its write of
    block 4 was accepted, [writeFileToCard] shows "Write Success!" exactly
    when its write was, and [readWriteCard] shows "Read Success!", with the
    bytes of the block, exactly when its read of block 4 returned them. *)
Theorem success_is_reported_faithfully (w : World R Sd) :
  (List.In (EvDisplayInfo "Erase Success!" "Block 4 zeroed." "") (events (eraseCard w))
   <-> List.In (EvWriteBlock 4 zeros16 true) (events (eraseCard w))) /\
  (forall filename,
     List.In (EvDisplayInfo "Write Success!" "Data written." "")
             (events (writeFileToCard filename w))
     <-> exists data, List.In (EvWriteBlock 4 data true)
                              (events (writeFileToCard filename w))) /\
  (forall isWrite bytes,
     List.In (EvDisplayInfo "Read Success!" "Block 4" (dataHex bytes))
             (events (readWriteCard isWrite w))
     <-> exists data, dataHex data = dataHex bytes /\
           List.In (EvReadBlock 4 (Some data)) (events (readWriteCard isWrite w))).
Proof.
  split; [|split].
  - unfold eraseCard. rewrite bind_displayInfo, events_after, bind_step.
    set (w1 := with_dev w _).
    pose proof (confirmAction_events "Erase Block 4?" w1) as Hc.
    destruct (value (confirmAction "Erase Block 4?" w1)) as [accepted|];
      cbn [events]; rewrite ?events_after, Hc.
    2:{ split; intros H; in_trace. }
    destruct accepted; cbn [negb].
    2:{ rewrite bind_displayInfo, events_after, waitForButtonPress_events.
        split; intros H; in_trace. }
    match goal with |- context [events (?m ?w0)] =>
      destruct (card_step_events
                  (written <- nfc_WriteDataBlock 4 zeros16 ;;
                   if written
                   then displayInfo "Erase Success!"
                          ("Block " ++ String_DEC 4 ++ " zeroed.") ""
                   else displayInfo "Erase Failed!" "" "")
                  "Auth Failed!" "Cannot access block." ""
                  "Erase Failed" "No card found." "" w0)
        as (attempts & Hall & [E | [(uid & E) | (uid & w' & E)]])
    end; rewrite E.
    + split; intros H; in_trace.
    + split; intros H; in_trace.
    + rewrite bind_nfc_WriteDataBlock, events_after.
      destruct (fst (mifareclassic_WriteDataBlock (radio w') 4 zeros16));
        rewrite ?displayInfo_run; cbn [events]; split; intros H; in_trace;
        find_in.
  - intros filename.
    unfold writeFileToCard. rewrite bind_displayInfo, events_after, bind_sd_open_read.
    set (w1 := with_dev w _).
    destruct (SD_open_read (sd w1) filename) as [content|].
    2:{ rewrite bind_displayInfo, events_after, waitForButtonPress_events.
        split; [intros H | intros (data & H)]; in_trace. }
    destruct (Nat.ltb (List.length content) 16).
    { rewrite bind_displayInfo, events_after, waitForButtonPress_events.
      split; [intros H | intros (data & H)]; in_trace. }
    set (data := bytes_of_text (List.firstn 16 content)).
    destruct (card_step_events
                (displayInfo "Writing Data..." ("To block " ++ String_DEC 4) "" ;;;
                 written <- nfc_WriteDataBlock 4 data ;;
                 if written then displayInfo "Write Success!" "Data written." ""
                 else displayInfo "Write Failed!" "" "")
                "Auth Failed!" "Cannot access block." ""
                "Write Failed" "No card found." "" w1)
      as (attempts & Hall & [E | [(uid & E) | (uid & w' & E)]]); rewrite E.
    + split; [intros H | intros (d & H)]; in_trace.
    + split; [intros H | intros (d & H)]; in_trace.
    + rewrite bind_displayInfo, events_after, bind_nfc_WriteDataBlock, events_after.
      set (w2 := with_dev w' _).
      destruct (fst (mifareclassic_WriteDataBlock (radio w2) 4 data));
        rewrite ?displayInfo_run; cbn [events]; (split; [intros H | intros (d & H)]); in_trace.
      * exists data.
        find_in.
      * find_in.
  - intros isWrite bytes.
    unfold readWriteCard. rewrite bind_displayInfo, events_after.
    set (w1 := with_dev w _).
    destruct (card_step_events
                (if isWrite then ret tt
                 else
                   data <- nfc_ReadDataBlock 4 ;;
                   match data with
                   | Some bytes0 =>
                       displayInfo "Read Success!" ("Block " ++ String_DEC 4)
                                   (dataHex bytes0)
                   | None => displayInfo "Read Failed!" "" ""
                   end)
                "Auth Failed!" "Cannot access block." ""
                "Operation Failed" "No card found." "" w1)
      as (attempts & Hall & [E | [(uid & E) | (uid & w' & E)]]); rewrite E.
    + split; [intros H | intros (d & _ & H)]; in_trace.
    + split; [intros H | intros (d & _ & H)]; in_trace.
    + destruct isWrite.
      { cbn [ret events]. split; [intros H | intros (d & _ & H)]; in_trace. }
      rewrite bind_nfc_ReadDataBlock. cbv zeta. rewrite events_after.
      destruct (option_map block16 (fst (mifareclassic_ReadDataBlock (radio w') 4)))
        as [got|]; rewrite ?displayInfo_run; cbn [events];
        (split; [intros H | intros (d & Hd & H)]); in_trace.
      * exists got. injection H as Hg. split; [exact Hg|].
        find_in.
      * injection H as <-. rewrite Hd.
        find_in.
Qed.

(** *** The dump and its file *)

Lemma follows_split gate (g : Event -> bool) (front back : list Event) :
  List.Forall (fun e => g e = false) front ->
  List.In gate front \/ List.Forall (fun e => g e = false) back ->
  follows gate g (front ++ back).
Proof.
  intros Hf Hor pre e post Heq Ha.
  revert pre e post Heq Ha.
  apply (guarded_split g (fun l => List.In gate l)); try assumption.
  intros x y. apply In_mono_app.
Qed.

Lemma dumpToFile_follows uid f (front : list Event) (w : World R Sd) :
  List.Forall (fun e => dump_work e = false) front ->
  follows (EvSdOpenWrite f true) dump_work (front ++ events (dumpToFile uid f w)).
Proof.
  intros Hf. destruct (fst (SD_open_write (sd w) f)) eqn:Hopen.
  - destruct (dumpToFile_opened uid f w Hopen) as (body & He & _). rewrite He.
    change ([EvSdOpenWrite f true; EvDisplayInfo "Dumping Card..." f ""] ++ ?x)
      with ([EvSdOpenWrite f true] ++ ([EvDisplayInfo "Dumping Card..." f ""] ++ x)).
    rewrite List.app_assoc. apply follows_split.
    + apply List.Forall_app. split; [exact Hf | repeat constructor].
    + left. apply List.in_or_app. right. left. reflexivity.
  - rewrite (dumpToFile_not_opened uid f w Hopen). apply follows_split; [exact Hf|].
    right. repeat constructor.
Qed.

(** X26: a dump works on the card only once its file is open.  No block is
    authenticated or read, and nothing is written to the file, before
    [SD.open] has returned the file; when the file cannot be created, or
    the overwrite is declined, or no card is found, the card is not read at
    all. *)
Theorem dump_reads_after_opening (w : World R Sd) :
  match fst (readPassiveTargetID (radio w) 2000) with
  | Some uid =>
      follows (EvSdOpenWrite (dumpFilename uid) true) dump_work (events (dumpCard w))
  | None =>
      List.Forall (fun e => dump_work e = false) (events (dumpCard w))
  end.
Proof.
  unfold dumpCard.
  rewrite bind_displayInfo, events_after, bind_nfc_readPassiveTargetID, events_after.
  change (radio (with_dev w (set_view VIEW_ACTION (dev w)))) with (radio w).
  set (w1 := with_radio _ _).
  destruct (fst (readPassiveTargetID (radio w) 2000)) as [uid|].
  2:{ do 2 (constructor; [reflexivity|]).
      by_emits (fun e => dump_work e = false). }
  set (f := dumpFilename uid). rewrite bind_sd_exists.
  destruct (SD_exists (sd w1) f).
  - rewrite bind_step.
    pose proof (confirmAction_events "Overwrite file?" w1) as Hc.
    destruct (value (confirmAction "Overwrite file?" w1)) as [accepted|];
      cbn [events]; rewrite ?events_after, Hc.
    + destruct accepted; cbn [negb].
      * rewrite bind_sd_remove. cbv zeta. rewrite events_after.
        set (w2 := with_sd _ _). set (removed := fst (SD_remove _ f)).
        change ([EvDisplayInfo "Dump Card" "Place card on reader" ""] ++
                [EvDetect 2000 (Some uid)] ++
                (EvConfirmPrompt "Overwrite file?" ::
                 [EvConfirmed "Overwrite file?" true]) ++
                [EvSdRemove f removed] ++ ?x)
          with ([EvDisplayInfo "Dump Card" "Place card on reader" "";
                 EvDetect 2000 (Some uid);
                 EvConfirmPrompt "Overwrite file?";
                 EvConfirmed "Overwrite file?" true;
                 EvSdRemove f removed] ++ x).
        apply dumpToFile_follows. repeat constructor.
      * rewrite bind_displayInfo, events_after, waitForButtonPress_events.
        apply (follows_split _ _
                 [EvDisplayInfo "Dump Card" "Place card on reader" "";
                  EvDetect 2000 (Some uid);
                  EvConfirmPrompt "Overwrite file?";
                  EvConfirmed "Overwrite file?" false;
                  EvDisplayInfo "Cancelled" "Dump cancelled." ""] []);
          [repeat constructor | right; constructor].
    + apply (follows_split _ _
               [EvDisplayInfo "Dump Card" "Place card on reader" "";
                EvDetect 2000 (Some uid);
                EvConfirmPrompt "Overwrite file?"] []);
        [repeat constructor | right; constructor].
  - change ([EvDisplayInfo "Dump Card" "Place card on reader" ""] ++
            [EvDetect 2000 (Some uid)] ++ ?x)
      with ([EvDisplayInfo "Dump Card" "Place card on reader" "";
             EvDetect 2000 (Some uid)] ++ x).
    apply dumpToFile_follows. repeat constructor.
Qed.

(** *** An action from call to return *)

(** X27: [readCard] returns, at the first fresh press.  It shows the
    invitation, looks for a card once, for two seconds, shows the identifier
    of the card found or the failure, and then waits: with buttons that show
    an edge at the polls before [k], are quiet from poll [k] to poll
    [k + n] and show an edge at the next poll, it returns at that poll,
    having done nothing else. *)
Theorem read_card_returns_on_a_press
    (w : World R Sd) (found : option (list Z)) (rd : R) (k n : nat) :
  readPassiveTargetID (radio w) 2000 = (found, rd) ->
  let w' := shown (with_radio (shown w) rd) in
  (1 <= k)%nat -> (k + S n <= List.length (input w))%nat ->
  (forall j, (1 <= j < k)%nat -> anyPressed (dev (polls j w')) = true) ->
  (forall j, (k <= j <= k + n)%nat -> anyPressed (dev (polls j w')) = false) ->
  anyPressed (dev (polls (k + S n) w')) = true ->
  readCard w =
  mkRes (Some tt) (polls (k + S n) w')
        [EvDisplayInfo "Reading Card..." "Place card on reader" "";
         EvDetect 2000 found; card_report found].
Proof.
  intros Hdet w' Hk Hlen Hdrain Hquiet Hedge.
  unfold readCard. rewrite bind_displayInfo, bind_nfc_readPassiveTargetID.
  change (radio (with_dev w (set_view VIEW_ACTION (dev w)))) with (radio w).
  rewrite Hdet. cbn [fst snd].
  change (with_radio (with_dev w (set_view VIEW_ACTION (dev w))) rd)
    with (with_radio (shown w) rd).
  assert (Hwait : waitForButtonPress w' = mkRes (Some tt) (polls (k + S n) w') [])
    by (apply waitForButtonPress_run; assumption).
  destruct found as [uid|]; rewrite bind_displayInfo;
    change (with_dev (with_radio (shown w) rd)
                     (set_view VIEW_ACTION (dev (with_radio (shown w) rd))))
      with w';
    rewrite Hwait; reflexivity.
Qed.

(** *** A turn of [loop] that runs an action *)

(** An action of the main menu, once it has returned: the view is the main
    menu again and the settings are what they were. *)
Lemma executeMenuItem_action item (w : World R Sd) :
  0 <= item < 5 ->
  value (executeMenuItem item w) = Some tt ->
  currentView (dev (world (executeMenuItem item w))) = VIEW_MAIN_MENU /\
  settings_of (dev (world (executeMenuItem item w))) = settings_of (dev w).
Proof.
  intros Hi Hv.
  assert (Haction : forall (act : M R Sd unit),
            keeps settings_kept act -> (item <? 5) = true ->
            value (bind act (fun _ => when (item <? 5)
                                       (setDev (set_view VIEW_MAIN_MENU))) w) = Some tt ->
            currentView (dev (world (bind act (fun _ => when (item <? 5)
                                       (setDev (set_view VIEW_MAIN_MENU))) w)))
              = VIEW_MAIN_MENU /\
            settings_of (dev (world (bind act (fun _ => when (item <? 5)
                                       (setDev (set_view VIEW_MAIN_MENU))) w)))
              = settings_of (dev w)).
  { intros act Hk H5 Hret. apply bind_returns in Hret.
    destruct Hret as ([] & _ & _ & Hw). rewrite Hw, H5. cbn [when].
    specialize (Hk w). split; [reflexivity | exact Hk]. }
  assert (H5 : (item <? 5) = true) by (apply Z.ltb_lt; lia).
  unfold executeMenuItem in *.
  destruct (Z.eqb_spec item 0) as [E|N0];
    [apply Haction; [apply (frame_readCard settings_kept); frame_inst
                    | exact H5 | exact Hv]|].
  destruct (Z.eqb_spec item 1) as [E|N1];
    [apply Haction; [apply (frame_dumpCard settings_kept); frame_inst
                    | exact H5 | exact Hv]|].
  destruct (Z.eqb_spec item 2) as [E|N2];
    [apply Haction; [apply (frame_readNDEF settings_kept); frame_inst
                    | exact H5 | exact Hv]|].
  destruct (Z.eqb_spec item 3) as [E|N3];
    [apply Haction; [apply (frame_readWriteCard settings_kept); frame_inst
                    | exact H5 | exact Hv]|].
  destruct (Z.eqb_spec item 4) as [E|N4];
    [apply Haction; [apply (frame_eraseCard settings_kept); frame_inst
                    | exact H5 | exact Hv]|].
  lia.
Qed.

(** X28: an action chosen in the main menu hands back to the main menu.
    In a turn of [loop] that starts in the main menu, sees Select alone and
    comes to its end, one of the five card actions has run; the view is then
    the main menu again, the selection is what it was, and the last thing
    the turn does is draw the main menu with that selection. *)
Theorem action_returns_to_main_menu (w : World R Sd) :
  currentView (dev w) = VIEW_MAIN_MENU ->
  0 <= currentMenuItem (dev w) < 5 ->
  pressed (btnUp (dev (polled w))) = false ->
  pressed (btnDown (dev (polled w))) = false ->
  pressed (btnSelect (dev (polled w))) = true ->
  value (loop w) = Some tt ->
  let item := currentMenuItem (dev w) in
  currentView (dev (world (loop w))) = VIEW_MAIN_MENU /\
  currentMenuItem (dev (world (loop w))) = item /\
  needsRedraw (dev (world (loop w))) = false /\
  events (loop w) =
    events (executeMenuItem item (polled w)) ++ [EvDrawMenu VIEW_MAIN_MENU item].
Proof.
  intros Hview Hitem Hup Hdown Hsel Hv item.
  destruct (polled_keeps_ui w) as (Hpv & Hps & _ & _).
  assert (Hpi : currentMenuItem (dev (polled w)) = item)
    by (unfold settings_of in Hps; injection Hps as _ H2 _ _ _; exact H2).
  unfold loop in *. rewrite bind_updateButtons in *.
  destruct (input w) as [|s rest]; [discriminate|].
  unfold handleInput in *. rewrite bind_bind, bind_getDev, Hpv, Hview in *.
  unfold handleMenuInput in *. rewrite bind_bind, bind_getDev, Hup, Hdown, Hsel, Hpi in *.
  rewrite bind_bind in *. rewrite bind_step in *.
  destruct (value (executeMenuItem item (polled w))) as [[]|] eqn:Ea; [|discriminate].
  destruct (executeMenuItem_action item (polled w) Hitem Ea) as [Hv2 Hs2].
  set (w2 := world (executeMenuItem item (polled w))) in *.
  assert (Hi2 : currentMenuItem (dev w2) = item).
  { unfold settings_of in Hs2. injection Hs2 as _ H2 _ _ _. rewrite H2. exact Hpi. }
  rewrite bind_bind, bind_getDev, Hv2, bind_setDev, bind_getDev.
  cbn [dev with_dev set_needsRedraw needsRedraw when].
  unfold drawCurrentView. rewrite bind_bind, bind_getDev.
  cbn [dev with_dev set_needsRedraw currentView]. rewrite Hv2.
  cbn [dev with_dev set_needsRedraw currentMenuItem]. rewrite Hi2.
  rewrite bind_emit.
  repeat split;
    cbn [after setDev events world value dev with_dev set_needsRedraw currentView
         currentMenuItem needsRedraw List.app];
    try assumption; reflexivity.
Qed.

(** The polls see the device and the input only. *)
Lemma polls_congr : forall j (w1 w2 : World R Sd),
  dev w1 = dev w2 -> input w1 = input w2 ->
  dev (polls j w1) = dev (polls j w2) /\ input (polls j w1) = input (polls j w2).
Proof.
  induction j as [|j IH]; intros w1 w2 Hd Hi; [split; assumption|].
  cbn [polls]. apply IH; unfold polled; rewrite Hi, Hd;
    destruct (input w2) eqn:E; cbn [dev input with_dev with_input];
    congruence.
Qed.

(** The wait, in a world that shows the buttons what [w0] shows them. *)
Lemma waitForButtonPress_returns k n (w w0 : World R Sd) :
  dev w = dev w0 -> input w = input w0 ->
  (1 <= k)%nat -> (k + S n <= List.length (input w0))%nat ->
  (forall j, (1 <= j < k)%nat -> anyPressed (dev (polls j w0)) = true) ->
  (forall j, (k <= j <= k + n)%nat -> anyPressed (dev (polls j w0)) = false) ->
  anyPressed (dev (polls (k + S n) w0)) = true ->
  value (waitForButtonPress w) = Some tt /\
  dev (world (waitForButtonPress w)) = dev (polls (k + S n) w0).
Proof.
  intros Hd Hi Hk Hlen Hdrain Hquiet Hedge.
  assert (Hc : forall j, dev (polls j w) = dev (polls j w0))
    by (intros j; apply polls_congr; assumption).
  rewrite (waitForButtonPress_run k n w).
  - split; [reflexivity | apply Hc].
  - exact Hk.
  - rewrite Hi. exact Hlen.
  - intros j Hj. rewrite Hc. apply Hdrain, Hj.
  - intros j Hj. rewrite Hc. apply Hquiet, Hj.
  - rewrite Hc. exact Hedge.
Qed.

Lemma dumpToFile_returns uid f k n (w w0 : World R Sd) :
  fst (SD_open_write (sd w) f) = true ->
  set_view VIEW_ACTION (dev w) = dev w0 -> input w = input w0 ->
  (1 <= k)%nat -> (k + S n <= List.length (input w0))%nat ->
  (forall j, (1 <= j < k)%nat -> anyPressed (dev (polls j w0)) = true) ->
  (forall j, (k <= j <= k + n)%nat -> anyPressed (dev (polls j w0)) = false) ->
  anyPressed (dev (polls (k + S n) w0)) = true ->
  value (dumpToFile uid f w) = Some tt /\
  dev (world (dumpToFile uid f w)) = dev (polls (k + S n) w0).
Proof.
  intros Hok Hd Hi Hk Hlen Hdrain Hquiet Hedge.
  unfold dumpToFile. rewrite bind_sd_open_write, Hok. cbn [negb].
  rewrite bind_displayInfo, bind_step.
  set (w1 := with_dev _ (set_view VIEW_ACTION _)).
  destruct (dumpLoop_run uid (Z.of_nat (List.length uid)) f (range 64) false w1)
    as (res & w' & body & E & Hdev & Hinp & _).
  rewrite E. cbn [value world events]. rewrite bind_file_close.
  rewrite !value_after, !world_after.
  assert (Hw : forall a b c,
            value (bind (displayInfo a b c) (fun _ => waitForButtonPress)
                        (with_sd w' (File_close (sd w') f))) = Some tt /\
            dev (world (bind (displayInfo a b c) (fun _ => waitForButtonPress)
                             (with_sd w' (File_close (sd w') f))))
              = dev (polls (k + S n) w0)).
  { intros a b c. rewrite bind_displayInfo, value_after, world_after.
    apply (waitForButtonPress_returns k n); try assumption.
    - cbn [dev with_dev with_sd]. rewrite Hdev. unfold w1.
      cbn [dev with_dev with_sd]. rewrite <- Hd. reflexivity.
    - cbn [input with_dev with_sd]. rewrite Hinp. unfold w1.
      cbn [input with_dev with_sd]. exact Hi. }
  destruct res; apply Hw.
Qed.

(** X29: a dump comes to its end.  When a card is found, no dump of it is
    on the SD card yet and the file opens, [dumpCard] needs no answer from
    the user before it is done: it opens the file, works through the 64
    blocks, closes the file, shows its report and returns at the first
    fresh press -- with buttons that show an edge at the polls before [k],
    are quiet from poll [k] to poll [k + n] and show an edge at the next
    poll, at that poll. *)
Theorem dump_completes_on_a_press
    (w : World R Sd) (uid : list Z) (rd : R) (k n : nat) :
  readPassiveTargetID (radio w) 2000 = (Some uid, rd) ->
  SD_exists (sd w) (dumpFilename uid) = false ->
  fst (SD_open_write (sd w) (dumpFilename uid)) = true ->
  (1 <= k)%nat -> (k + S n <= List.length (input w))%nat ->
  (forall j, (1 <= j < k)%nat -> anyPressed (dev (polls j (shown w))) = true) ->
  (forall j, (k <= j <= k + n)%nat -> anyPressed (dev (polls j (shown w))) = false) ->
  anyPressed (dev (polls (k + S n) (shown w))) = true ->
  let f := dumpFilename uid in
  value (dumpCard w) = Some tt /\
  dev (world (dumpCard w)) = dev (polls (k + S n) (shown w)) /\
  exists body,
    events (dumpCard w) =
      [EvDisplayInfo "Dump Card" "Place card on reader" "";
       EvDetect 2000 (Some uid); EvSdOpenWrite f true;
       EvDisplayInfo "Dumping Card..." f ""]
      ++ body ++ [EvFileClose f; dump_report f (List.existsb auth_ok body)] /\
    dump_body f body.
Proof.
  intros Hdet Hex Hopen Hk Hlen Hdrain Hquiet Hedge f.
  unfold dumpCard. rewrite bind_displayInfo, bind_nfc_readPassiveTargetID.
  change (radio (with_dev w (set_view VIEW_ACTION (dev w)))) with (radio w).
  rewrite Hdet. cbn [fst snd]. fold f.
  set (w1 := with_radio _ rd). rewrite bind_sd_exists.
  change (sd w1) with (sd w). fold f in Hex, Hopen. rewrite Hex.
  rewrite !value_after, !world_after, !events_after.
  destruct (dumpToFile_returns uid f k n w1 (shown w)) as [Hv Hd];
    try assumption; try reflexivity.
  destruct (dumpToFile_opened uid f w1 Hopen) as (body & He & Hb).
  split; [exact Hv|]. split; [exact Hd|].
  exists body. split; [rewrite He; reflexivity | exact Hb].
Qed.

End FirmwareFacts.

Lemma authenticate_in_dictionary_order_witness :
  let w := bench device_two_keys radio_only_A0_slotB [] [] in
  (numKeys (dev w) <= List.length (keys (dev w)))%nat /\
  value (authenticateBlock [222; 173; 190; 239] 4 4 w) = Some true /\
  events (authenticateBlock [222; 173; 190; 239] 4 4 w) =
    [EvAuth 4 0 KEY_FF false; EvAuth 4 1 KEY_FF false;
     EvAuth 4 0 KEY_A0 false; EvAuth 4 1 KEY_A0 true].
Proof.
  intros w.
  assert (H : (numKeys (dev w) <= List.length (keys (dev w)))%nat)
    by (vm_compute; lia).
  split; [exact H|].
  destruct (authenticate_in_dictionary_order [222; 173; 190; 239] 4 4 w H)
    as (_ & _ & Hex).
  apply (Hex KEY_FF KEY_A0 radio_only_A0_slotB radio_only_A0_slotB
             radio_only_A0_slotB radio_only_A0_slotB); reflexivity.
Defined.

Lemma dictionary_never_empty_witness :
  let w := bench device0 radio_plain [] [] in
  dev w = device0 /\ value (setup w) = Some tt /\
  dictionary (keys (dev (world (setup w)))) (numKeys (dev (world (setup w))))
  = defaultKeys.
Proof.
  intros w.
  assert (H1 : dev w = device0) by reflexivity.
  assert (H2 : value (setup w) = Some tt) by (vm_compute; reflexivity).
  split; [exact H1 | split; [exact H2|]].
  destruct (dictionary_never_empty w H1 H2) as (_ & _ & Hd & _).
  rewrite Hd. reflexivity.
Defined.

Example setup_with_useless_key_file :
  let w := bench device0 radio_plain [("keys.txt"%string, false, txt "not a key
00 11 22")] (idle 0 :: press_select) in
  value (setup w) = Some tt /\
  dictionary (keys (dev (world (setup w)))) (numKeys (dev (world (setup w))))
  = defaultKeys /\
  events (setup w) =
    [EvDisplayInfo "NFC Ready" "PN532 Found" "";
     EvDisplayInfo "SD Card Ready" "Initialized OK" "";
     EvSerial (txt "Malformed line in keys.txt: not a key");
     EvSerial (txt "Malformed line in keys.txt: 00 11 22");
     EvDisplayInfo "Keyfile Error" "No valid keys found." "Using defaults."].
Proof. vm_compute. repeat split. Qed.

Example setup_with_key_file :
  let w := bench device0 radio_plain [("keys.txt"%string, false, txt "01 02 03 04 05 06
A0 A1 A2 A3 A4 A5
")] [] in
  value (setup w) = Some tt /\
  dictionary (keys (dev (world (setup w)))) (numKeys (dev (world (setup w))))
  = [[1; 2; 3; 4; 5; 6]; [160; 161; 162; 163; 164; 165]].
Proof. vm_compute. repeat split. Qed.

Lemma confirm_gate_drains_then_decides_witness :
  let w0 := bench device_select_down radio_plain [] input_select_held_then_back in
  let w := with_dev w0 (set_view VIEW_ACTION (dev w0)) in
  anyPressed (dev (polls 1 (with_dev w (set_view VIEW_CONFIRM (dev w))))) = true /\
  pressed (btnSelect (dev (polls 1 (with_dev w (set_view VIEW_CONFIRM (dev w))))))
    = true /\
  value (confirmAction "Erase Block 4?" w) = Some false /\
  events (eraseCard w0) =
    [EvDisplayInfo "Erase Block" "Place card..." "";
     EvConfirmPrompt "Erase Block 4?"; EvConfirmed "Erase Block 4?" false;
     EvDisplayInfo "Cancelled" "" ""].
Proof.
  intros w0 w.
  split; [vm_compute; reflexivity|]. split; [vm_compute; reflexivity|].
  destruct (confirm_gate_drains_then_decides "Erase Block 4?" 2 2 w)
    as (Hrun & _ & _ & Hback & Hcallers).
  - lia.
  - vm_compute. lia.
  - intros j Hj. assert (j = 1%nat) by lia. subst j. vm_compute. reflexivity.
  - intros j Hj. assert (j = 2 \/ j = 3 \/ j = 4)%nat as [-> | [-> | ->]] by lia;
      vm_compute; reflexivity.
  - vm_compute. reflexivity.
  - split; [apply Hback; vm_compute; reflexivity|].
    destruct Hcallers as (Herase & _); [vm_compute; reflexivity|].
    destruct (Herase w0 eq_refl eq_refl) as (He & _). exact He.
Defined.

Lemma confirm_gate_up_down_cancel_witness :
  let w := bench device_defaults radio_plain [] input_up in
  pressed (btnUp (dev (polls 3 (with_dev w (set_view VIEW_CONFIRM (dev w))))))
    = true /\
  value (confirmAction "Erase Block 4?" w) = Some false.
Proof.
  intros w. split; [vm_compute; reflexivity|].
  destruct (confirm_gate_up_down_cancel "Erase Block 4?" 1 1 w) as (Hup & _).
  - lia.
  - vm_compute. lia.
  - intros j Hj. lia.
  - intros j Hj. assert (j = 1 \/ j = 2)%nat as [-> | ->] by lia;
      vm_compute; reflexivity.
  - vm_compute. reflexivity.
  - apply Hup; [left|]; vm_compute; reflexivity.
Defined.

Example erase_when_confirmed :
  let w0 := bench device_defaults radio_plain []
              (idle 0 :: press_select ++ idle 300 :: later 400 press_select) in
  value (eraseCard w0) = Some tt /\
  events (eraseCard w0) =
    [EvDisplayInfo "Erase Block" "Place card..." "";
     EvConfirmPrompt "Erase Block 4?"; EvConfirmed "Erase Block 4?" true;
     EvDetect 5000 (Some [222; 173; 190; 239]);
     EvAuth 4 0 KEY_FF true;
     EvWriteBlock 4 zeros16 true;
     EvDisplayInfo "Erase Success!" "Block 4 zeroed." ""].
Proof. vm_compute. split; reflexivity. Qed.




Example dump_of_locked_card_over_old_dump :
  let w := bench device_defaults radio_locked sd_three
                 (idle 0 :: later 100 press_select ++ idle 400 :: later 500 press_select) in
  value (dumpCard w) = Some tt /\
  List.filter (fun e => is_shown e || is_gate e
                        || touches_card_or_files e && negb (is_auth e)
                        && match e with EvFileWrite _ _ => false | _ => true end)
              (events (dumpCard w)) =
    [EvDisplayInfo "Dump Card" "Place card on reader" "";
     EvConfirmPrompt "Overwrite file?"; EvConfirmed "Overwrite file?" true;
     EvSdRemove "/DUMP-4AFF1.BIN" true; EvSdOpenWrite "/DUMP-4AFF1.BIN" true;
     EvDisplayInfo "Dumping Card..." "/DUMP-4AFF1.BIN" "";
     EvFileClose "/DUMP-4AFF1.BIN";
     EvDisplayInfo "Auth Failed!" "Could not read card." "Dump may be empty."] /\
  bytes_written (events (dumpCard w)) = List.repeat 0 1024 /\
  SD_open_read (sd (world (dumpCard w))) "/DUMP-4AFF1.BIN"
    = Some (List.repeat zero 1024).
Proof. vm_compute. repeat split. Qed.


Lemma file_list_holds_every_entry_witness :
  let w := bench device_defaults radio_plain sd_three input_choose_second in
  SD_root (sd w) = Some [mkDirEntry "data.bin" false; mkDirEntry "DCIM" true;
                         mkDirEntry "DUMP-4AFF1.BIN" false] /\
  List.In (shownName "DCIM") 
          (shownWindow ["data.bin"; "DCIM"; "DUMP-4AFF1.BIN"]%string 1) /\
  List.filter (fun e => is_gate e || touches_card_or_files e)
              (events (viewFiles "delete" w)) =
    [EvConfirmPrompt "Delete /DCIM?"; EvConfirmed "Delete /DCIM?" true;
     EvSdRemove "/DCIM" false].
Proof.
  intros w.
  assert (Hroot : SD_root (sd w) =
                  Some [mkDirEntry "data.bin" false; mkDirEntry "DCIM" true;
                        mkDirEntry "DUMP-4AFF1.BIN" false]) by reflexivity.
  split; [exact Hroot|].
  destruct (file_list_holds_every_entry "delete" w _ Hroot ltac:(discriminate))
    as (_ & _ & Hshown & Hsel).
  split; [apply (Hshown 1%nat); cbn; lia|].
  rewrite (Hsel 5%nat).
  - vm_compute. reflexivity.
  - vm_compute. lia.
  - intros j Hj.
    assert (j = 1 \/ j = 2 \/ j = 3 \/ j = 4 \/ j = 5)%nat
      as [-> | [-> | [-> | [-> | ->]]]] by lia; vm_compute; reflexivity.
  - vm_compute. reflexivity.
Defined.

(* ===================================================================== *)
(** * Further properties of the sketch                                    *)
(* ===================================================================== *)

(** ** Menu arithmetic *)

(** X1: the selection arithmetic of the menus and of the file list,
    [(i - 1 + n) % n] and [(i + 1) % n], keeps an index of a list of [n]
    items inside the list, steps by one, wraps from the first item to the
    last and back, and Up undoes Down as Down undoes Up. *)
Theorem menu_navigation_wraps (i n : Z) :
  0 <= i < n ->
  0 <= menu_up i n < n /\ 0 <= menu_down i n < n /\
  menu_up i n = (if i =? 0 then n - 1 else i - 1) /\
  menu_down i n = (if i =? n - 1 then 0 else i + 1) /\
  menu_down (menu_up i n) n = i /\ menu_up (menu_down i n) n = i.
Proof.
  intros H.
  pose proof (menu_up_eq i n H) as Hup.
  pose proof (menu_down_eq i n H) as Hdown.
  assert (Ru : 0 <= menu_up i n < n)
    by (rewrite Hup; destruct (Z.eqb_spec i 0); lia).
  assert (Rd : 0 <= menu_down i n < n)
    by (rewrite Hdown; destruct (Z.eqb_spec i (n - 1)); lia).
  repeat split; try lia; try assumption.
  - rewrite (menu_down_eq _ n Ru), Hup.
    destruct (Z.eqb_spec i 0);
      match goal with |- context [?a =? ?b] => destruct (Z.eqb_spec a b) end; lia.
  - rewrite (menu_up_eq _ n Rd), Hdown.
    destruct (Z.eqb_spec i (n - 1));
      match goal with |- context [?a =? ?b] => destruct (Z.eqb_spec a b) end; lia.
Qed.

Lemma menu_navigation_wraps_witness :
  0 <= 0 < totalMenuItems /\ menu_up 0 totalMenuItems = 5 /\
  menu_down (menu_up 0 totalMenuItems) totalMenuItems = 0.
Proof.
  split; [unfold totalMenuItems; lia|].
  destruct (menu_navigation_wraps 0 totalMenuItems) as (_ & _ & Hu & _ & Hd & _);
    [unfold totalMenuItems; lia|].
  split; [exact Hu | exact Hd].
Defined.

(** ** Debouncing *)

(** X2: the debounce window is measured on the 32-bit clock, so it spans
    the wrap of [millis()]: a press that begins at [t0] and is polled again
    [dt] milliseconds later, [dt] above the window, gives its one press edge
    even when the clock has wrapped to a smaller value in between. *)
Theorem debounce_spans_clock_wrap (b : Button) (t0 dt : Z) :
  at_rest LOW b -> 0 <= t0 < 2 ^ 32 -> debounceDelay < dt < 2 ^ 32 ->
  elapsed t0 (uint32 (t0 + dt)) = dt /\
  edges debounceDelay b (held LOW t0 [uint32 (t0 + dt)]) = 1%nat.
Proof.
  intros Hr Ht Hd.
  assert (E : elapsed t0 (uint32 (t0 + dt)) = dt).
  { unfold elapsed, uint32. rewrite Zminus_mod_idemp_l.
    replace (t0 + dt - t0) with dt by lia. apply Z.mod_small.
    unfold debounceDelay in Hd. lia. }
  split; [exact E|].
  rewrite (edges_held debounceDelay LOW t0 _ b); [|unfold debounceDelay; lia | exact Hr].
  unfold stable_for. cbn [List.map List.fold_right]. rewrite E.
  cbn [negb LOW andb].
  destruct (Z.ltb_spec debounceDelay (Z.max dt 0)); [reflexivity | lia].
Qed.

Lemma debounce_spans_clock_wrap_witness :
  uint32 (4294967290 + 60) = 54 /\
  edges debounceDelay btnSelect0 (held LOW 4294967290 [uint32 (4294967290 + 60)])
  = 1%nat.
Proof.
  split; [reflexivity|].
  apply (debounce_spans_clock_wrap btnSelect0 4294967290 60).
  - split; reflexivity.
  - lia.
  - unfold debounceDelay. lia.
Defined.

(** X3: a pin that changes level at every poll never gets through: each
    change restarts the window, so however long the bouncing lasts no press
    edge is emitted and the debounced state stays what it was. *)
Theorem debounce_rejects_chatter (W : Z) (ts : list Z) (lvl : bool) (b : Button) :
  0 <= W -> lastButtonState b = negb lvl ->
  edges W b (chatter lvl ts) = 0%nat /\
  currentState (snd (poll_run W b (chatter lvl ts))) = currentState b.
Proof.
  intros HW. unfold edges. revert lvl b.
  induction ts as [|t ts IH]; intros lvl b Hl; [split; reflexivity|].
  cbn [chatter poll_run].
  assert (E : debounce W lvl t b =
              mkButton (PIN b) (uint32 t) lvl (currentState b) false).
  { unfold debounce. rewrite Hl.
    replace (Bool.eqb lvl (negb lvl)) with false by (destruct lvl; reflexivity).
    cbn [negb]. rewrite elapsed_self.
    destruct (Z.ltb_spec W 0); [lia | reflexivity]. }
  rewrite E.
  destruct (IH (negb lvl) (mkButton (PIN b) (uint32 t) lvl (currentState b) false))
    as [I1 I2]; [cbn; rewrite Bool.negb_involutive; reflexivity|].
  destruct (poll_run W _ (chatter (negb lvl) ts)) as [flags bend].
  cbn [fst snd pressed currentState] in *.
  split; [exact I1 | exact I2].
Qed.

Lemma debounce_rejects_chatter_witness :
  edges debounceDelay btnSelect0 (chatter LOW [0; 30; 60; 90; 120; 150; 180]) = 0%nat /\
  currentState (snd (poll_run debounceDelay btnSelect0
                       (chatter LOW [0; 30; 60; 90; 120; 150; 180]))) = HIGH.
Proof.
  apply (debounce_rejects_chatter debounceDelay [0; 30; 60; 90; 120; 150; 180]
                                  LOW btnSelect0).
  - unfold debounceDelay. lia.
  - reflexivity.
Defined.

(** ** Bytes in base 16 *)

Lemma range_In (n : nat) (b : Z) : 0 <= b < Z.of_nat n -> List.In b (range n).
Proof.
  intros H. unfold range. apply List.in_map_iff. exists (Z.to_nat b).
  split; [lia | apply List.in_seq; lia].
Qed.

(** X4: a byte spelled as the sketch prints it -- [String(b, HEX)], one or
    two digits, in lower case or made upper case as in the names it shows --
    is read back by the key loader as that same byte. *)
Theorem hex_spelling_reads_back (b : Z) :
  0 <= b <= 255 ->
  byte_token (txt (String_HEX b)) = Some b /\
  byte_token (txt (toUpperCase (String_HEX b))) = Some b.
Proof.
  intros H.
  assert (A : List.forallb
                (fun b => match byte_token (txt (String_HEX b)),
                                byte_token (txt (toUpperCase (String_HEX b))) with
                          | Some u, Some v => (u =? b) && (v =? b)
                          | _, _ => false
                          end) (range 256) = true) by (vm_compute; reflexivity).
  rewrite List.forallb_forall in A. specialize (A b (range_In 256 b ltac:(lia))).
  destruct (byte_token (txt (String_HEX b))) as [u|]; [|discriminate].
  destruct (byte_token (txt (toUpperCase (String_HEX b)))) as [v|]; [|discriminate].
  apply Bool.andb_true_iff in A as [A1 A2].
  apply Z.eqb_eq in A1, A2. subst. split; reflexivity.
Qed.

Lemma hex_spelling_reads_back_witness :
  String_HEX 171 = "ab"%string /\ byte_token (txt "ab") = Some 171 /\
  byte_token (txt "AB") = Some 171.
Proof.
  split; [reflexivity|].
  exact (hex_spelling_reads_back 171 ltac:(lia)).
Defined.

Lemma hex_digit_plain (c : ascii) :
  hex_digit c <> None ->
  isspace c = false /\ Ascii.eqb c "-" = false /\ Ascii.eqb c "+" = false /\
  Ascii.eqb c "x" = false /\ Ascii.eqb c "X" = false /\
  exists d, hex_digit c = Some d /\ 0 <= d <= 15.
Proof.
  destruct c as [[] [] [] [] [] [] [] []]; vm_compute; intros H;
    try (exfalso; apply H; reflexivity);
    repeat split; eexists; split; try reflexivity; split; discriminate.
Qed.

Lemma hex_digits_all (s : text) : forall acc any,
  List.Forall (fun c => hex_digit c <> None) s ->
  hex_digits s acc any =
  (List.fold_left
     (fun a c => match hex_digit c with Some d => a * 16 + d | None => a end) s acc,
   any || negb (Nat.eqb (List.length s) 0), []).
Proof.
  induction s as [|c s IH]; intros acc any H.
  - cbn. rewrite Bool.orb_false_r. reflexivity.
  - inversion H as [|c' s' Hc Hs]; subst.
    destruct (hex_digit_plain c Hc) as (_ & _ & _ & _ & _ & d & Hd & _).
    cbn [hex_digits List.fold_left List.length Nat.eqb negb]. rewrite Hd.
    rewrite (IH _ _ Hs). rewrite Bool.orb_true_r. reflexivity.
Qed.

Lemma hex_fold_nonneg (s : text) : forall acc,
  0 <= acc ->
  0 <= List.fold_left
         (fun a c => match hex_digit c with Some d => a * 16 + d | None => a end) s acc.
Proof.
  induction s as [|c s IH]; intros acc H; [exact H|].
  cbn [List.fold_left]. apply IH.
  destruct (hex_digit c) as [d|] eqn:E; [|exact H].
  destruct (hex_digit_plain c) as (_ & _ & _ & _ & _ & d' & Hd & Hr); [congruence|].
  assert (d' = d) by congruence. subst. lia.
Qed.

Lemma strtol16_digits (tok : text) :
  tok <> [] -> List.Forall (fun c => hex_digit c <> None) tok ->
  strtol16 tok = (Z.min LONG_MAX (hex_value tok), []).
Proof.
  intros Hne Hall. destruct tok as [|c r]; [congruence|].
  inversion Hall as [|c' r' Hc Hr]; subst.
  destruct (hex_digit_plain c Hc) as (Hsp & Hm & Hp & _ & _ & _).
  pose proof (hex_digits_all (c :: r) 0 false Hall) as Hd.
  cbn [List.length Nat.eqb negb orb] in Hd. fold (hex_value (c :: r)) in Hd.
  unfold strtol16. cbn [skip_while]. rewrite Hsp, Hm, Hp.
  destruct r as [|x r0].
  - rewrite Hd. reflexivity.
  - inversion Hr as [|x' r0' Hx Hr0]; subst.
    destruct (hex_digit_plain x Hx) as (_ & _ & _ & Hx1 & Hx2 & _).
    rewrite Hx1, Hx2, Bool.andb_false_r, Hd. reflexivity.
Qed.

(** X5: a token made of base-16 digits only is a byte exactly when the
    number it spells is at most 255, however long it is: [strtol] clamps
    instead of wrapping, so no run of digits overflows into a byte. *)
Theorem byte_token_of_digits (tok : text) :
  tok <> [] -> List.Forall (fun c => hex_digit c <> None) tok ->
  byte_token tok = if hex_value tok <=? 255 then Some (hex_value tok) else None.
Proof.
  intros Hne Hall. unfold byte_token. rewrite (strtol16_digits tok Hne Hall).
  pose proof (hex_fold_nonneg tok 0 ltac:(lia)) as Hnn.
  fold (hex_value tok) in Hnn.
  unfold LONG_MAX.
  destruct (Z.leb_spec (hex_value tok) 255).
  - rewrite Z.min_r by lia.
    destruct (Z.leb_spec 0 (hex_value tok)); [|lia].
    destruct (Z.leb_spec (hex_value tok) 255); [reflexivity | lia].
  - destruct (Z.leb_spec (Z.min (2 ^ 31 - 1) (hex_value tok)) 255); [lia|].
    rewrite Bool.andb_false_r. reflexivity.
Qed.

Lemma byte_token_of_digits_witness :
  hex_value (txt "1000000FF") = 2 ^ 32 + 255 /\ byte_token (txt "1000000FF") = None.
Proof.
  split; [reflexivity|].
  rewrite (byte_token_of_digits (txt "1000000FF")).
  - reflexivity.
  - discriminate.
  - repeat constructor; discriminate.
Defined.

(** ** The texts the sketch builds *)

Lemma string_length_append (a b : string) :
  String.length (a ++ b) = (String.length a + String.length b)%nat.
Proof. induction a as [|c a IH]; cbn; [reflexivity | rewrite IH; reflexivity]. Qed.

Lemma string_append_assoc (a b c : string) : ((a ++ b) ++ c = a ++ (b ++ c))%string.
Proof. induction a as [|x a IH]; cbn; [reflexivity | rewrite IH; reflexivity]. Qed.

Lemma string_append_nil_r (a : string) : (a ++ "" = a)%string.
Proof. induction a as [|x a IH]; cbn; [reflexivity | rewrite IH; reflexivity]. Qed.

Lemma toUpperCase_app (a b : string) :
  toUpperCase (a ++ b) = (toUpperCase a ++ toUpperCase b)%string.
Proof. induction a as [|x a IH]; cbn; [reflexivity | rewrite IH; reflexivity]. Qed.

Lemma upper_char_idem (c : ascii) : upper_char (upper_char c) = upper_char c.
Proof. destruct c as [[] [] [] [] [] [] [] []]; vm_compute; reflexivity. Qed.

Lemma toUpperCase_idem (s : string) : toUpperCase (toUpperCase s) = toUpperCase s.
Proof.
  induction s as [|c s IH]; cbn; [reflexivity|].
  rewrite upper_char_idem, IH. reflexivity.
Qed.

(** The pieces a loop appended, one after the other. *)
Lemma string_concat_cons (x : string) (l : list string) :
  String.concat "" (x :: l) = (x ++ String.concat "" l)%string.
Proof.
  destruct l as [|y l]; cbn [String.concat];
    [rewrite string_append_nil_r; reflexivity | reflexivity].
Qed.

Lemma fold_append (f : Z -> string) (l : list Z) : forall acc,
  List.fold_left (fun (a : string) (b : Z) => (a ++ f b)%string) l acc =
  (acc ++ String.concat "" (List.map f l))%string.
Proof.
  induction l as [|b l IH]; intros acc.
  - cbn. rewrite string_append_nil_r. reflexivity.
  - cbn [List.fold_left List.map]. rewrite IH, string_concat_cons.
    apply string_append_assoc.
Qed.

Lemma String_HEX_length (b : Z) :
  String.length (String_HEX b) = if b <? 16 then 1%nat else 2%nat.
Proof. unfold String_HEX. destruct (b <? 16); reflexivity. Qed.

(** X6: the name of a dump is [/DUMP-], the bytes of the identifier in
    upper-case base 16 without leading zeros, and [.BIN].  As a byte below
    16 takes one digit only, the name does not tell every card from every
    other: two different four-byte identifiers can share their file. *)
Theorem dump_name_is_unpadded_hex :
  (forall uid,
     dumpFilename uid =
     ("/DUMP-" ++ String.concat "" (List.map (fun b => toUpperCase (String_HEX b)) uid)
      ++ ".BIN")%string) /\
  (exists uid1 uid2,
     List.length uid1 = 4%nat /\ List.length uid2 = 4%nat /\
     List.Forall is_byte uid1 /\ List.Forall is_byte uid2 /\
     uid1 <> uid2 /\ dumpFilename uid1 = dumpFilename uid2).
Proof.
  split.
  - intros uid. unfold dumpFilename.
    rewrite fold_append.
    set (X := String.concat "" (List.map String_HEX uid)).
    rewrite (toUpperCase_app ("/dump-" ++ X) ".bin").
    rewrite (toUpperCase_app "/dump-" X).
    rewrite string_append_assoc.
    assert (E : toUpperCase X =
                String.concat "" (List.map (fun b => toUpperCase (String_HEX b)) uid)).
    { subst X. induction uid as [|b uid IH]; [reflexivity|].
      cbn [List.map]. rewrite !string_concat_cons, toUpperCase_app, IH. reflexivity. }
    rewrite E. reflexivity.
  - exists [1; 35; 69; 103], [18; 3; 69; 103].
    repeat split; try (repeat constructor; unfold is_byte; lia); discriminate.
Qed.

(** X7: the identifier [readCard] shows is [UID: ] followed, for each byte
    in turn, by the byte in upper-case base 16 and a space: making the
    whole text upper case again at every turn changes nothing of what was
    already there. *)
Theorem uid_text_lists_the_bytes (uid : list Z) :
  uidString uid =
  ("UID: " ++ String.concat ""
     (List.map (fun b => toUpperCase (String_HEX b) ++ " ") uid))%string.
Proof.
  unfold uidString.
  assert (G : forall l acc, toUpperCase acc = acc ->
            List.fold_left
              (fun (a : string) (b : Z) => (toUpperCase (a ++ String_HEX b) ++ " ")%string)
              l acc =
            (acc ++ String.concat ""
               (List.map (fun b => toUpperCase (String_HEX b) ++ " ") l))%string).
  { induction l as [|b l IH]; intros acc Hacc.
    - cbn. rewrite string_append_nil_r. reflexivity.
    - cbn [List.fold_left List.map]. rewrite IH.
      + rewrite string_concat_cons, toUpperCase_app, Hacc.
        rewrite !string_append_assoc. reflexivity.
      + rewrite !toUpperCase_app, !toUpperCase_idem. reflexivity. }
  apply G. reflexivity.
Qed.

(** X8: the data line of a block read shows every byte with exactly two
    digits: [Data: ] and twice as many digits as there are bytes, 38
    characters for a block. *)
Theorem block_text_two_digits_per_byte (data : list Z) :
  List.Forall is_byte data ->
  String.length (dataHex data) = (6 + 2 * List.length data)%nat /\
  (List.length data = 16%nat -> String.length (dataHex data) = 38%nat).
Proof.
  intros H.
  assert (G : forall l acc, List.Forall is_byte l ->
            String.length
              (List.fold_left
                 (fun (a : string) (b : Z) =>
                    ((if (b <? 16)%Z then a ++ "0" else a) ++ String_HEX b)%string)
                 l acc) = (String.length acc + 2 * List.length l)%nat).
  { induction l as [|b l IH]; intros acc Hl; [cbn; lia|].
    inversion Hl as [|b' l' Hb Hl']; subst.
    cbn [List.fold_left List.length]. rewrite (IH _ Hl').
    rewrite string_length_append, String_HEX_length.
    destruct (b <? 16); rewrite ?string_length_append; cbn [String.length]; lia. }
  assert (E : String.length (dataHex data) = (6 + 2 * List.length data)%nat).
  { unfold dataHex. rewrite (G _ _ H). reflexivity. }
  split; [exact E | intros H16; rewrite E, H16; reflexivity].
Qed.

Lemma block_text_two_digits_per_byte_witness :
  dataHex [0; 10; 171; 255] = "Data: 000aabff"%string /\
  String.length (dataHex [0; 10; 171; 255]) = (6 + 2 * 4)%nat.
Proof.
  split; [reflexivity|].
  apply (block_text_two_digits_per_byte [0; 10; 171; 255]).
  repeat constructor; unfold is_byte; lia.
Defined.

Lemma substring_length (s : string) : forall n m,
  String.length (String.substring n m s) = Nat.min m (String.length s - n).
Proof.
  induction s as [|c s IH]; intros n m.
  - destruct n, m; reflexivity.
  - destruct n as [|n].
    + destruct m as [|m]; [reflexivity|]. cbn [String.substring String.length].
      rewrite IH. cbn. rewrite Nat.sub_0_r. reflexivity.
    + cbn [String.substring String.length]. rewrite IH. reflexivity.
Qed.

(** X9: a name in the file list never takes more than 18 characters: a
    leading slash is dropped, a name of at most 18 characters is shown in
    full, and a longer one as its first 15 characters and three dots. *)
Theorem shown_name_fits (name : string) :
  let base := if startsWithSlash name
              then String.substring 1 (String.length name - 1) name else name in
  (String.length (shownName name) <= 18)%nat /\
  ((String.length base <= 18)%nat -> shownName name = base) /\
  ((18 < String.length base)%nat ->
   shownName name = (String.substring 0 15 base ++ "...")%string /\
   String.length (shownName name) = 18%nat).
Proof.
  intros base. unfold shownName. fold base.
  destruct (Nat.ltb_spec 18 (String.length base)) as [Hlong | Hshort].
  - assert (E : String.length (String.substring 0 15 base ++ "...") = 18%nat).
    { rewrite string_length_append, substring_length. cbn [String.length]. lia. }
    split; [lia | split; [lia | intros _; split; [reflexivity | exact E]]].
  - split; [exact Hshort | split; [reflexivity | lia]].
Qed.

(** ** The menus as drawn *)

(** X24: a menu always shows its selection.  For every item of the main
    menu, [displayMenu] prints four lines, one of which is the selected
    item, and marks that line and no other; [displaySDMenuOptions] prints
    the three items of the SD menu and marks the selected one only. *)
Theorem menu_shows_its_selection :
  (forall cur, 0 <= cur < totalMenuItems ->
     List.length (displayMenu cur) = 4%nat /\
     List.filter marked (displayMenu cur) =
       [("> " ++ List.nth (Z.to_nat cur) menuItems "")%string]) /\
  (forall cur, 0 <= cur < totalSDMenuItems ->
     List.length (displaySDMenuOptions cur) = 3%nat /\
     List.filter marked (displaySDMenuOptions cur) =
       [("> " ++ List.nth (Z.to_nat cur) sdMenuItems "")%string]).
Proof.
  split; intros cur H.
  - assert (cur = 0 \/ cur = 1 \/ cur = 2 \/ cur = 3 \/ cur = 4 \/ cur = 5)
      as [-> | [-> | [-> | [-> | [-> | ->]]]]]
      by (unfold totalMenuItems in H; lia); split; reflexivity.
  - assert (cur = 0 \/ cur = 1 \/ cur = 2) as [-> | [-> | ->]]
      by (unfold totalSDMenuItems in H; lia); split; reflexivity.
Qed.

(** ** Runs on the bench *)

Lemma wait_returns_on_a_fresh_press_witness :
  let w := bench device_defaults radio_plain sd_three input_idle_then_select in
  waitForButtonPress w = mkRes (Some tt) (polls 3 w) [] /\
  pressed (btnSelect (dev (polls 3 w))) = true.
Proof.
  intros w. split; [|vm_compute; reflexivity].
  destruct (wait_returns_on_a_fresh_press w) as (_ & _ & _ & _ & _ & Hrun).
  apply (Hrun 1%nat 1%nat).
  - lia.
  - vm_compute. lia.
  - intros j Hj. lia.
  - intros j Hj. assert (j = 1 \/ j = 2)%nat as [-> | ->] by lia;
      vm_compute; reflexivity.
  - vm_compute. reflexivity.
Defined.

Lemma browsing_changes_nothing_witness :
  let w := bench device_defaults radio_plain sd_three input_choose_second in
  List.Forall shows (events (viewFiles "view" w)) /\
  sd (world (viewFiles "view" w)) = sd_three.
Proof.
  intros w.
  destruct (browsing_changes_nothing "view" w eq_refl eq_refl) as (H1 & H2 & _).
  split; [exact H1 | exact H2].
Defined.

Lemma back_leaves_the_file_list_witness :
  let w := bench device_defaults radio_plain sd_three input_down_then_back in
  value (viewFiles "delete" w) = Some tt /\
  List.length (events (viewFiles "delete" w)) = 5%nat /\
  sd (world (viewFiles "delete" w)) = sd_three.
Proof.
  intros w.
  destruct (back_leaves_the_file_list "delete" w
              [mkDirEntry "data.bin" false; mkDirEntry "DCIM" true;
               mkDirEntry "DUMP-4AFF1.BIN" false] 5)
    as (Hrun & Hlen & _ & _ & Hsd).
  - reflexivity.
  - discriminate.
  - vm_compute. lia.
  - intros j Hj.
    assert (j = 1 \/ j = 2 \/ j = 3 \/ j = 4 \/ j = 5)%nat
      as [-> | [-> | [-> | [-> | ->]]]] by lia; vm_compute; reflexivity.
  - vm_compute. reflexivity.
  - split; [rewrite Hrun; reflexivity | split; [exact Hlen | exact Hsd]].
Defined.

Lemma menus_stay_in_range_witness :
  let w := bench device_defaults radio_plain sd_three input_sd_menu_and_back in
  menu_ok (dev (world (loops 12 w))) /\
  currentMenuItem (dev (world (loops 12 w))) = 5.
Proof.
  intros w. split; [|vm_compute; reflexivity].
  apply (menus_stay_in_range 12 w).
  - unfold menu_ok, totalMenuItems, totalSDMenuItems. cbn.
    split; [left; reflexivity | lia].
  - vm_compute. reflexivity.
Defined.


Example main_menu_from_defaults :
  let w := bench device_defaults radio_plain sd_three input_sd_menu_and_back in
  List.filter (fun e => match e with EvDrawMenu _ _ => true | _ => false end)
              (events (loops 12 w)) =
    [EvDrawMenu VIEW_MAIN_MENU 0; EvDrawMenu VIEW_MAIN_MENU 5;
     EvDrawMenu VIEW_SD_MENU 0; EvDrawMenu VIEW_MAIN_MENU 5].
Proof. vm_compute. reflexivity. Qed.

Lemma dictionary_keys_are_six_bytes_witness :
  let w := bench device0 radio_plain sd_three [] in
  List.Forall is_key
    (dictionary (keys (dev (world (setup w)))) (numKeys (dev (world (setup w))))).
Proof.
  intros w.
  destruct (dictionary_keys_are_six_bytes w) as (_ & H).
  apply H; [reflexivity | vm_compute; reflexivity].
Defined.

Lemma menu_shows_its_selection_witness :
  displayMenu 5 =
    ["  Read NDEF"; "  Read/Write Block"; "  Erase Block"; "> SD Card Menu"]%string /\
  List.filter marked (displayMenu 5) = ["> SD Card Menu"%string].
Proof.
  split; [reflexivity|].
  destruct menu_shows_its_selection as (Hmain & _).
  destruct (Hmain 5) as (_ & Hmark); [unfold totalMenuItems; lia|].
  exact Hmark.
Defined.

Lemma read_card_returns_on_a_press_witness :
  let w := bench device_defaults radio_plain sd_three input_idle_then_select in
  value (readCard w) = Some tt /\
  events (readCard w) =
    [EvDisplayInfo "Reading Card..." "Place card on reader" "";
     EvDetect 2000 (Some [222; 173; 190; 239]);
     EvDisplayInfo "Card Found!" "UID: DE AD BE EF " "Press any key..."].
Proof.
  intros w.
  assert (Hdet : readPassiveTargetID (radio w) 2000 =
                 (Some [222; 173; 190; 239], radio_plain)) by reflexivity.
  rewrite (read_card_returns_on_a_press w (Some [222; 173; 190; 239]) radio_plain
             1 1 Hdet).
  - split; reflexivity.
  - lia.
  - vm_compute. lia.
  - intros j Hj. lia.
  - intros j Hj. assert (j = 1 \/ j = 2)%nat as [-> | ->] by lia;
      vm_compute; reflexivity.
  - vm_compute. reflexivity.
Defined.

Lemma action_returns_to_main_menu_witness :
  let w := bench device_select_down radio_plain sd_three input_select_held_then_back in
  currentView (dev (world (loop w))) = VIEW_MAIN_MENU /\
  events (loop w) =
    [EvDisplayInfo "Reading Card..." "Place card on reader" "";
     EvDetect 2000 (Some [222; 173; 190; 239]);
     EvDisplayInfo "Card Found!" "UID: DE AD BE EF " "Press any key...";
     EvDrawMenu VIEW_MAIN_MENU 0].
Proof.
  intros w.
  destruct (action_returns_to_main_menu w) as (Hview & _ & _ & Hev).
  - reflexivity.
  - change (0 <= 0 < 5). lia.
  - vm_compute. reflexivity.
  - vm_compute. reflexivity.
  - vm_compute. reflexivity.
  - vm_compute. reflexivity.
  - split; [exact Hview|]. rewrite Hev. vm_compute. reflexivity.
Defined.

Lemma dump_completes_on_a_press_witness :
  let w := bench device_defaults radio_plain [] input_idle_then_select in
  value (dumpCard w) = Some tt /\
  List.length (bytes_written (events (dumpCard w))) = 1024%nat /\
  SD_open_read (sd (world (dumpCard w))) "/DUMP-DEADBEEF.BIN"
    = Some (text_of_bytes (List.repeat 171 1024)).
Proof.
  intros w.
  assert (Hdet : readPassiveTargetID (radio w) 2000 =
                 (Some [222; 173; 190; 239], radio_plain)) by reflexivity.
  destruct (dump_completes_on_a_press w [222; 173; 190; 239] radio_plain 1 1 Hdet)
    as (Hv & _ & _).
  - reflexivity.
  - reflexivity.
  - lia.
  - vm_compute. lia.
  - intros j Hj. lia.
  - intros j Hj. assert (j = 1 \/ j = 2)%nat as [-> | ->] by lia;
      vm_compute; reflexivity.
  - vm_compute. reflexivity.
  - split; [exact Hv|]. split; vm_compute; reflexivity.
Defined.
